(** * dynagrpc: the type-cast registry of [dynagrpc/__init__.py]

    A shallow embedding of the naming helpers, of [create_enum_dict] and of
    [GrpcTypeCastRegistry], with the properties of the registration protocol.

    Conventions of the embedding:
    - a Python [str] is a Rocq [string]; the model covers ASCII text, which
      is what protobuf identifiers are made of ([str.lower] and [str.upper]
      touch the ASCII letters only);
    - a Python [dict] is a [gmap] (Python compares dicts without regard to
      order), a Python [set] is a [gset];
    - descriptors are objects that refer to each other: they live in a
      pool, and a reference is a key of the pool;
    - a raised exception is a value [Raise e]; the methods of the registry
      are computations on the state of the registry, in a small state and
      exception monad;
    - the module [dynagrpc._astcast], which generates the converters, is
      not among the sources: its functions are parameters, gathered in the
      record [Astcast].

    The definitions come first, the properties after them. *)

From stdpp Require Import gmap strings list fin_maps.
From Stdlib Require Import Ascii ZArith Lia.

Local Open Scope Z_scope.

(** ** Python strings *)

Module Str.

(** The character class [[A-Z]] of the regular expression. *)
Definition is_AZ (c : ascii) : bool :=
  ((65 <=? N_of_ascii c) && (N_of_ascii c <=? 90))%N.

Definition is_az (c : ascii) : bool :=
  ((97 <=? N_of_ascii c) && (N_of_ascii c <=? 122))%N.

Definition lower_char (c : ascii) : ascii :=
  if is_AZ c then ascii_of_N (N_of_ascii c + 32) else c.

Definition upper_char (c : ascii) : ascii :=
  if is_az c then ascii_of_N (N_of_ascii c - 32) else c.

(** [str.lower()] and [str.upper()]. *)
Fixpoint lower (s : string) : string :=
  match s with
  | EmptyString => EmptyString
  | String c s' => String (lower_char c) (lower s')
  end.

Fixpoint upper (s : string) : string :=
  match s with
  | EmptyString => EmptyString
  | String c s' => String (upper_char c) (upper s')
  end.

(** [len(s)], a Python integer. *)
Definition len (s : string) : Z := Z.of_nat (String.length s).

(** [s.startswith(p)]. *)
Fixpoint startswith (s p : string) {struct p} : bool :=
  match p with
  | EmptyString => true
  | String c p' =>
      match s with
      | EmptyString => false
      | String d s' => if decide (c = d) then startswith s' p' else false
      end
  end.

(** The slice [s[n:]] for [0 <= n]. *)
Fixpoint drop (n : nat) (s : string) : string :=
  match n with
  | O => s
  | S n' => match s with EmptyString => EmptyString | String _ s' => drop n' s' end
  end.

Definition slice_from (n : Z) (s : string) : string := drop (Z.to_nat n) s.

(** [sep.join(parts)]. *)
Fixpoint join (sep : string) (parts : list string) : string :=
  match parts with
  | [] => EmptyString
  | [p] => p
  | p :: rest => p +:+ sep +:+ join sep rest
  end.

(** The longest prefix of [s] without a character of [[A-Z]]: what
    [[^A-Z]*] matches at the start of [s]. *)
Fixpoint non_AZ_prefix (s : string) : string :=
  match s with
  | EmptyString => EmptyString
  | String c s' => if is_AZ c then EmptyString else String c (non_AZ_prefix s')
  end.

(** [re.findall("[A-Z][^A-Z]*", s)]: the matches, left to right and
    without overlap. A match starts at each character of [[A-Z]] (the
    match before it stops there, and characters before the first capital
    match nothing) and takes every following character outside [[A-Z]]. *)
Fixpoint findall_AZ_runs (s : string) : list string :=
  match s with
  | EmptyString => []
  | String c s' =>
      if is_AZ c then String c (non_AZ_prefix s') :: findall_AZ_runs s'
      else findall_AZ_runs s'
  end.

(** Whether [s] has a character of [[A-Z]], and [s] from its first such
    character on. *)
Fixpoint has_AZ (s : string) : bool :=
  match s with
  | EmptyString => false
  | String c s' => is_AZ c || has_AZ s'
  end.

Fixpoint from_first_AZ (s : string) : string :=
  match s with
  | EmptyString => EmptyString
  | String c s' => if is_AZ c then s else from_first_AZ s'
  end.

(** Whether a character is cased: for ASCII text, whether it is a letter. *)
Definition is_cased (c : ascii) : bool := is_AZ c || is_az c.

(** [str.title()]: a character that follows a cased character is
    lower-cased, any other character is title-cased (for ASCII text,
    upper-cased). [title_from] starts in the middle of a text. *)
Fixpoint title_from (previous_is_cased : bool) (s : string) : string :=
  match s with
  | EmptyString => EmptyString
  | String c s' =>
      String (if previous_is_cased then lower_char c else upper_char c)
             (title_from (is_cased c) s')
  end.

Definition title (s : string) : string := title_from false s.

(** [s.split(sep)] for a separator of one character: the pieces between
    the separators, empty ones included. *)
Fixpoint split (sep : ascii) (s : string) : list string :=
  match s with
  | EmptyString => [EmptyString]
  | String c s' =>
      if decide (c = sep) then EmptyString :: split sep s'
      else match split sep s' with
           | word :: words => String c word :: words
           | [] => [String c EmptyString]
           end
  end.

End Str.

(** [itertools.groupby(items, key)]: the maximal blocks of consecutive
    items with equal keys, each with its key. *)
Fixpoint groupby {A : Type} (key : A → Z) (items : list A) : list (Z * list A) :=
  match items with
  | [] => []
  | x :: rest =>
      match groupby key rest with
      | (k, g) :: gs =>
          if decide (key x = k) then (k, x :: g) :: gs
          else (key x, [x]) :: (k, g) :: gs
      | [] => [(key x, [x])]
      end
  end.

(** ** Naming helpers *)

(** [pascal2snake]: PascalCase to snake_case. *)
Definition pascal2snake (name : string) : string :=
  Str.join "_"
    (map (λ '(length, group),
            Str.lower (Str.join (if decide (length = 1) then EmptyString else "_") group))
         (groupby Str.len (Str.findall_AZ_runs name))).

(** [snake2pascal]: snake_case to PascalCase. *)
Definition snake2pascal (name : string) : string :=
  Str.join EmptyString (map Str.title (Str.split "_" name)).

(** ** Python values, exceptions and warnings *)

(** The Python values that occur as keys and values of the enum
    dictionaries: [None], integers and strings. *)
Inductive pyval : Type :=
  | PyNone
  | PyInt (z : Z)
  | PyStr (s : string).

#[global] Instance pyval_eq_dec : EqDecision pyval.
Proof. solve_decision. Defined.

#[global] Instance pyval_countable : Countable pyval.
Proof.
  refine (inj_countable'
    (λ v, match v with
          | PyNone => inl ()
          | PyInt z => inr (inl z)
          | PyStr s => inr (inr s)
          end)
    (λ x, match x with
          | inl _ => PyNone
          | inr (inl z) => PyInt z
          | inr (inr s) => PyStr s
          end) _).
  by intros [].
Defined.

#[global] Instance PyInt_inj : Inj (=) (=) PyInt.
Proof. by intros ?? [= ->]. Qed.

#[global] Instance PyStr_inj : Inj (=) (=) PyStr.
Proof. by intros ?? [= ->]. Qed.

(** An exception: its class and its message. *)
Record exn : Type := Exn { exn_class : string; exn_message : string }.

Definition ValueError (msg : string) : exn := Exn "ValueError" msg.
Definition NotImplementedError (msg : string) : exn := Exn "NotImplementedError" msg.
Definition KeyError (msg : string) : exn := Exn "KeyError" msg.

(** What a call does: it returns a value or raises. *)
Inductive result (A : Type) : Type :=
  | Ok (a : A)
  | Raise (e : exn).
Arguments Ok {A} a.
Arguments Raise {A} e.

(** A call of [warnings.warn(message, category)]. The model records the
    call; whether the interpreter prints it is a matter of its warning
    filters (the default ones never turn it into an exception). *)
Record warning : Type := Warn { warn_message : string; warn_category : string }.

(** [repr] of a [str], as the [!r] conversions of the f-strings need it. *)
Module Repr.

Definition hex_digit (n : N) : ascii :=
  if (n <? 10)%N then ascii_of_N (48 + n) else ascii_of_N (87 + n).

Fixpoint contains (c : ascii) (s : string) : bool :=
  match s with
  | EmptyString => false
  | String d s' => if decide (c = d) then true else contains c s'
  end.

Definition escape_char (quote c : ascii) : string :=
  let n := N_of_ascii c in
  if decide (c = quote) then String "\" (String c EmptyString)
  else if decide (c = "\"%char) then "\\"
  else if decide (n = 9%N) then "\t"
  else if decide (n = 10%N) then "\n"
  else if decide (n = 13%N) then "\r"
  else if ((n <? 32) || (n =? 127))%N
       then String "\" (String "x" (String (hex_digit (n / 16))
                                       (String (hex_digit (n mod 16)) EmptyString)))
  else String c EmptyString.

Fixpoint escape (quote : ascii) (s : string) : string :=
  match s with
  | EmptyString => EmptyString
  | String c s' => escape_char quote c +:+ escape quote s'
  end.

Definition squote : ascii := "'"%char.
Definition dquote : ascii := ascii_of_N 34.

(** Single quotes, unless the text has a single quote and no double one. *)
Definition repr (s : string) : string :=
  let quote : ascii :=
    if contains squote s && negb (contains dquote s) then dquote else squote in
  String quote (escape quote s +:+ String quote EmptyString).

End Repr.

(** ** Enum descriptors *)

Record EnumValueDescriptor : Type := EnumValue {
  ev_name : string;
  ev_number : Z;
}.

(** What [create_enum_dict] reads of a protobuf [EnumDescriptor]. *)
Record EnumDescriptor : Type := {
  enum_name : string;
  enum_full_name : string;
  enum_values : list EnumValueDescriptor;
}.

(** A dict built by inserting the items in order: a later item replaces an
    earlier one with the same key. *)
Definition dict_of_items `{Countable K} {V : Type} (items : list (K * V)) : gmap K V :=
  foldl (λ d kv, <[kv.1 := kv.2]> d) ∅ items.

(** The descriptor's [values_by_name] and [values_by_number], as protobuf
    builds them from [values] (for [values_by_number] it walks the values
    in reverse, so the first of two aliases is the one kept). *)
Definition values_by_name (e : EnumDescriptor) : gmap string EnumValueDescriptor :=
  dict_of_items (map (λ v, (ev_name v, v)) (enum_values e)).

Definition values_by_number (e : EnumDescriptor) : gmap Z EnumValueDescriptor :=
  dict_of_items (map (λ v, (ev_number v, v)) (reverse (enum_values e))).

(** [all(pred(x) for x in xs)]. *)
Definition all {A : Type} (pred : A → bool) (xs : list A) : bool := forallb pred xs.

(** ** [create_enum_dict] *)

(** The result carries the warnings emitted on the way. [finish] is the
    end of the function, from [if mode == "int2str"] on, which runs with
    the threshold that the check of the prefix has set. *)
Definition create_enum_dict (enum_type : EnumDescriptor) (mode : string)
    (prefix : option string) : list warning * result (gmap pyval pyval) :=
  let common :=
    match prefix with
    | None => Str.upper (pascal2snake (enum_name enum_type)) +:+ "_"
    | Some p => p
    end in
  let finish (warned : list warning) (threshold : Z) : list warning * result (gmap pyval pyval) :=
    if decide (mode = "int2str") then
      let pairs := map_to_list (values_by_number enum_type) in
      (warned,
       Ok (dict_of_items
             (map (λ '(number, value),
                     (PyInt number, PyStr (Str.slice_from threshold (ev_name value))))
                  pairs)))
    else if decide (mode = "str2int") then
      let pairs := map_to_list (values_by_name enum_type) in
      (warned,
       Ok (dict_of_items
             (map (λ '(name, value),
                     (PyStr (Str.slice_from threshold name), PyInt (ev_number value)))
                  pairs)))
    else (warned, Raise (ValueError ("Unknown mode " +:+ Repr.repr mode))) in
  if all (λ value, Str.startswith (ev_name value) common) (enum_values enum_type) then
    finish [] (Str.len common)
  else
    match prefix with
    | Some p =>
        ([], Raise (ValueError ("The " +:+ Repr.repr p +:+ " prefix is not common for all values")))
    | None =>
        finish [Warn ("Missing values prefix in enum " +:+ enum_full_name enum_type)
                     "DynaGrpcWarning"] 0
    end.

(** ** Message descriptors *)

(** Descriptors are Python objects that refer to each other (a field of a
    message refers to the message type of its values, which may be the
    message itself). An object is named by its identity, a [ref]; the
    descriptors live in a pool that maps each identity to the object. *)
Definition ref : Type := positive.

(** What the registry reads of a [FieldDescriptor]. *)
Record FieldDescriptor : Type := {
  field_full_name : string;
  field_message_type : option ref;     (* [field.message_type], [None] for scalars and enums *)
}.

(** What the registry reads of a message [Descriptor]. [_concrete_class]
    is a private attribute of an object of the protobuf library; the model
    lets the access return the class or raise. *)
Record Descriptor (pyclass : Type) : Type := {
  full_name : string;
  fields : list FieldDescriptor;
  map_entry : bool;                    (* [GetOptions().map_entry] *)
  _concrete_class : result pyclass;
}.
Arguments full_name {pyclass} _.
Arguments fields {pyclass} _.
Arguments map_entry {pyclass} _.
Arguments _concrete_class {pyclass} _.

(** ** The converter namespace *)

Section Registry.

(** Python classes, the syntax trees that [_astcast] builds and the
    function objects that [_astcast.create_lambda] returns. *)
Context {pyclass ast lambda : Type}.

(** The callables stored in the namespace. *)
Inductive converter : Type :=
  | AttrGetter (attr : string)            (* [attrgetter(attr)] *)
  | PartialFail (error_message : string)  (* [partial(fail, error_message)] *)
  | Lambda (f : lambda).                  (* a result of [create_lambda] *)

(** [self._namespace]: an [AttrDict] with exactly these eight entries. *)
Record Namespace : Type := {
  d : pyclass;
  m2p : gmap string converter;
  p2m : gmap string converter;
  f2p : gmap string converter;
  p2f : gmap string converter;
  i2s : gmap string (gmap pyval pyval);
  s2i : gmap string (gmap pyval pyval);
  c : gmap string pyclass;
}.

Record GrpcTypeCastRegistry : Type := {
  _namespace : Namespace;
  _registering : gset ref;
}.

(** The module [dynagrpc._astcast] is not part of the sources at hand:
    its table of wrapper types and its functions are taken as they are
    used, each function returning a value or raising. [create_lambda]
    and [message2dict_ast] are handed the namespace, respectively its
    [i2s] entry, as they are at the time of the call. *)
Record Astcast : Type := {
  GOOGLE_PROTOBUF_WRAPPERS : list (string * pyclass);
  create_lambda :
    ∀ (return_ast : ast) (arg_name file_name : string) (namespace : Namespace),
      result lambda;
  wrapper2message_ast :
    ∀ (full_name value_name constructors_regname : string), result ast;
  wrap_call_ast : ∀ (callable_name : string) (input_ast : ast), result ast;
  message2dict_ast :
    ∀ (message_type : ref) (value_name : string)
      (enum_registry : gmap string (gmap pyval pyval)) (field_regname : string),
      result ast;
  dict2message_ast :
    ∀ (message_type : ref) (value_name constructors_regname field_regname : string),
      result ast;
  field_cast_ast :
    ∀ (msg_regname enum_regname : string) (field : FieldDescriptor)
      (value_name : string), result ast;
}.

(** *** The state of a run *)

(** A registry, the warnings emitted so far, and a log with the full name
    of each message whose converters were generated, in order. The log is
    bookkeeping of the model: no operation reads it. *)
Record World : Type := {
  registry : GrpcTypeCastRegistry;
  warned : list warning;
  compiled : list string;
}.

Definition namespace_of (w : World) : Namespace := _namespace (registry w).
Definition registering_of (w : World) : gset ref := _registering (registry w).

(** A computation on a world returns or raises, and leaves a world in
    both cases. [None] stands for a run the model does not define: the
    recursion budget is used up, or a reference leaves the pool (which
    references between Python objects cannot). *)
Definition M (A : Type) : Type := World → option (World * result A).

Definition ret {A} (a : A) : M A := λ w, Some (w, Ok a).

Definition bind {A B} (m : M A) (f : A → M B) : M B :=
  λ w, match m w with
       | Some (w', Ok a) => f a w'
       | Some (w', Raise e) => Some (w', Raise e)
       | None => None
       end.

Definition undefined {A} : M A := λ _, None.

(** The outcome of a call that does not touch the world. *)
Definition lift {A} (r : result A) : M A := λ w, Some (w, r).

Definition get_namespace : M Namespace := λ w, Some (w, Ok (namespace_of w)).
Definition get_registering : M (gset ref) := λ w, Some (w, Ok (registering_of w)).

(** The world after an update of the namespace, of the set of messages
    being registered, of the warnings and of the log. *)
Definition update_namespace (f : Namespace → Namespace) (w : World) : World :=
  {| registry := {| _namespace := f (namespace_of w);
                    _registering := registering_of w |};
     warned := warned w; compiled := compiled w |}.

Definition update_registering (f : gset ref → gset ref) (w : World) : World :=
  {| registry := {| _namespace := namespace_of w;
                    _registering := f (registering_of w) |};
     warned := warned w; compiled := compiled w |}.

Definition add_warnings (ws : list warning) (w : World) : World :=
  {| registry := registry w; warned := warned w ++ ws; compiled := compiled w |}.

Definition add_compiled (name : string) (w : World) : World :=
  {| registry := registry w; warned := warned w; compiled := compiled w ++ [name] |}.

Definition with_namespace (f : Namespace → Namespace) : M unit :=
  λ w, Some (update_namespace f w, Ok ()).

Definition with_registering (f : gset ref → gset ref) : M unit :=
  λ w, Some (update_registering f w, Ok ()).

Definition emit (ws : list warning) : M unit :=
  λ w, Some (add_warnings ws w, Ok ()).

Definition log_compiled (name : string) : M unit :=
  λ w, Some (add_compiled name w, Ok ()).

(** [try: body finally: cleanup]. The cleanup runs on both exits of the
    body; an exception of the cleanup replaces the outcome of the body. *)
Definition try_finally {A} (body : M A) (cleanup : M unit) : M A :=
  λ w, match body w with
       | Some (w', r) =>
           match cleanup w' with
           | Some (w'', Ok _) => Some (w'', r)
           | Some (w'', Raise e) => Some (w'', Raise e)
           | None => None
           end
       | None => None
       end.

(** The notations [x ← m; k] and [m;; k] of stdpp. *)
#[local] Instance M_ret : MRet M := @ret.
#[local] Instance M_bind : MBind M := λ A B f m, bind m f.

(** [for x in xs: body(x)]. *)
Fixpoint for_each {A} (xs : list A) (body : A → M unit) : M unit :=
  match xs with
  | [] => ret ()
  | x :: xs' => body x;; for_each xs' body
  end.

(** Item assignments [self._namespace.<registry>[key] = value]. *)
Definition assign_m2p (key : string) (value : converter) (ns : Namespace) : Namespace :=
  {| d := d ns; m2p := <[key := value]> (m2p ns); p2m := p2m ns; f2p := f2p ns;
     p2f := p2f ns; i2s := i2s ns; s2i := s2i ns; c := c ns |}.

Definition assign_p2m (key : string) (value : converter) (ns : Namespace) : Namespace :=
  {| d := d ns; m2p := m2p ns; p2m := <[key := value]> (p2m ns); f2p := f2p ns;
     p2f := p2f ns; i2s := i2s ns; s2i := s2i ns; c := c ns |}.

Definition assign_f2p (key : string) (value : converter) (ns : Namespace) : Namespace :=
  {| d := d ns; m2p := m2p ns; p2m := p2m ns; f2p := <[key := value]> (f2p ns);
     p2f := p2f ns; i2s := i2s ns; s2i := s2i ns; c := c ns |}.

Definition assign_p2f (key : string) (value : converter) (ns : Namespace) : Namespace :=
  {| d := d ns; m2p := m2p ns; p2m := p2m ns; f2p := f2p ns;
     p2f := <[key := value]> (p2f ns); i2s := i2s ns; s2i := s2i ns; c := c ns |}.

Definition assign_i2s (key : string) (value : gmap pyval pyval) (ns : Namespace) : Namespace :=
  {| d := d ns; m2p := m2p ns; p2m := p2m ns; f2p := f2p ns;
     p2f := p2f ns; i2s := <[key := value]> (i2s ns); s2i := s2i ns; c := c ns |}.

Definition assign_s2i (key : string) (value : gmap pyval pyval) (ns : Namespace) : Namespace :=
  {| d := d ns; m2p := m2p ns; p2m := p2m ns; f2p := f2p ns;
     p2f := p2f ns; i2s := i2s ns; s2i := <[key := value]> (s2i ns); c := c ns |}.

Definition assign_c (key : string) (value : pyclass) (ns : Namespace) : Namespace :=
  {| d := d ns; m2p := m2p ns; p2m := p2m ns; f2p := f2p ns;
     p2f := p2f ns; i2s := i2s ns; s2i := s2i ns; c := <[key := value]> (c ns) |}.

Definition set_m2p (key : string) (value : converter) : M unit :=
  with_namespace (assign_m2p key value).

Definition set_p2m (key : string) (value : converter) : M unit :=
  with_namespace (assign_p2m key value).

Definition set_f2p (key : string) (value : converter) : M unit :=
  with_namespace (assign_f2p key value).

Definition set_p2f (key : string) (value : converter) : M unit :=
  with_namespace (assign_p2f key value).

Definition set_i2s (key : string) (value : gmap pyval pyval) : M unit :=
  with_namespace (assign_i2s key value).

Definition set_s2i (key : string) (value : gmap pyval pyval) : M unit :=
  with_namespace (assign_s2i key value).

Definition set_c (key : string) (value : pyclass) : M unit :=
  with_namespace (assign_c key value).

(** [self._registering.add(x)] and [self._registering.remove(x)]; the
    latter raises [KeyError] when [x] is not in the set (the message of the
    exception would be the [repr] of the descriptor, which the model does
    not have). *)
Definition registering_add (x : ref) : M unit :=
  with_registering (λ s, {[x]} ∪ s).

Definition registering_remove (x : ref) : M unit :=
  s ← get_registering;
  if decide (x ∈ s) then with_registering (λ s, s ∖ {[x]})
  else lift (Raise (KeyError "message_type")).

(** [create_enum_dict] run in a world: its warnings are emitted, then it
    returns or raises. *)
Definition run_create_enum_dict (enum_type : EnumDescriptor) (mode : string)
    (prefix : option string) : M (gmap pyval pyval) :=
  let '(ws, r) := create_enum_dict enum_type mode prefix in
  emit ws;; lift r.

Variable astcast : Astcast.
Variable pool : gmap ref (Descriptor pyclass).

(** *** [GrpcTypeCastRegistry] *)

Definition google_complex_types : list string :=
  ["ListValue"; "Struct"; "Value"; "Any"; "Duration"; "FieldMask"; "Timestamp"].

Definition _register_google_types : M unit :=
  set_i2s "google.protobuf.NullValue" {[ PyInt 0 := PyNone ]};;
  set_s2i "google.protobuf.NullValue" {[ PyNone := PyInt 0 ]};;
  for_each (GOOGLE_PROTOBUF_WRAPPERS astcast) (λ '(full_name, wrapper),
    set_c full_name wrapper;;
    set_m2p full_name (AttrGetter "value");;
    ns ← get_namespace;
    return_ast ← lift (wrapper2message_ast astcast full_name "arg" "c");
    f ← lift (create_lambda astcast return_ast "arg"
                ("<p2m/" +:+ full_name +:+ ">") ns);
    set_p2m full_name (Lambda f));;
  for_each google_complex_types (λ name,
    let full_name := "google.protobuf." +:+ name in
    let named_fail := PartialFail full_name in
    set_m2p full_name named_fail;;
    set_p2m full_name named_fail).

(** The world in which [__init__] starts, and [__init__] itself. *)
Definition blank (dict_cls : pyclass) : World :=
  {| registry :=
       {| _namespace := {| d := dict_cls; m2p := ∅; p2m := ∅; f2p := ∅; p2f := ∅;
                           i2s := ∅; s2i := ∅; c := ∅ |};
          _registering := ∅ |};
     warned := []; compiled := [] |}.

Definition __init__ (dict_cls : pyclass) : option (World * result unit) :=
  _register_google_types (blank dict_cls).

Definition register_enum_type (enum_type : EnumDescriptor) : M unit :=
  let full_name := enum_full_name enum_type in
  int2str ← run_create_enum_dict enum_type "int2str" None;
  set_i2s full_name int2str;;
  str2int ← run_create_enum_dict enum_type "str2int" None;
  set_s2i full_name str2int.

(** The two field registries that [register_field_type] fills. *)
Inductive field_registry : Type := F2P | P2F.

Definition set_field_registry (registry : field_registry) : string → converter → M unit :=
  match registry with F2P => set_f2p | P2F => set_p2f end.

(** [register_field_type], over the function it calls for a nested
    message type. *)
Definition register_field_type_with (register_message_type : ref → M unit)
    (field : FieldDescriptor) : M unit :=
  match field_message_type field with
  | Some mt =>
      match pool !! mt with
      | Some mt_descriptor =>
          registering ← get_registering;
          if negb (map_entry mt_descriptor || bool_decide (mt ∈ registering))
          then register_message_type mt
          else ret ()
      | None => undefined
      end
  | None => ret ()
  end;;
  for_each [(F2P, "m2p", "i2s"); (P2F, "p2m", "s2i")]
    (λ '(registry, msg_regname, enum_regname),
      ns ← get_namespace;
      return_ast ← lift (field_cast_ast astcast msg_regname enum_regname field "value");
      f ← lift (create_lambda astcast return_ast "value"
                  ("<" +:+ msg_regname +:+ "/" +:+ field_full_name field +:+ ">") ns);
      set_field_registry registry (field_full_name field) (Lambda f)).

(** [register_message_type]; [fuel] bounds the depth of the recursion
    through [register_field_type]. [log_compiled] is the bookkeeping of
    the model: it notes that the converters of the message are about to be
    generated. *)
Fixpoint register_message_type (fuel : nat) (message_type : ref) : M unit :=
  match fuel with
  | O => undefined
  | S fuel' =>
      match pool !! message_type with
      | None => undefined
      | Some descriptor =>
          let full_name := full_name descriptor in
          ns ← get_namespace;
          if decide (full_name ∈ dom (m2p ns)) then ret ()
          else
            registering_add message_type;;
            try_finally
              (log_compiled full_name;;
               ns ← get_namespace;
               input_ast ← lift (message2dict_ast astcast message_type "msg" (i2s ns) "f2p");
               return_ast ← lift (wrap_call_ast astcast "d" input_ast);
               f ← lift (create_lambda astcast return_ast "msg"
                           ("<m2p/" +:+ full_name +:+ ">") ns);
               set_m2p full_name (Lambda f);;
               ns ← get_namespace;
               return_ast ← lift (dict2message_ast astcast message_type "data" "c" "p2f");
               f ← lift (create_lambda astcast return_ast "data"
                           ("<p2m/" +:+ full_name +:+ ">") ns);
               set_p2m full_name (Lambda f);;
               for_each (fields descriptor)
                 (register_field_type_with (register_message_type fuel'));;
               cls ← lift (_concrete_class descriptor);
               set_c full_name cls)
              (registering_remove message_type)
      end
  end.

Definition register_field_type (fuel : nat) (field : FieldDescriptor) : M unit :=
  register_field_type_with (register_message_type fuel) field.

(** *** Sequences of registration calls *)

Inductive registration : Type :=
  | RegisterEnum (enum_type : EnumDescriptor)
  | RegisterMessage (message_type : ref)
  | RegisterField (field : FieldDescriptor).

Definition register (fuel : nat) (call : registration) : M unit :=
  match call with
  | RegisterEnum enum_type => register_enum_type enum_type
  | RegisterMessage message_type => register_message_type fuel message_type
  | RegisterField field => register_field_type fuel field
  end.

(** A caller makes the calls one after the other on the same registry,
    and goes on after a call that raised. *)
Fixpoint register_all (fuel : nat) (calls : list registration) (w : World)
    : option World :=
  match calls with
  | [] => Some w
  | call :: calls' =>
      match register fuel call w with
      | Some (w', _) => register_all fuel calls' w'
      | None => None
      end
  end.

End Registry.

Arguments converter : clear implicits.
Arguments Namespace : clear implicits.
Arguments GrpcTypeCastRegistry : clear implicits.
Arguments Astcast : clear implicits.
Arguments World : clear implicits.
Arguments M : clear implicits.
Arguments registration : clear implicits.

(** ** Conversion *)

Section Conversion.

Context {pyclass lambda pyobj : Type}.

(** What the interpreter does: reading an attribute of a value, calling a
    function object made by [create_lambda] (it looks the registries up
    in the namespace at the time of the call), and the
    [DESCRIPTOR.full_name] of a message and of a message class. *)
Variable getattr : pyobj → string → result pyobj.
Variable run_lambda : lambda → Namespace pyclass lambda → pyobj → result pyobj.
Variable message_full_name : pyobj → string.
Variable class_full_name : pyclass → string.

(** The local function [fail] of [_register_google_types]. *)
Definition fail (error_message : string) (unused_input : pyobj) : result pyobj :=
  Raise (NotImplementedError error_message).

(** Calling a converter of the namespace. *)
Definition call (ns : Namespace pyclass lambda) (f : converter lambda) (arg : pyobj)
    : result pyobj :=
  match f with
  | AttrGetter attr => getattr arg attr
  | PartialFail error_message => fail error_message arg
  | Lambda f => run_lambda f ns arg
  end.

Definition proto2py (self : GrpcTypeCastRegistry pyclass lambda) (message : pyobj)
    : result pyobj :=
  let ns := _namespace self in
  match m2p ns !! message_full_name message with
  | Some f => call ns f message
  | None => Raise (KeyError (Repr.repr (message_full_name message)))
  end.

Definition py2proto (self : GrpcTypeCastRegistry pyclass lambda) (message_cls : pyclass)
    (data : pyobj) : result pyobj :=
  let ns := _namespace self in
  match p2m ns !! class_full_name message_cls with
  | Some f => call ns f data
  | None => Raise (KeyError (Repr.repr (class_full_name message_cls)))
  end.

End Conversion.

(** ** Properties of interest, as definitions *)

(** The joining rule of [pascal2snake], said directly: two neighbouring
    runs are glued together when both are a single character, and are
    separated by an underscore otherwise. *)
Fixpoint join_runs (runs : list string) : string :=
  match runs with
  | [] => EmptyString
  | run :: rest =>
      match rest with
      | [] => run
      | next :: _ =>
          run +:+ (if decide (Str.len run = 1 ∧ Str.len next = 1) then EmptyString else "_")
              +:+ join_runs rest
      end
  end.

(** What [sep.join] puts after the first part. *)
Definition join_tail (sep : string) (parts : list string) : string :=
  match parts with
  | [] => EmptyString
  | _ :: _ => sep +:+ Str.join sep parts
  end.

(** What [pascal2snake] makes of one group of [groupby]. *)
Definition snake_group (g : Z * list string) : string :=
  Str.lower (Str.join (if decide (g.1 = 1) then EmptyString else "_") g.2).

(** The words of conventional names. A character is [is_other] when it
    is neither a letter nor an underscore (a digit, say). The tail of a
    word is made of lower-case letters followed by such characters; a word
    of a snake_case name starts with a lower-case letter, a word of a
    PascalCase name with an upper-case one. *)
Definition is_other (c : ascii) : bool :=
  negb (Str.is_cased c) && negb (bool_decide (c = "_"%char)).

Fixpoint all_other (s : string) : bool :=
  match s with
  | EmptyString => true
  | String c s' => is_other c && all_other s'
  end.

Fixpoint word_tail (s : string) : bool :=
  match s with
  | EmptyString => true
  | String c s' => if Str.is_az c then word_tail s' else all_other s
  end.

Definition snake_word (w : string) : bool :=
  match w with
  | EmptyString => false
  | String c s' => Str.is_az c && word_tail s'
  end.

Definition pascal_word (w : string) : bool :=
  match w with
  | EmptyString => false
  | String c s' => Str.is_AZ c && word_tail s'
  end.

(** No two neighbours in the list are both a single character. *)
Fixpoint no_adjacent_single (words : list string) : bool :=
  match words with
  | [] => true
  | a :: rest =>
      match rest with
      | [] => true
      | b :: _ =>
          negb (bool_decide (Str.len a = 1) && bool_decide (Str.len b = 1))
          && no_adjacent_single rest
      end
  end.

(** The prefix that [create_enum_dict] derives when none is given. *)
Definition derived_prefix (enum_type : EnumDescriptor) : string :=
  Str.upper (pascal2snake (enum_name enum_type)) +:+ "_".

(** The prefix that [create_enum_dict] checks and cuts: the one given, or
    the derived one. *)
Definition common_prefix (enum_type : EnumDescriptor) (prefix : option string) : string :=
  match prefix with
  | None => derived_prefix enum_type
  | Some p => p
  end.

(** The dictionaries that [create_enum_dict] returns when it cuts
    [threshold] characters. *)
Definition int2str_dict (enum_type : EnumDescriptor) (threshold : Z) : gmap pyval pyval :=
  dict_of_items
    (map (λ '(number, value),
            (PyInt number, PyStr (Str.slice_from threshold (ev_name value))))
         (map_to_list (values_by_number enum_type))).

Definition str2int_dict (enum_type : EnumDescriptor) (threshold : Z) : gmap pyval pyval :=
  dict_of_items
    (map (λ '(name, value),
            (PyStr (Str.slice_from threshold name), PyInt (ev_number value)))
         (map_to_list (values_by_name enum_type))).

(** The warning of [create_enum_dict]. *)
Definition missing_prefix_warning (enum_type : EnumDescriptor) : warning :=
  Warn ("Missing values prefix in enum " +:+ enum_full_name enum_type) "DynaGrpcWarning".

(** An enum without aliases: no two values share a number or a name. *)
Definition alias_free (enum_type : EnumDescriptor) : Prop :=
  NoDup (ev_number <$> enum_values enum_type) ∧ NoDup (ev_name <$> enum_values enum_type).

Definition is_ok {A : Type} (r : result A) : bool :=
  match r with Ok _ => true | Raise _ => false end.

Section Invariants.

Context {pyclass lambda : Type}.

(** Every reference of the pool, from a field to its message type, stays
    in the pool: the schema graph is finite and closed. *)
Definition pool_closed (pool : gmap ref (Descriptor pyclass)) : Prop :=
  ∀ mt descriptor field mt',
    pool !! mt = Some descriptor →
    field ∈ fields descriptor →
    field_message_type field = Some mt' →
    is_Some (pool !! mt').

(** The full names of the messages of the pool, and how many of them have
    no message-to-container converter yet. *)
Definition pool_names (pool : gmap ref (Descriptor pyclass)) : gset string :=
  list_to_set (full_name <$> (map_to_list pool).*2).

Definition unregistered (pool : gmap ref (Descriptor pyclass))
    (w : World pyclass lambda) : nat :=
  size (pool_names pool ∖ dom (m2p (namespace_of w))).

(** The message slots of the schemas named in [D] are the same in both
    worlds. *)
Definition same_message_slots (D : gset string) (w w' : World pyclass lambda) : Prop :=
  ∀ name, name ∈ D →
    m2p (namespace_of w') !! name = m2p (namespace_of w) !! name
    ∧ p2m (namespace_of w') !! name = p2m (namespace_of w) !! name
    ∧ c (namespace_of w') !! name = c (namespace_of w) !! name.

(** What a registration does to a world [w], for a set [D] of schemas
    that have a message-to-container converter in [w]: none of these
    converters goes away, the message slots of [D] stay as they are, and
    the messages compiled on the way are distinct, had no converter in
    [w] and, unless the registration raised, have one afterwards; they are
    the only ones to get one. *)
Record extends (D : gset string) (ok : bool) (w w' : World pyclass lambda) : Prop := {
  extends_dom : dom (m2p (namespace_of w)) ⊆ dom (m2p (namespace_of w'));
  extends_slots : same_message_slots D w w';
  extends_log : ∃ new : list string,
    compiled w' = (compiled w ++ new)%list
    ∧ NoDup new
    ∧ (∀ name, name ∈ new → name ∉ dom (m2p (namespace_of w)))
    ∧ (ok = true → ∀ name, name ∈ new → name ∈ dom (m2p (namespace_of w')))
    ∧ (∀ name, name ∈ dom (m2p (namespace_of w')) →
         name ∈ dom (m2p (namespace_of w)) ∨ name ∈ new);
}.

(** [extends], for a registration that starts in a world where the
    schemas of [D] have a message-to-container converter. *)
Definition grows (D : gset string) (ok : bool) (w w' : World pyclass lambda) : Prop :=
  D ⊆ dom (m2p (namespace_of w)) → extends D ok w w'.

Definition same_registering (ok : bool) (w w' : World pyclass lambda) : Prop :=
  registering_of w' = registering_of w.

Definition same_enums (ok : bool) (w w' : World pyclass lambda) : Prop :=
  i2s (namespace_of w') = i2s (namespace_of w)
  ∧ s2i (namespace_of w') = s2i (namespace_of w).

(** What [extends] looks at. *)
Definition message_view (w : World pyclass lambda) :=
  (m2p (namespace_of w), p2m (namespace_of w), c (namespace_of w), compiled w).

(** [respects R m]: whenever [m] ends, the worlds before and after are
    related by [R], which is told whether [m] returned. *)
Definition respects (R : bool → World pyclass lambda → World pyclass lambda → Prop)
    {A} (m : M pyclass lambda A) : Prop :=
  ∀ w w' r, m w = Some (w', r) → R (is_ok r) w w'.

(** The relations that can be followed step by step: a step that
    returned is followed by the rest of the computation. *)
Record stepwise (R : bool → World pyclass lambda → World pyclass lambda → Prop) : Prop := {
  stepwise_refl : ∀ ok w, R ok w w;
  stepwise_trans : ∀ ok w1 w2 w3, R true w1 w2 → R ok w2 w3 → R ok w1 w3;
}.

(** [m'] does what [m] does wherever [m] is defined. *)
Definition refines {A} (m m' : M pyclass lambda A) : Prop :=
  ∀ w x, m w = Some x → m' w = Some x.

(** [m] is defined in every world. *)
Definition total {A} (m : M pyclass lambda A) : Prop := ∀ w, is_Some (m w).

(** A check of [pool_closed] that computes. *)
Definition pool_closedb (pool : gmap ref (Descriptor pyclass)) : bool :=
  forallb (λ entry : ref * Descriptor pyclass,
             forallb (λ field,
                        match field_message_type field with
                        | Some mt => bool_decide (is_Some (pool !! mt))
                        | None => true
                        end)
                     (fields entry.2))
          (map_to_list pool).

End Invariants.

(** ** The parts of a registration, and what a registration leaves alone *)

Section Parts.

Context {pyclass ast lambda : Type}.

(** The full names of the unsupported types. *)
Definition google_complex_full_names : list string :=
  (λ name, "google.protobuf." +:+ name) <$> google_complex_types.

(** The parts of [_register_google_types]: the world after the two
    assignments for [NullValue], a round of the loop over the wrapper
    types and a round of the loop over the unsupported types. *)
Definition blank_with_null_value (dict_cls : pyclass) : World pyclass lambda :=
  update_namespace (assign_s2i "google.protobuf.NullValue" {[ PyNone := PyInt 0 ]})
    (update_namespace (assign_i2s "google.protobuf.NullValue" {[ PyInt 0 := PyNone ]})
       (blank dict_cls)).

Definition wrapper_round (astcast : Astcast pyclass ast lambda)
    (item : string * pyclass) : M pyclass lambda unit :=
  let '(full_name, wrapper) := item in
  bind (set_c full_name wrapper) (λ _,
  bind (set_m2p full_name (AttrGetter "value")) (λ _,
  bind get_namespace (λ ns,
  bind (lift (wrapper2message_ast astcast full_name "arg" "c")) (λ return_ast,
  bind (lift (create_lambda astcast return_ast "arg"
                ("<p2m/" +:+ full_name +:+ ">") ns)) (λ f,
  set_p2m full_name (Lambda f)))))).

Definition named_fail_round (name : string) : M pyclass lambda unit :=
  let full_name := "google.protobuf." +:+ name in
  let named_fail := PartialFail full_name in
  bind (set_m2p full_name named_fail) (λ _, set_p2m full_name named_fail).

(** The two halves of [register_field_type]: the registration of the
    message type of the field, and the generation of its two converters. *)
Definition nested_registration (pool : gmap ref (Descriptor pyclass))
    (register_message_type : ref → M pyclass lambda unit) (field : FieldDescriptor)
    : M pyclass lambda unit :=
  match field_message_type field with
  | Some mt =>
      match pool !! mt with
      | Some mt_descriptor =>
          bind get_registering (λ registering,
            if negb (map_entry mt_descriptor || bool_decide (mt ∈ registering))
            then register_message_type mt
            else ret ())
      | None => undefined
      end
  | None => ret ()
  end.

(** The body of the [try] statement of [register_message_type], over the
    function that [register_field_type] calls for a nested message type. *)
Definition registration_body (astcast : Astcast pyclass ast lambda)
    (pool : gmap ref (Descriptor pyclass))
    (register_message_type : ref → M pyclass lambda unit)
    (message_type : ref) (descriptor : Descriptor pyclass) : M pyclass lambda unit :=
  let full_name := full_name descriptor in
  bind (log_compiled full_name) (λ _,
  bind get_namespace (λ ns,
  bind (lift (message2dict_ast astcast message_type "msg" (i2s ns) "f2p")) (λ input_ast,
  bind (lift (wrap_call_ast astcast "d" input_ast)) (λ return_ast,
  bind (lift (create_lambda astcast return_ast "msg"
                ("<m2p/" +:+ full_name +:+ ">") ns)) (λ f,
  bind (set_m2p full_name (Lambda f)) (λ _,
  bind get_namespace (λ ns,
  bind (lift (dict2message_ast astcast message_type "data" "c" "p2f")) (λ return_ast,
  bind (lift (create_lambda astcast return_ast "data"
                ("<p2m/" +:+ full_name +:+ ">") ns)) (λ f,
  bind (set_p2m full_name (Lambda f)) (λ _,
  bind (for_each (fields descriptor)
          (register_field_type_with astcast pool register_message_type)) (λ _,
  bind (lift (_concrete_class descriptor)) (λ cls,
  set_c full_name cls)))))))))))).

(** The converter of a field for one direction: the function object that
    [create_lambda] makes of the tree of [field_cast_ast]. *)
Definition field_cast_lambda (astcast : Astcast pyclass ast lambda)
    (msg_regname enum_regname : string) (field : FieldDescriptor)
    (ns : Namespace pyclass lambda) : result lambda :=
  match field_cast_ast astcast msg_regname enum_regname field "value" with
  | Ok return_ast =>
      create_lambda astcast return_ast "value"
        ("<" +:+ msg_regname +:+ "/" +:+ field_full_name field +:+ ">") ns
  | Raise e => Raise e
  end.

(** What the second half does to a world: the converter to Python is
    generated and stored, then the converter to protobuf. *)
Definition field_converters (astcast : Astcast pyclass ast lambda)
    (field : FieldDescriptor) (w : World pyclass lambda)
    : option (World pyclass lambda * result unit) :=
  match field_cast_lambda astcast "m2p" "i2s" field (namespace_of w) with
  | Raise e => Some (w, Raise e)
  | Ok f =>
      let w1 := update_namespace (assign_f2p (field_full_name field) (Lambda f)) w in
      match field_cast_lambda astcast "p2m" "s2i" field (namespace_of w1) with
      | Raise e => Some (w1, Raise e)
      | Ok g =>
          Some (update_namespace (assign_p2f (field_full_name field) (Lambda g)) w1, Ok ())
      end
  end.

(** A relation between the worlds before and after a computation that
    does not look at the outcome. *)
Definition always (R : World pyclass lambda → World pyclass lambda → Prop)
    (ok : bool) (w w' : World pyclass lambda) : Prop := R w w'.

(** No registry loses a key, and the dict class stays. *)
Definition keeps_keys (w w' : World pyclass lambda) : Prop :=
  d (namespace_of w') = d (namespace_of w)
  ∧ dom (m2p (namespace_of w)) ⊆ dom (m2p (namespace_of w'))
  ∧ dom (p2m (namespace_of w)) ⊆ dom (p2m (namespace_of w'))
  ∧ dom (f2p (namespace_of w)) ⊆ dom (f2p (namespace_of w'))
  ∧ dom (p2f (namespace_of w)) ⊆ dom (p2f (namespace_of w'))
  ∧ dom (i2s (namespace_of w)) ⊆ dom (i2s (namespace_of w'))
  ∧ dom (s2i (namespace_of w)) ⊆ dom (s2i (namespace_of w'))
  ∧ dom (c (namespace_of w)) ⊆ dom (c (namespace_of w')).

(** The side of the enums: the dict class, the two enum registries and
    the warnings emitted. *)
Definition same_enum_side (w w' : World pyclass lambda) : Prop :=
  d (namespace_of w') = d (namespace_of w)
  ∧ i2s (namespace_of w') = i2s (namespace_of w)
  ∧ s2i (namespace_of w') = s2i (namespace_of w)
  ∧ warned w' = warned w.

(** The side of the messages: the dict class, the five registries of
    messages and fields, the messages in progress and the log. *)
Definition same_message_side (w w' : World pyclass lambda) : Prop :=
  d (namespace_of w') = d (namespace_of w)
  ∧ m2p (namespace_of w') = m2p (namespace_of w)
  ∧ p2m (namespace_of w') = p2m (namespace_of w)
  ∧ f2p (namespace_of w') = f2p (namespace_of w)
  ∧ p2f (namespace_of w') = p2f (namespace_of w)
  ∧ c (namespace_of w') = c (namespace_of w)
  ∧ registering_of w' = registering_of w
  ∧ compiled w' = compiled w.

(** Everything but the registries of the messages ([m2p], [p2m] and
    [c]): the dict class, the registries of the fields and of the enums,
    the messages in progress, the warnings and the log. *)
Definition same_but_messages (w w' : World pyclass lambda) : Prop :=
  d (namespace_of w') = d (namespace_of w)
  ∧ f2p (namespace_of w') = f2p (namespace_of w)
  ∧ p2f (namespace_of w') = p2f (namespace_of w)
  ∧ i2s (namespace_of w') = i2s (namespace_of w)
  ∧ s2i (namespace_of w') = s2i (namespace_of w)
  ∧ registering_of w' = registering_of w
  ∧ warned w' = warned w
  ∧ compiled w' = compiled w.

(** A call that stays within the pool of descriptors. *)
Definition call_in_pool (pool : gmap ref (Descriptor pyclass))
    (call : registration) : Prop :=
  match call with
  | RegisterEnum _ => True
  | RegisterMessage mt => is_Some (pool !! mt)
  | RegisterField field =>
      ∀ mt, field_message_type field = Some mt → is_Some (pool !! mt)
  end.

End Parts.

(** The world that a run leaves, and [d] for a run that the model does not
    define. *)
Definition world_of {W A : Type} (d : W) (run : option (W * A)) : W :=
  match run with
  | Some (w, _) => w
  | None => d
  end.

(** ** A concrete instance *)

Module Demo.

(** Classes, syntax trees and function objects are named by strings. *)
Definition astcast : Astcast string string string := {|
  GOOGLE_PROTOBUF_WRAPPERS :=
    [("google.protobuf.BoolValue", "BoolValue");
     ("google.protobuf.Int32Value", "Int32Value");
     ("google.protobuf.StringValue", "StringValue")];
  create_lambda := λ return_ast arg_name file_name namespace, Ok file_name;
  wrapper2message_ast := λ full_name value_name constructors_regname,
    Ok ("wrapper " +:+ full_name);
  wrap_call_ast := λ callable_name input_ast, Ok (callable_name +:+ " " +:+ input_ast);
  message2dict_ast := λ message_type value_name enum_registry field_regname,
    Ok "message2dict";
  dict2message_ast := λ message_type value_name constructors_regname field_regname,
    Ok "dict2message";
  field_cast_ast := λ msg_regname enum_regname field value_name,
    if decide (field_full_name field = "demo.Broken.payload")
    then Raise (Exn "TypeError" "unsupported field")
    else Ok ("field " +:+ field_full_name field);
|}.

(** [message Node { int32 value; Node next; }],
    [message Ping { Pong pong; }], [message Pong { Ping ping; }] and a
    message whose field [_astcast] rejects. *)
Definition Node : ref := 1%positive.
Definition Ping : ref := 2%positive.
Definition Pong : ref := 3%positive.
Definition Broken : ref := 4%positive.

Definition pool : gmap ref (Descriptor string) :=
  {[ Node := {| full_name := "demo.Node";
                fields := [ {| field_full_name := "demo.Node.value";
                               field_message_type := None |};
                            {| field_full_name := "demo.Node.next";
                               field_message_type := Some Node |} ];
                map_entry := false; _concrete_class := Ok "Node" |};
     Ping := {| full_name := "demo.Ping";
                fields := [ {| field_full_name := "demo.Ping.pong";
                               field_message_type := Some Pong |} ];
                map_entry := false; _concrete_class := Ok "Ping" |};
     Pong := {| full_name := "demo.Pong";
                fields := [ {| field_full_name := "demo.Pong.ping";
                               field_message_type := Some Ping |} ];
                map_entry := false; _concrete_class := Ok "Pong" |};
     Broken := {| full_name := "demo.Broken";
                  fields := [ {| field_full_name := "demo.Broken.payload";
                                 field_message_type := None |} ];
                  map_entry := false; _concrete_class := Ok "Broken" |} ]}.

(** The enum [google.protobuf.NullValue] of [struct.proto]. *)
Definition NullValue : EnumDescriptor :=
  {| enum_name := "NullValue"; enum_full_name := "google.protobuf.NullValue";
     enum_values := [EnumValue "NULL_VALUE" 0] |}.

(** [enum Color { COLOR_RED = 0; COLOR_BLUE = 1; }]. *)
Definition Color : EnumDescriptor :=
  {| enum_name := "Color"; enum_full_name := "demo.Color";
     enum_values := [EnumValue "COLOR_RED" 0; EnumValue "COLOR_BLUE" 1] |}.

(** [enum Color { RED = 0; BLUE = 1; }], without the conventional prefix. *)
Definition PlainColor : EnumDescriptor :=
  {| enum_name := "Color"; enum_full_name := "demo.Color";
     enum_values := [EnumValue "RED" 0; EnumValue "BLUE" 1] |}.

(** The world after [GrpcTypeCastRegistry()]. *)
Definition fresh : World string string :=
  world_of (blank "AttrDict") (__init__ astcast "AttrDict").

(** Calls that a user of the registry makes after constructing it, and
    the worlds they lead to. *)
Definition calls : list registration :=
  [RegisterEnum NullValue; RegisterMessage Ping; RegisterMessage Broken;
   RegisterField {| field_full_name := "demo.Node.next"; field_message_type := Some Node |};
   RegisterMessage Ping].

Definition after_calls : World string string :=
  default fresh (register_all astcast pool 5 calls fresh).

Definition with_null_value : World string string :=
  default fresh (register_all astcast pool 1 [RegisterEnum NullValue] fresh).

Definition with_ping : World string string :=
  world_of fresh (register_message_type astcast pool 5 Ping fresh).

Definition with_node : World string string :=
  world_of fresh (register_message_type astcast pool 5 Node fresh).

Definition with_broken : World string string :=
  world_of fresh (register_message_type astcast pool 5 Broken fresh).

Definition ping_descriptor : Descriptor string :=
  {| full_name := "demo.Ping";
     fields := [ {| field_full_name := "demo.Ping.pong";
                    field_message_type := Some Pong |} ];
     map_entry := false; _concrete_class := Ok "Ping" |}.

Definition broken_descriptor : Descriptor string :=
  {| full_name := "demo.Broken";
     fields := [ {| field_full_name := "demo.Broken.payload";
                    field_message_type := None |} ];
     map_entry := false; _concrete_class := Ok "Broken" |}.

(** [message Table { map<string, int32> entries = 1; }]: the message
    type of the field is the map entry that protobuf makes up for it. *)
Definition Table : ref := 5%positive.
Definition EntriesEntry : ref := 6%positive.

Definition entries_field : FieldDescriptor :=
  {| field_full_name := "demo.Table.entries"; field_message_type := Some EntriesEntry |}.

Definition table_pool : gmap ref (Descriptor string) :=
  {[ Table := {| full_name := "demo.Table"; fields := [entries_field];
                 map_entry := false; _concrete_class := Ok "Table" |};
     EntriesEntry :=
       {| full_name := "demo.Table.EntriesEntry";
          fields := [ {| field_full_name := "demo.Table.EntriesEntry.key";
                         field_message_type := None |};
                      {| field_full_name := "demo.Table.EntriesEntry.value";
                         field_message_type := None |} ];
          map_entry := true; _concrete_class := Ok "EntriesEntry" |} ]}.

(** The field [next] of [Node], and the world after its registration. *)
Definition next_field : FieldDescriptor :=
  {| field_full_name := "demo.Node.next"; field_message_type := Some Node |}.

Definition with_next_field : World string string :=
  world_of fresh (register_field_type astcast pool 5 next_field fresh).

Definition node_descriptor : Descriptor string :=
  {| full_name := "demo.Node";
     fields := [ {| field_full_name := "demo.Node.value"; field_message_type := None |};
                 {| field_full_name := "demo.Node.next";
                    field_message_type := Some Node |} ];
     map_entry := false; _concrete_class := Ok "Node" |}.

(** [enum LogLevel { LOG_LEVEL_INFO = 0; LOG_LEVEL_WARN = 1; }]. *)
Definition LogLevel : EnumDescriptor :=
  {| enum_name := "LogLevel"; enum_full_name := "demo.LogLevel";
     enum_values := [EnumValue "LOG_LEVEL_INFO" 0; EnumValue "LOG_LEVEL_WARN" 1] |}.

(** An enum without values. *)
Definition NoValues : EnumDescriptor :=
  {| enum_name := "NoValues"; enum_full_name := "demo.NoValues"; enum_values := [] |}.

End Demo.

(** * Properties *)

Ltac unbind := unfold mbind, M_bind in *.

(** ** Strings *)

Module StrFacts.

Lemma append_cons (x : ascii) (a b : string) : String x a +:+ b = String x (a +:+ b).
Proof. reflexivity. Qed.

Lemma append_assoc (a b c : string) : (a +:+ b) +:+ c = a +:+ (b +:+ c).
Proof.
  induction a as [|x a IH]; [reflexivity|]. rewrite !append_cons. by f_equal.
Qed.

Lemma append_empty_r (a : string) : a +:+ EmptyString = a.
Proof. induction a as [|x a IH]; [reflexivity|]. rewrite append_cons. by f_equal. Qed.

Lemma lower_append (a b : string) : Str.lower (a +:+ b) = Str.lower a +:+ Str.lower b.
Proof.
  induction a as [|x a IH]; [reflexivity|]. rewrite append_cons. cbn [Str.lower].
  rewrite append_cons. by f_equal.
Qed.

Lemma startswith_inv (s p : string) :
  Str.startswith s p = true → ∃ rest, s = p +:+ rest.
Proof.
  revert s. induction p as [|x p IH]; intros s H; simpl in *.
  - by exists s.
  - destruct s as [|y s]; [done|]. case_decide; [|done]. subst y.
    destruct (IH _ H) as [rest ->]. by exists rest.
Qed.

Lemma slice_from_len_append (p rest : string) :
  Str.slice_from (Str.len p) (p +:+ rest) = rest.
Proof.
  unfold Str.slice_from, Str.len. rewrite Nat2Z.id.
  induction p as [|x p IH]; [reflexivity|]. rewrite append_cons. exact IH.
Qed.

Lemma join_cons (sep p : string) (parts : list string) :
  Str.join sep (p :: parts) = p +:+ join_tail sep parts.
Proof. destruct parts; simpl; [by rewrite append_empty_r | done]. Qed.

(** The matches of [[A-Z][^A-Z]*]: each is a capital followed by
    characters that are not capitals, and put end to end they are the text
    from its first capital on. With the next match starting at a capital,
    this is what makes them the matches that [re.findall] returns. *)
Lemma non_AZ_prefix_has_no_AZ (s : string) : Str.has_AZ (Str.non_AZ_prefix s) = false.
Proof.
  induction s as [|c s IH]; [done|]. cbn [Str.non_AZ_prefix].
  destruct (Str.is_AZ c) eqn:Hc; [done|]. cbn [Str.has_AZ]. by rewrite Hc, IH.
Qed.

Lemma findall_AZ_runs_shape (s run : string) :
  run ∈ Str.findall_AZ_runs s →
  ∃ c rest, run = String c rest ∧ Str.is_AZ c = true ∧ Str.has_AZ rest = false.
Proof.
  induction s as [|c s IH]; cbn [Str.findall_AZ_runs].
  - by intros ?%elem_of_nil.
  - destruct (Str.is_AZ c) eqn:Hc; [|done].
    intros [->|Hrun]%elem_of_cons; [|by apply IH].
    exists c, (Str.non_AZ_prefix s). split_and!; [done..|].
    apply non_AZ_prefix_has_no_AZ.
Qed.

Lemma non_AZ_prefix_from_first_AZ (s : string) :
  Str.non_AZ_prefix s +:+ Str.from_first_AZ s = s.
Proof.
  induction s as [|c s IH]; [done|]. cbn [Str.non_AZ_prefix Str.from_first_AZ].
  destruct (Str.is_AZ c); [done|]. rewrite append_cons. by f_equal.
Qed.

Lemma findall_AZ_runs_concat (s : string) :
  Str.join EmptyString (Str.findall_AZ_runs s) = Str.from_first_AZ s.
Proof.
  induction s as [|c s IH]; [done|]. cbn [Str.findall_AZ_runs Str.from_first_AZ].
  destruct (Str.is_AZ c); [|done].
  rewrite join_cons. unfold join_tail.
  destruct (Str.findall_AZ_runs s) as [|run runs] eqn:Hruns.
  - rewrite append_empty_r. f_equal. rewrite <- (non_AZ_prefix_from_first_AZ s) at 2.
    rewrite <- IH. simpl. by rewrite append_empty_r.
  - rewrite IH. rewrite append_cons. f_equal. apply non_AZ_prefix_from_first_AZ.
Qed.

End StrFacts.

Example findall_AZ_runs_ex :
  Str.findall_AZ_runs "myHTTPServer2Go" = ["H"; "T"; "T"; "P"; "Server2"; "Go"].
Proof. reflexivity. Qed.

(** ** [pascal2snake] *)

Example pascal2snake_ex1 : pascal2snake "HTTPServerName" = "http_server_name".
Proof. reflexivity. Qed.

Example pascal2snake_ex2 : pascal2snake "NullValue" = "null_value".
Proof. reflexivity. Qed.

Lemma groupby_cons_head {A} (key : A → Z) (x : A) (rest : list A) :
  ∃ g gs, groupby key (x :: rest) = (key x, x :: g) :: gs.
Proof.
  simpl. destruct (groupby key rest) as [|[k g] gs]; [by eexists _, _|].
  case_decide; subst; by eexists _, _.
Qed.

(** Joining inside the groups and then joining the groups comes to
    joining the runs, two by two, by the rule of [join_runs]: two runs in
    one group have the same length, and two neighbouring runs in different
    groups do not. *)
Lemma join_groups_runs (runs : list string) :
  Str.join "_" (map snake_group (groupby Str.len runs)) = Str.lower (join_runs runs).
Proof.
  induction runs as [|x rest IH]; [done|].
  destruct rest as [|y rest'].
  { simpl. done. }
  destruct (groupby_cons_head Str.len y rest') as (g & gs & Hg).
  change (groupby Str.len (x :: y :: rest'))
    with (match groupby Str.len (y :: rest') with
          | (k, g) :: gs =>
              if decide (Str.len x = k) then (k, x :: g) :: gs
              else (Str.len x, [x]) :: (k, g) :: gs
          | [] => [(Str.len x, [x])]
          end).
  rewrite Hg in IH |- *.
  change (join_runs (x :: y :: rest'))
    with (x +:+ (if decide (Str.len x = 1 ∧ Str.len y = 1) then EmptyString else "_")
            +:+ join_runs (y :: rest')).
  rewrite !StrFacts.lower_append, <- IH.
  case_decide as Hk.
  - cbn [map]. rewrite !StrFacts.join_cons.
    unfold snake_group at 1 3. cbn [fst snd].
    rewrite !StrFacts.join_cons, !StrFacts.lower_append, !StrFacts.append_assoc.
    f_equal.
    replace (if decide (Str.len x = 1 ∧ Str.len y = 1) then EmptyString else "_")
      with (if decide (Str.len y = 1) then EmptyString else "_")
      by (repeat case_decide; try done; lia).
    unfold join_tail at 1.
    rewrite StrFacts.join_cons, !StrFacts.lower_append, !StrFacts.append_assoc. done.
  - cbn [map]. rewrite StrFacts.join_cons.
    unfold snake_group at 1. cbn [fst snd Str.join].
    unfold join_tail. f_equal.
    rewrite decide_False by lia. done.
Qed.

(** C2, as amended. [pascal2snake] splits its input into the runs matched
    by [[A-Z][^A-Z]*], joins two neighbouring runs with the empty string
    when both are a single character and with an underscore otherwise, and
    lower-cases the result; for ["IDCode"] the runs are ["I"], ["D"] and
    ["Code"], and the result is ["id_code"]. *)
Theorem pascal2snake_joins_runs :
  (∀ name, pascal2snake name = Str.lower (join_runs (Str.findall_AZ_runs name)))
  ∧ Str.findall_AZ_runs "IDCode" = ["I"; "D"; "Code"]
  ∧ pascal2snake "IDCode" = "id_code".
Proof.
  split; [|by split]. intros name.
  unfold pascal2snake. rewrite <- join_groups_runs. f_equal.
  apply map_ext. by intros [k g].
Qed.

(** C2, as stated, fails: it has the two separators the other way round,
    and expects ["i_d_code"] for ["IDCode"], which gives ["id_code"]. *)
Lemma pascal2snake_IDCode :
  pascal2snake "IDCode" = "id_code" ∧ pascal2snake "IDCode" ≠ "i_d_code".
Proof. split; [done|]. vm_compute. discriminate. Qed.

(** ** Lists *)

Lemma NoDup_reverse {A} (l : list A) : NoDup (reverse l) ↔ NoDup l.
Proof. by rewrite reverse_Permutation. Qed.

(** ** Dictionaries built from items *)

Section DictOfItems.

Context `{Countable K} {V : Type}.
Implicit Types (items : list (K * V)) (k : K) (v : V).

Lemma dict_of_items_snoc items k v :
  dict_of_items (items ++ [(k, v)]) = <[k := v]> (dict_of_items items).
Proof. unfold dict_of_items. by rewrite foldl_app. Qed.

Lemma dict_of_items_reverse items :
  dict_of_items items = list_to_map (reverse items).
Proof.
  induction items as [|[k v] items IH] using rev_ind; [done|].
  by rewrite dict_of_items_snoc, reverse_snoc, IH.
Qed.

(** A key of the dict comes from an item. *)
Lemma dict_of_items_lookup_Some items k v :
  dict_of_items items !! k = Some v → (k, v) ∈ items.
Proof.
  rewrite dict_of_items_reverse. intros Hk%elem_of_list_to_map_2.
  by apply elem_of_reverse.
Qed.

(** With distinct keys, the dict has exactly the items. *)
Lemma dict_of_items_lookup items k v :
  NoDup items.*1 → dict_of_items items !! k = Some v ↔ (k, v) ∈ items.
Proof.
  intros Hnd. rewrite dict_of_items_reverse, <- elem_of_list_to_map.
  - apply elem_of_reverse.
  - by rewrite fmap_reverse, NoDup_reverse.
Qed.

End DictOfItems.

(** ** Enum descriptors *)

Lemma values_by_name_lookup (e : EnumDescriptor) (name : string) (v : EnumValueDescriptor) :
  values_by_name e !! name = Some v → v ∈ enum_values e ∧ ev_name v = name.
Proof.
  intros Hl%dict_of_items_lookup_Some.
  apply list_elem_of_fmap in Hl as (v' & [= -> ->] & Hv). by split.
Qed.

Lemma values_by_number_lookup (e : EnumDescriptor) (n : Z) (v : EnumValueDescriptor) :
  values_by_number e !! n = Some v → v ∈ enum_values e ∧ ev_number v = n.
Proof.
  intros Hl%dict_of_items_lookup_Some.
  apply list_elem_of_fmap in Hl as (v' & [= -> ->] & Hv). rewrite elem_of_reverse in Hv. by split.
Qed.

(** In an enum without aliases every value is found under its name and
    under its number. *)
Lemma values_by_name_alias_free (e : EnumDescriptor) (v : EnumValueDescriptor) :
  alias_free e → v ∈ enum_values e → values_by_name e !! ev_name v = Some v.
Proof.
  intros [_ Hnd] Hv. apply dict_of_items_lookup.
  - by rewrite <- list_fmap_compose.
  - apply list_elem_of_fmap. by exists v.
Qed.

Lemma values_by_number_alias_free (e : EnumDescriptor) (v : EnumValueDescriptor) :
  alias_free e → v ∈ enum_values e → values_by_number e !! ev_number v = Some v.
Proof.
  intros [Hnd _] Hv. apply dict_of_items_lookup.
  - rewrite <- list_fmap_compose, fmap_reverse, NoDup_reverse. done.
  - apply list_elem_of_fmap. exists v. by rewrite elem_of_reverse.
Qed.

Lemma all_false_iff {A} (pred : A → bool) (xs : list A) :
  all pred xs = false ↔ ∃ x, x ∈ xs ∧ pred x = false.
Proof.
  unfold all. induction xs as [|x xs IH]; simpl.
  - split; [done | intros (x & Hx & _); by apply not_elem_of_nil in Hx].
  - rewrite andb_false_iff, IH. split.
    + intros [Hx | (y & Hy & Hp)]; [exists x | exists y]; split; try done; by constructor.
    + intros (y & Hy & Hp). apply elem_of_cons in Hy as [-> | Hy]; eauto.
Qed.

Lemma all_true_iff {A} (pred : A → bool) (xs : list A) :
  all pred xs = true ↔ ∀ x, x ∈ xs → pred x = true.
Proof.
  unfold all. rewrite forallb_forall. by setoid_rewrite list_elem_of_In.
Qed.

(** ** The dictionaries of [create_enum_dict] *)

(** The dict comprehension of the [int2str] mode. *)
Lemma int2str_dict_lookup (m : gmap Z EnumValueDescriptor) (threshold : Z) (k x : pyval) :
  dict_of_items
    (map (λ '(number, value),
            (PyInt number, PyStr (Str.slice_from threshold (ev_name value))))
         (map_to_list m)) !! k = Some x
  ↔ ∃ n v, k = PyInt n ∧ x = PyStr (Str.slice_from threshold (ev_name v)) ∧ m !! n = Some v.
Proof.
  rewrite dict_of_items_lookup.
  - rewrite list_elem_of_fmap. split.
    + intros ([n v] & [= -> ->] & Hnv%elem_of_map_to_list). eauto.
    + intros (n & v & -> & -> & Hnv). exists (n, v). by rewrite elem_of_map_to_list.
  - rewrite <- list_fmap_compose.
    rewrite (list_fmap_ext _ (PyInt ∘ fst) (map_to_list m)) by (by intros ? []).
    rewrite list_fmap_compose. apply (NoDup_fmap_2 _), NoDup_fst_map_to_list.
Qed.

(** The dict comprehension of the [str2int] mode, when cutting
    [threshold] characters keeps the names apart. *)
Lemma str2int_dict_lookup (m : gmap string EnumValueDescriptor) (threshold : Z) (k x : pyval) :
  (∀ name name' v v', m !! name = Some v → m !! name' = Some v' →
     Str.slice_from threshold name = Str.slice_from threshold name' → name = name') →
  dict_of_items
    (map (λ '(name, value),
            (PyStr (Str.slice_from threshold name), PyInt (ev_number value)))
         (map_to_list m)) !! k = Some x
  ↔ ∃ name v, k = PyStr (Str.slice_from threshold name) ∧ x = PyInt (ev_number v)
               ∧ m !! name = Some v.
Proof.
  intros Hinj. rewrite dict_of_items_lookup.
  - rewrite list_elem_of_fmap. split.
    + intros ([n v] & [= -> ->] & Hnv%elem_of_map_to_list). eauto.
    + intros (n & v & -> & -> & Hnv). exists (n, v). by rewrite elem_of_map_to_list.
  - rewrite <- list_fmap_compose.
    apply NoDup_fmap_2_strong; [|apply NoDup_map_to_list].
    intros [n v] [n' v'] Hv%elem_of_map_to_list Hv'%elem_of_map_to_list [= Heq].
    assert (n = n') as -> by eauto. congruence.
Qed.

(** C5. With an explicit prefix that at least one value name does not
    start with, [create_enum_dict] raises a [ValueError] that says that
    the prefix is not common for all values, whatever the mode. *)
Theorem create_enum_dict_explicit_prefix_mismatch
    (e : EnumDescriptor) (mode prefix : string) :
  (∃ v, v ∈ enum_values e ∧ Str.startswith (ev_name v) prefix = false) →
  create_enum_dict e mode (Some prefix)
  = ([], Raise (ValueError
                  ("The " +:+ Repr.repr prefix +:+ " prefix is not common for all values"))).
Proof.
  intros Hv. unfold create_enum_dict.
  by rewrite (proj2 (all_false_iff _ _) Hv).
Qed.

(** C6. Without an explicit prefix, when at least one value name does
    not start with the derived prefix, [create_enum_dict] warns and
    returns, in both modes, and the names are the full ones: [int2str]
    sends each number of [values_by_number] to the name of its value,
    [str2int] each name of [values_by_name] to the number of its value. In
    an enum without aliases that is, for every value, its number to its
    name and its name to its number. *)
Theorem create_enum_dict_derived_prefix_mismatch (e : EnumDescriptor) :
  (∃ v, v ∈ enum_values e ∧ Str.startswith (ev_name v) (derived_prefix e) = false) →
  ∃ int2str str2int : gmap pyval pyval,
    create_enum_dict e "int2str" None = ([missing_prefix_warning e], Ok int2str)
    ∧ create_enum_dict e "str2int" None = ([missing_prefix_warning e], Ok str2int)
    ∧ int2str = kmap PyInt ((λ v, PyStr (ev_name v)) <$> values_by_number e)
    ∧ str2int = kmap PyStr ((λ v, PyInt (ev_number v)) <$> values_by_name e)
    ∧ (alias_free e → ∀ v, v ∈ enum_values e →
         int2str !! PyInt (ev_number v) = Some (PyStr (ev_name v))
         ∧ str2int !! PyStr (ev_name v) = Some (PyInt (ev_number v))).
Proof.
  intros Hv. apply all_false_iff in Hv. unfold derived_prefix in Hv.
  eexists _, _. split_and!.
  - unfold create_enum_dict. rewrite Hv. rewrite decide_True by done. reflexivity.
  - unfold create_enum_dict. rewrite Hv.
    rewrite decide_False by done. rewrite decide_True by done. reflexivity.
  - apply map_eq. intros k. apply option_eq. intros x.
    rewrite int2str_dict_lookup, lookup_kmap_Some by apply _. split.
    + intros (n & v & -> & -> & Hn). exists n. split; [done|].
      rewrite lookup_fmap, Hn. done.
    + intros (n & -> & (v & <- & Hn)%lookup_fmap_Some). by exists n, v.
  - apply map_eq. intros k. apply option_eq. intros x.
    rewrite str2int_dict_lookup, lookup_kmap_Some by (apply _ || done). split.
    + intros (name & v & -> & -> & Hn). exists name. split; [done|].
      rewrite lookup_fmap, Hn. done.
    + intros (name & -> & (v & <- & Hn)%lookup_fmap_Some). by exists name, v.
  - intros Hfree v Hin. split.
    + apply int2str_dict_lookup. exists (ev_number v), v.
      split_and!; [done..|]. by apply values_by_number_alias_free.
    + apply str2int_dict_lookup; [done|]. exists (ev_name v), v.
      split_and!; [done..|]. by apply values_by_name_alias_free.
Qed.

(** ** Running computations *)

Section Run.

Context {pyclass lambda : Type}.

Lemma bind_lift_Ok {A B} (a : A) (f : A → M pyclass lambda B) w :
  bind (lift (Ok a)) f w = f a w.
Proof. reflexivity. Qed.

Lemma bind_lift_Raise {A B} (e : exn) (f : A → M pyclass lambda B) w :
  bind (lift (Raise e)) f w = Some (w, Raise e).
Proof. reflexivity. Qed.

Lemma bind_get_namespace {B} (f : Namespace pyclass lambda → M pyclass lambda B) w :
  bind get_namespace f w = f (namespace_of w) w.
Proof. reflexivity. Qed.

Lemma bind_get_registering {B} (f : gset ref → M pyclass lambda B) w :
  bind get_registering f w = f (registering_of w) w.
Proof. reflexivity. Qed.

Lemma bind_with_namespace {B} g (f : unit → M pyclass lambda B) w :
  bind (with_namespace g) f w = f () (update_namespace g w).
Proof. reflexivity. Qed.

Lemma bind_with_registering {B} g (f : unit → M pyclass lambda B) w :
  bind (with_registering g) f w = f () (update_registering g w).
Proof. reflexivity. Qed.

Lemma bind_log_compiled {B} name (f : unit → M pyclass lambda B) w :
  bind (log_compiled name) f w = f () (add_compiled name w).
Proof. reflexivity. Qed.

Lemma bind_emit {B} ws (f : unit → M pyclass lambda B) w :
  bind (emit ws) f w = f () (add_warnings ws w).
Proof. reflexivity. Qed.

Lemma bind_assoc {A B C} (m : M pyclass lambda A) (f : A → M pyclass lambda B)
    (g : B → M pyclass lambda C) w :
  bind (bind m f) g w = bind m (λ a, bind (f a) g) w.
Proof. unfold bind. by destruct (m w) as [[w1 [a|e]]|]. Qed.


(** The two ways in which [m ≫= f] ends. *)
Lemma bind_Some {A B} (m : M pyclass lambda A) (f : A → M pyclass lambda B) w w' r :
  bind m f w = Some (w', r) →
  (∃ e, m w = Some (w', Raise e) ∧ r = Raise e)
  ∨ (∃ a w1, m w = Some (w1, Ok a) ∧ f a w1 = Some (w', r)).
Proof.
  unfold bind. destruct (m w) as [[w1 [a|e]]|]; [| |done].
  - right. by exists a, w1.
  - intros [= <- <-]. left. by exists e.
Qed.

Lemma for_each_cons {A} (x : A) (xs : list A) (body : A → M pyclass lambda unit) :
  for_each (x :: xs) body = bind (body x) (λ _, for_each xs body).
Proof. reflexivity. Qed.

(** Relations kept by every step. *)


Section Respects.

Context (R : bool → World pyclass lambda → World pyclass lambda → Prop) (HR : stepwise R).

Lemma respects_ret {A} (a : A) : respects R (ret a).
Proof. intros w w' r [= <- <-]. apply (stepwise_refl _ HR). Qed.

Lemma respects_lift {A} (x : result A) : respects R (lift x).
Proof. intros w w' r [= <- <-]. apply (stepwise_refl _ HR). Qed.

Lemma respects_undefined {A} : respects R (undefined (A := A)).
Proof. by intros w w' r. Qed.

Lemma respects_get_namespace : respects R get_namespace.
Proof. intros w w' r [= <- <-]. apply (stepwise_refl _ HR). Qed.

Lemma respects_get_registering : respects R get_registering.
Proof. intros w w' r [= <- <-]. apply (stepwise_refl _ HR). Qed.

Lemma respects_bind {A B} (m : M pyclass lambda A) (f : A → M pyclass lambda B) :
  respects R m → (∀ a, respects R (f a)) → respects R (bind m f).
Proof.
  intros Hm Hf w w' r [(e & Hw & ->) | (a & w1 & Hw & Hk)]%bind_Some.
  - apply (Hm _ _ _ Hw).
  - eapply (stepwise_trans _ HR); [apply (Hm _ _ _ Hw) | apply (Hf _ _ _ _ Hk)].
Qed.

Lemma respects_for_each {A} (xs : list A) (body : A → M pyclass lambda unit) :
  (∀ x, x ∈ xs → respects R (body x)) → respects R (for_each xs body).
Proof.
  induction xs as [|x xs IH]; intros Hbody.
  - apply respects_ret.
  - rewrite for_each_cons. apply respects_bind.
    + apply Hbody. by left.
    + intros _. apply IH. intros y Hy. apply Hbody. by right.
Qed.

Lemma respects_with_namespace g :
  (∀ w, R true w (update_namespace g w)) → respects R (with_namespace g).
Proof. intros Hg w w' r [= <- <-]. apply Hg. Qed.

Lemma respects_with_registering g :
  (∀ w, R true w (update_registering g w)) → respects R (with_registering g).
Proof. intros Hg w w' r [= <- <-]. apply Hg. Qed.

Lemma respects_emit ws :
  (∀ w, R true w (add_warnings ws w)) → respects R (emit ws).
Proof. intros Hg w w' r [= <- <-]. apply Hg. Qed.

End Respects.

End Run.

(** ** Message slots and the log of compiled messages *)

Section Extends.

Context {pyclass lambda : Type}.
Implicit Types (w : World pyclass lambda) (D : gset string) (ok : bool).

Lemma extends_refl D ok w : extends D ok w w.
Proof.
  split; [done | by intros name _ |].
  exists []. rewrite app_nil_r. split_and!; [done | constructor | | | by left];
    intros; by rewrite ?elem_of_nil in *.
Qed.

Lemma extends_trans D ok w1 w2 w3 :
  D ⊆ dom (m2p (namespace_of w1)) →
  extends D true w1 w2 → extends D ok w2 w3 → extends D ok w1 w3.
Proof.
  intros HD [Hdom1 Hslots1 (new1 & Hlog1 & Hnd1 & Hout1 & Hin1 & Honly1)]
            [Hdom2 Hslots2 (new2 & Hlog2 & Hnd2 & Hout2 & Hin2 & Honly2)].
  split.
  - by etrans.
  - intros name Hname.
    destruct (Hslots1 _ Hname) as (E1 & E2 & E3), (Hslots2 _ Hname) as (F1 & F2 & F3).
    split_and!; congruence.
  - exists (new1 ++ new2). split_and!.
    + by rewrite Hlog2, Hlog1, app_assoc.
    + apply NoDup_app. split_and!; [done | | done].
      intros name Hn1 Hn2. apply (Hout2 _ Hn2). by apply Hin1.
    + intros name [Hn|Hn]%elem_of_app; [by apply Hout1|].
      intros Hd. apply (Hout2 _ Hn). by apply Hdom1.
    + intros Hok name [Hn|Hn]%elem_of_app; [|by apply Hin2].
      apply Hdom2. by apply Hin1.
    + intros name Hn. setoid_rewrite elem_of_app.
      destruct (Honly2 _ Hn) as [Hn2|Hn2]; [|by right; right].
      destruct (Honly1 _ Hn2) as [Hn1|Hn1]; [by left | by right; left].
Qed.

Lemma extends_view D ok w1 w2 w1' w2' :
  message_view w1 = message_view w1' → message_view w2 = message_view w2' →
  extends D ok w1 w2 → extends D ok w1' w2'.
Proof.
  unfold message_view. intros [= E1 E2 E3 E4] [= F1 F2 F3 F4] [Hdom Hslots Hlog].
  split.
  - by rewrite <- E1, <- F1.
  - intros name Hname. rewrite <- E1, <- E2, <- E3, <- F1, <- F2, <- F3.
    by apply Hslots.
  - rewrite <- E1, <- E4, <- F1, <- F4. done.
Qed.

Lemma grows_stepwise D : stepwise (grows (pyclass := pyclass) (lambda := lambda) D).
Proof.
  split.
  - intros ok w _. apply extends_refl.
  - intros ok w1 w2 w3 H1 H2 HD. specialize (H1 HD).
    eapply extends_trans; [done | done |]. apply H2.
    etrans; [exact HD | apply H1].
Qed.

Lemma grows_view D ok w w' : message_view w' = message_view w → grows D ok w w'.
Proof.
  intros Hv _. apply (extends_view D ok w w w w'); [done | done | apply extends_refl].
Qed.

(** Assignments outside [D]. *)
Lemma grows_assign_p2m D ok w name f :
  name ∉ D → grows D ok w (update_namespace (assign_p2m name f) w).
Proof.
  intros Hname HD. split.
  - done.
  - intros n Hn. simpl. rewrite lookup_insert_ne by set_solver. done.
  - exists []. rewrite app_nil_r. split_and!; [done | constructor | | | by left];
      intros; by rewrite ?elem_of_nil in *.
Qed.

Lemma grows_assign_c D ok w name cls :
  name ∉ D → grows D ok w (update_namespace (assign_c name cls) w).
Proof.
  intros Hname HD. split.
  - done.
  - intros n Hn. simpl. rewrite lookup_insert_ne by set_solver. done.
  - exists []. rewrite app_nil_r. split_and!; [done | constructor | | | by left];
      intros; by rewrite ?elem_of_nil in *.
Qed.

(** The start of a compilation: the message is logged, and its
    message-to-container converter is stored unless generating it fails. *)
Lemma grows_compile_failed D w name :
  name ∉ dom (m2p (namespace_of w)) → grows D false w (add_compiled name w).
Proof.
  intros Hname HD. split; [done | by intros n _ |].
  exists [name]. split_and!; [done | apply NoDup_singleton | | done | by left].
  by intros n ->%list_elem_of_singleton.
Qed.

Lemma grows_compile D ok w name f :
  name ∉ dom (m2p (namespace_of w)) →
  grows D ok w (update_namespace (assign_m2p name f) (add_compiled name w)).
Proof.
  intros Hname HD. split.
  - simpl. rewrite dom_insert_L. set_solver.
  - intros n Hn. simpl. rewrite lookup_insert_ne by set_solver. done.
  - exists [name]. split_and!; [done | apply NoDup_singleton | | |].
    + by intros n ->%list_elem_of_singleton.
    + intros _ n ->%list_elem_of_singleton. simpl. rewrite dom_insert_L. set_solver.
    + intros n. simpl. rewrite dom_insert_L, elem_of_union, elem_of_singleton.
      intros [->|Hn]; [right; by apply list_elem_of_singleton | by left].
Qed.

End Extends.

Section Grows.

Context {pyclass ast lambda : Type}.
Context (astcast : Astcast pyclass ast lambda) (pool : gmap ref (Descriptor pyclass)).
Implicit Types (w : World pyclass lambda) (D : gset string) (ok : bool).

Lemma set_field_registry_grows D registry name (f : converter lambda) :
  respects (grows D) (set_field_registry (pyclass := pyclass) registry name f).
Proof.
  destruct registry; apply respects_with_namespace; intros w; by apply grows_view.
Qed.

Lemma register_field_type_with_grows D (rec : ref → M pyclass lambda unit) field :
  (∀ mt, respects (grows D) (rec mt)) →
  respects (grows D) (register_field_type_with astcast pool rec field).
Proof.
  intros Hrec. pose proof (grows_stepwise (pyclass := pyclass) (lambda := lambda) D) as HR.
  unfold register_field_type_with. unbind. apply respects_bind; [done | |].
  - destruct (field_message_type field) as [mt|]; [|by apply respects_ret].
    destruct (pool !! mt) as [desc|]; [|by apply respects_undefined].
    apply respects_bind; [done | by apply respects_get_registering |].
    intros registering. destruct (negb _); [apply Hrec | by apply respects_ret].
  - intros _. apply respects_for_each; [done|]. intros [[registry msg] enum] _.
    apply respects_bind; [done | by apply respects_get_namespace |]. intros ns.
    apply respects_bind; [done | by apply respects_lift |]. intros return_ast.
    apply respects_bind; [done | by apply respects_lift |]. intros f.
    apply set_field_registry_grows.
Qed.

Lemma register_message_type_grows D fuel mt :
  respects (grows D) (register_message_type astcast pool fuel mt).
Proof.
  pose proof (grows_stepwise (pyclass := pyclass) (lambda := lambda) D) as HR.
  revert mt. induction fuel as [|fuel IH]; intros mt; [by apply respects_undefined|].
  cbn [register_message_type]. destruct (pool !! mt) as [desc|];
    [|by apply respects_undefined].
  unbind. intros w w' r. rewrite bind_get_namespace.
  case_decide as Hreg; [by apply respects_ret|].
  unfold registering_add. rewrite bind_with_registering.
  set (w1 := update_registering _ w).
  unfold try_finally.
  destruct (bind (log_compiled _) _ w1) as [[w2 r2]|] eqn:Hbody; [|done].
  intros Hrun HD.
  (* the cleanup leaves the message slots and the log alone *)
  assert (Hclean : message_view w' = message_view w2 ∧ (is_ok r = true → is_ok r2 = true)).
  { unfold registering_remove in Hrun. unbind. rewrite bind_get_registering in Hrun.
    case_decide; simpl in Hrun; simplify_eq; done. }
  destruct Hclean as [Hview Hok].
  assert (Hw2 : extends D (is_ok r2) w1 w2); last first.
  { apply (extends_view D (is_ok r) w1 w2 w w'); [done | done |].
    destruct Hw2 as [? ? (new & ? & ? & ? & Hin & ?)]. split; [done..|].
    exists new. split_and!; [done | done | done | | done].
    intros Hr. apply Hin. by apply Hok. }
  assert (HD1 : D ⊆ dom (m2p (namespace_of w1))) by done.
  assert (Hreg1 : full_name desc ∉ dom (m2p (namespace_of w1))) by done.
  clearbody w1. clear Hrun Hview Hok w' r.
  rewrite bind_log_compiled, bind_get_namespace in Hbody.
  destruct (message2dict_ast _ _ _ _ _) as [input_ast|e].
  2:{ rewrite bind_lift_Raise in Hbody. simplify_eq. by apply grows_compile_failed. }
  rewrite bind_lift_Ok in Hbody.
  destruct (wrap_call_ast _ _ _) as [return_ast|e].
  2:{ rewrite bind_lift_Raise in Hbody. simplify_eq. by apply grows_compile_failed. }
  rewrite bind_lift_Ok in Hbody.
  destruct (create_lambda _ _ _ _ _) as [f|e].
  2:{ rewrite bind_lift_Raise in Hbody. simplify_eq. by apply grows_compile_failed. }
  rewrite bind_lift_Ok in Hbody. unfold set_m2p at 1 in Hbody.
  rewrite bind_with_namespace in Hbody.
  set (w3 := update_namespace _ _) in Hbody.
  assert (H13 : grows D true w1 w3) by by apply grows_compile.
  apply (stepwise_trans _ HR _ w1 w3 w2); [done | | done].
  assert (Hfresh : full_name desc ∉ D) by (intros ?; apply Hreg1; by apply HD1).
  revert Hbody. generalize w3 w2 r2. clear H13 w3 w2 r2.
  apply (respects_bind (grows D) HR); [by apply respects_get_namespace |]. intros ns.
  apply respects_bind; [done | by apply respects_lift |]. intros return_ast'.
  apply respects_bind; [done | by apply respects_lift |]. intros f'.
  apply respects_bind; [done | |].
  { apply respects_with_namespace. intros w0. by apply grows_assign_p2m. }
  intros _. apply respects_bind; [done | |].
  { apply respects_for_each; [done|]. intros field _.
    by apply register_field_type_with_grows. }
  intros _. apply respects_bind; [done | by apply respects_lift |]. intros cls.
  apply respects_with_namespace. intros w0. by apply grows_assign_c.
Qed.

End Grows.

(** ** The set of messages being registered *)

Section Registering.

Context {pyclass ast lambda : Type}.
Context (astcast : Astcast pyclass ast lambda) (pool : gmap ref (Descriptor pyclass)).
Implicit Types (w : World pyclass lambda) (D : gset string) (ok : bool).

Lemma same_registering_stepwise :
  stepwise (same_registering (pyclass := pyclass) (lambda := lambda)).
Proof. split; unfold same_registering; [done | congruence]. Qed.

Lemma register_field_type_with_registering (rec : ref → M pyclass lambda unit) field :
  (∀ mt w w' r, mt ∉ registering_of w → rec mt w = Some (w', r) →
     registering_of w' = registering_of w) →
  respects same_registering (register_field_type_with astcast pool rec field).
Proof.
  intros Hrec. pose proof same_registering_stepwise as HR.
  unfold register_field_type_with. unbind. apply respects_bind; [done | |].
  - destruct (field_message_type field) as [mt|]; [|by apply respects_ret].
    destruct (pool !! mt) as [desc|]; [|by apply respects_undefined].
    intros w w' r. rewrite bind_get_registering.
    destruct (map_entry desc); [by apply respects_ret|].
    case_bool_decide; [by apply respects_ret|]. by apply Hrec.
  - intros _. apply respects_for_each; [done|]. intros [[registry msg] enum] _.
    apply respects_bind; [done | by apply respects_get_namespace |]. intros ns.
    apply respects_bind; [done | by apply respects_lift |]. intros return_ast.
    apply respects_bind; [done | by apply respects_lift |]. intros f.
    destruct registry; by apply respects_with_namespace.
Qed.

(** The body of [register_message_type] between [add] and [remove]
    leaves the set as it was; so [remove] finds the message and the set
    is the one before the call. *)
Lemma register_message_type_registering fuel mt w w' r :
  mt ∉ registering_of w →
  register_message_type astcast pool fuel mt w = Some (w', r) →
  registering_of w' = registering_of w.
Proof.
  pose proof same_registering_stepwise as HR.
  revert mt w w' r. induction fuel as [|fuel IH]; intros mt w w' r Hmt; [done|].
  cbn [register_message_type]. destruct (pool !! mt) as [desc|]; [|done].
  unbind. rewrite bind_get_namespace.
  case_decide as Hreg; [by intros [= <- <-]|].
  unfold registering_add. rewrite bind_with_registering.
  set (w1 := update_registering _ w).
  unfold try_finally.
  destruct (bind (log_compiled _) _ w1) as [[w2 r2]|] eqn:Hbody; [|done].
  assert (H12 : registering_of w2 = {[mt]} ∪ registering_of w).
  { change ({[mt]} ∪ registering_of w) with (registering_of w1).
    revert Hbody. generalize w1 w2 r2.
    apply (respects_bind _ HR); [by intros ??? [= <- <-] |]. intros _.
    apply (respects_bind _ HR); [by apply respects_get_namespace |]. intros ns.
    apply (respects_bind _ HR); [by apply respects_lift |]. intros input_ast.
    apply (respects_bind _ HR); [by apply respects_lift |]. intros return_ast.
    apply (respects_bind _ HR); [by apply respects_lift |]. intros f.
    apply (respects_bind _ HR); [by apply respects_with_namespace |]. intros _.
    apply (respects_bind _ HR); [by apply respects_get_namespace |]. intros ns'.
    apply (respects_bind _ HR); [by apply respects_lift |]. intros return_ast'.
    apply (respects_bind _ HR); [by apply respects_lift |]. intros f'.
    apply (respects_bind _ HR); [by apply respects_with_namespace |]. intros _.
    apply (respects_bind _ HR).
    { apply respects_for_each; [done|]. intros field _.
      by apply register_field_type_with_registering. }
    intros _. apply (respects_bind _ HR); [by apply respects_lift |]. intros cls.
    by apply respects_with_namespace. }
  unfold registering_remove. unbind. rewrite bind_get_registering.
  destruct (decide (mt ∈ registering_of w2)) as [_|Hn].
  - intros [= <- <-]. change (registering_of w2 ∖ {[mt]} = registering_of w).
    rewrite H12. apply set_eq. intros x.
    rewrite elem_of_difference, elem_of_union, elem_of_singleton. split.
    + by intros [[->|Hx] Hne].
    + intros Hx. split; [by right|]. by intros ->.
  - exfalso. apply Hn. rewrite H12. apply elem_of_union_l. by apply elem_of_singleton.
Qed.

(** More fuel changes nothing. *)

Lemma refines_bind {A B} (m m' : M pyclass lambda A) (f f' : A → M pyclass lambda B) :
  refines m m' → (∀ a, refines (f a) (f' a)) → refines (bind m f) (bind m' f').
Proof.
  intros Hm Hf w x. unfold bind.
  destruct (m w) as [[w1 [a|e]]|] eqn:Hw; [| |done]; rewrite (Hm _ _ Hw); [apply Hf | done].
Qed.

Lemma refines_refl {A} (m : M pyclass lambda A) : refines m m.
Proof. by intros w x. Qed.

Lemma refines_for_each {A} (xs : list A) (body body' : A → M pyclass lambda unit) :
  (∀ x, refines (body x) (body' x)) → refines (for_each xs body) (for_each xs body').
Proof.
  intros Hbody. induction xs as [|x xs IH]; [apply refines_refl|].
  rewrite !for_each_cons. apply refines_bind; [apply Hbody | by intros _].
Qed.

Lemma refines_try_finally {A} (body body' : M pyclass lambda A) (cleanup : M pyclass lambda unit) :
  refines body body' → refines (try_finally body cleanup) (try_finally body' cleanup).
Proof.
  intros Hbody w x. unfold try_finally.
  destruct (body w) as [[w1 r]|] eqn:Hw; [|done]. by rewrite (Hbody _ _ Hw).
Qed.

Lemma refines_register_field_type_with (rec rec' : ref → M pyclass lambda unit) field :
  (∀ mt, refines (rec mt) (rec' mt)) →
  refines (register_field_type_with astcast pool rec field)
          (register_field_type_with astcast pool rec' field).
Proof.
  intros Hrec. unfold register_field_type_with. unbind.
  apply refines_bind; [|intros; apply refines_refl].
  destruct (field_message_type field) as [mt|]; [|apply refines_refl].
  destruct (pool !! mt) as [desc|]; [|apply refines_refl].
  apply refines_bind; [apply refines_refl|]. intros registering.
  destruct (negb _); [apply Hrec | apply refines_refl].
Qed.

Lemma register_message_type_fuel_S fuel mt :
  refines (register_message_type astcast pool fuel mt)
          (register_message_type astcast pool (S fuel) mt).
Proof.
  revert mt. induction fuel as [|fuel IH]; intros mt; [by intros w x|].
  remember (S fuel) as fuel1 eqn:Hfuel1.
  cbn [register_message_type]. rewrite Hfuel1 at 1. cbn [register_message_type].
  destruct (pool !! mt) as [desc|]; [|apply refines_refl].
  unbind. apply refines_bind; [apply refines_refl|]. intros ns.
  case_decide; [apply refines_refl|].
  apply refines_bind; [apply refines_refl|]. intros _.
  apply refines_try_finally.
  do 10 (apply refines_bind; [apply refines_refl|]; intros ?).
  apply refines_bind; [|intros; apply refines_refl].
  apply refines_for_each. intros field.
  apply refines_register_field_type_with. intros mt'. subst fuel1. apply IH.
Qed.

Lemma register_message_type_fuel_le fuel fuel' mt :
  (fuel ≤ fuel')%nat →
  refines (register_message_type astcast pool fuel mt)
          (register_message_type astcast pool fuel' mt).
Proof.
  induction 1 as [|fuel' _ IH]; [apply refines_refl|].
  intros w x Hx. by apply register_message_type_fuel_S, IH.
Qed.

End Registering.

(** ** Termination *)

Section Termination.

Context {pyclass ast lambda : Type}.
Context (astcast : Astcast pyclass ast lambda) (pool : gmap ref (Descriptor pyclass)).
Implicit Types (w : World pyclass lambda) (D : gset string) (ok : bool).

Lemma bind_defined {A B} (m : M pyclass lambda A) (f : A → M pyclass lambda B) w :
  is_Some (m w) → (∀ a w1, m w = Some (w1, Ok a) → is_Some (f a w1)) →
  is_Some (bind m f w).
Proof.
  intros [[w1 [a|e]] Hw] Hf; unfold bind; rewrite Hw; [by apply Hf | done].
Qed.

Lemma total_bind {A B} (m : M pyclass lambda A) (f : A → M pyclass lambda B) :
  total m → (∀ a, total (f a)) → total (bind m f).
Proof. intros Hm Hf w. apply bind_defined; [apply Hm | intros; apply Hf]. Qed.

Lemma total_lift {A} (x : result A) : total (lift (pyclass := pyclass) (lambda := lambda) x).
Proof. by intros w. Qed.

Lemma total_ret {A} (a : A) : total (ret (pyclass := pyclass) (lambda := lambda) a).
Proof. by intros w. Qed.

Lemma total_get_namespace : total (get_namespace (pyclass := pyclass) (lambda := lambda)).
Proof. by intros w. Qed.

Lemma total_with_namespace g : total (with_namespace (pyclass := pyclass) (lambda := lambda) g).
Proof. by intros w. Qed.

Lemma for_each_defined {A} (I : World pyclass lambda → Prop) (xs : list A)
    (body : A → M pyclass lambda unit) :
  (∀ x w, x ∈ xs → I w → is_Some (body x w)) →
  (∀ x w w' r, x ∈ xs → I w → body x w = Some (w', r) → I w') →
  ∀ w, I w → is_Some (for_each xs body w).
Proof.
  induction xs as [|x xs IH]; intros Hdef Hinv w Hw; [done|].
  rewrite for_each_cons. apply bind_defined.
  - apply Hdef; [by left | done].
  - intros [] w1 Hw1. apply IH.
    + intros y w2 Hy. apply Hdef. by right.
    + intros y w2 w2' r Hy. apply Hinv. by right.
    + eapply Hinv; [by left | done | done].
Qed.

Lemma register_field_type_with_defined (rec : ref → M pyclass lambda unit) field w :
  (∀ mt, field_message_type field = Some mt →
     is_Some (pool !! mt) ∧ is_Some (rec mt w)) →
  is_Some (register_field_type_with astcast pool rec field w).
Proof.
  intros Hmt. unfold register_field_type_with. unbind. apply bind_defined.
  - destruct (field_message_type field) as [mt|]; [|done].
    destruct (Hmt mt eq_refl) as [[desc ->] Hrec].
    rewrite bind_get_registering. by destruct (negb _).
  - intros _ w1 _. revert w1. change (total (for_each 
      [(F2P, "m2p", "i2s"); (P2F, "p2m", "s2i")]
      (λ '(registry, msg_regname, enum_regname),
         bind get_namespace (λ ns,
           bind (lift (field_cast_ast astcast msg_regname enum_regname field "value"))
             (λ return_ast,
                bind (lift (create_lambda astcast return_ast "value"
                        ("<" +:+ msg_regname +:+ "/" +:+ field_full_name field +:+ ">") ns))
                  (λ f, set_field_registry registry (field_full_name field) (Lambda f))))))).
    rewrite !for_each_cons.
    repeat first
      [ apply total_bind; [|intros ?]
      | apply total_get_namespace | apply total_lift | apply total_ret
      | apply total_with_namespace ].
Qed.

(** The measure of the recursion. *)

Lemma pool_names_elem mt (desc : Descriptor pyclass) :
  pool !! mt = Some desc → full_name desc ∈ pool_names pool.
Proof.
  intros Hmt. unfold pool_names. rewrite elem_of_list_to_set, list_elem_of_fmap.
  exists desc. split; [done|]. rewrite list_elem_of_fmap. exists (mt, desc).
  split; [done|]. by apply elem_of_map_to_list.
Qed.

Lemma unregistered_mono w w' :
  dom (m2p (namespace_of w)) ⊆ dom (m2p (namespace_of w')) →
  (unregistered pool w' ≤ unregistered pool w)%nat.
Proof.
  intros Hdom. apply subseteq_size. intros x [Hx Hout]%elem_of_difference.
  apply elem_of_difference. split; [done|]. intros Hin. by apply Hout, Hdom.
Qed.

Lemma unregistered_assign w name f :
  name ∈ pool_names pool → name ∉ dom (m2p (namespace_of w)) →
  (unregistered pool (update_namespace (assign_m2p name f) w) < unregistered pool w)%nat.
Proof.
  intros Hname Hfresh. apply subset_size. unfold update_namespace. simpl.
  rewrite dom_insert_L. split.
  - intros x [Hx Hout]%elem_of_difference. apply elem_of_difference.
    split; [done|]. intros Hin. apply Hout. by apply elem_of_union_r.
  - intros Hsub. assert (Hin : name ∈ pool_names pool ∖ dom (m2p (namespace_of w)))
      by by apply elem_of_difference.
    apply Hsub, elem_of_difference in Hin as [_ Hout]. apply Hout.
    apply elem_of_union_l. by apply elem_of_singleton.
Qed.

(** Every call returns or raises. *)

Lemma register_message_type_defined fuel mt w :
  pool_closed pool → is_Some (pool !! mt) → (unregistered pool w < fuel)%nat →
  is_Some (register_message_type astcast pool fuel mt w).
Proof.
  intros Hclosed. revert mt w. induction fuel as [|fuel IH]; intros mt w [desc Hmt] Hfuel;
    [lia|].
  cbn [register_message_type]. rewrite Hmt. unbind. rewrite bind_get_namespace.
  case_decide as Hreg; [done|].
  unfold registering_add. rewrite bind_with_registering.
  set (w1 := update_registering _ w).
  assert (Hbody : is_Some (bind (log_compiled (full_name desc)) (λ _ : (),
    bind get_namespace (λ ns,
    bind (lift (message2dict_ast astcast mt "msg" (i2s ns) "f2p")) (λ input_ast,
    bind (lift (wrap_call_ast astcast "d" input_ast)) (λ return_ast,
    bind (lift (create_lambda astcast return_ast "msg"
                  ("<m2p/" +:+ full_name desc +:+ ">") ns)) (λ f,
    bind (set_m2p (full_name desc) (Lambda f)) (λ _ : (),
    bind get_namespace (λ ns,
    bind (lift (dict2message_ast astcast mt "data" "c" "p2f")) (λ return_ast,
    bind (lift (create_lambda astcast return_ast "data"
                  ("<p2m/" +:+ full_name desc +:+ ">") ns)) (λ f,
    bind (set_p2m (full_name desc) (Lambda f)) (λ _ : (),
    bind (for_each (fields desc)
            (register_field_type_with astcast pool
               (register_message_type astcast pool fuel))) (λ _ : (),
    bind (lift (_concrete_class desc)) (λ cls,
    set_c (full_name desc) cls)))))))))))) w1)).
  { rewrite bind_log_compiled, bind_get_namespace.
    destruct (message2dict_ast _ _ _ _ _) as [input_ast|e]; [|done].
    rewrite bind_lift_Ok.
    destruct (wrap_call_ast _ _ _) as [return_ast|e]; [|done].
    rewrite bind_lift_Ok.
    destruct (create_lambda _ _ _ _ _) as [f|e]; [|done].
    rewrite bind_lift_Ok. unfold set_m2p at 1. rewrite bind_with_namespace.
    set (w3 := update_namespace _ _).
    assert (Hw3 : (unregistered pool w3 < fuel)%nat).
    { assert (unregistered pool w3 < unregistered pool w)%nat; [|lia].
      apply (unregistered_assign (add_compiled (full_name desc) w1));
        [by eapply pool_names_elem | done]. }
    rewrite bind_get_namespace.
    destruct (dict2message_ast _ _ _ _ _) as [return_ast'|e]; [|done].
    rewrite bind_lift_Ok.
    destruct (create_lambda _ _ _ _ _) as [f'|e]; [|done].
    rewrite bind_lift_Ok. unfold set_p2m at 1. rewrite bind_with_namespace.
    set (w4 := update_namespace _ w3).
    apply bind_defined.
    - apply (for_each_defined
        (λ w0, dom (m2p (namespace_of w3)) ⊆ dom (m2p (namespace_of w0)))); [| |done].
      + intros field w0 Hfield Hw0. apply register_field_type_with_defined.
        intros mt' Hmt'. split; [by eapply Hclosed|].
        apply IH; [by eapply Hclosed|].
        pose proof (unregistered_mono _ _ Hw0). lia.
      + intros field w0 w0' r Hfield Hw0 Hrun. etrans; [exact Hw0|].
        eapply (register_field_type_with_grows astcast pool ∅) in Hrun.
        * apply Hrun. set_solver.
        * intros mt'. apply register_message_type_grows.
    - intros _ w5 _. by destruct (_concrete_class desc). }
  unfold try_finally. destruct Hbody as [[w2 r2] ->].
  unfold registering_remove. unbind. rewrite bind_get_registering.
  by case_decide.
Qed.

End Termination.

(** ** Registration of messages *)

Section Registration.

Context {pyclass ast lambda : Type}.
Context (astcast : Astcast pyclass ast lambda) (pool : gmap ref (Descriptor pyclass)).
Implicit Types (w : World pyclass lambda) (D : gset string) (ok : bool).

Lemma pool_closedb_spec : pool_closedb pool = true → pool_closed pool.
Proof.
  unfold pool_closedb. rewrite forallb_forall.
  intros Hall mt desc field mt' Hmt Hfield Hmt'.
  specialize (Hall (mt, desc)). rewrite <- list_elem_of_In, elem_of_map_to_list in Hall.
  specialize (Hall Hmt). rewrite forallb_forall in Hall.
  specialize (Hall field). rewrite <- list_elem_of_In in Hall.
  specialize (Hall Hfield). rewrite Hmt' in Hall. by apply bool_decide_eq_true in Hall.
Qed.

(** A registration that returned has stored the converter of the message. *)
Lemma register_message_type_registered fuel mt desc w w' :
  pool !! mt = Some desc →
  register_message_type astcast pool fuel mt w = Some (w', Ok ()) →
  full_name desc ∈ dom (m2p (namespace_of w')).
Proof.
  intros Hmt. destruct fuel as [|fuel]; [done|].
  cbn [register_message_type]. rewrite Hmt. unbind. rewrite bind_get_namespace.
  case_decide as Hreg; [by intros [= <-]|].
  unfold registering_add. rewrite bind_with_registering.
  set (w1 := update_registering _ w).
  unfold try_finally.
  destruct (bind (log_compiled _) _ w1) as [[w2 r2]|] eqn:Hbody; [|done].
  intros Hrun.
  assert (Hclean : namespace_of w' = namespace_of w2 ∧ r2 = Ok ()).
  { unfold registering_remove in Hrun. unbind. rewrite bind_get_registering in Hrun.
    case_decide; simpl in Hrun; simplify_eq; done. }
  destruct Hclean as [-> ->]. clear Hrun. clearbody w1.
  rewrite bind_log_compiled, bind_get_namespace in Hbody.
  destruct (message2dict_ast _ _ _ _ _) as [input_ast|e]; [|done].
  rewrite bind_lift_Ok in Hbody.
  destruct (wrap_call_ast _ _ _) as [return_ast|e]; [|done].
  rewrite bind_lift_Ok in Hbody.
  destruct (create_lambda _ _ _ _ _) as [f|e]; [|done].
  rewrite bind_lift_Ok in Hbody. unfold set_m2p at 1 in Hbody.
  rewrite bind_with_namespace in Hbody.
  set (w3 := update_namespace _ _) in Hbody.
  assert (H3 : full_name desc ∈ dom (m2p (namespace_of w3))).
  { simpl. rewrite dom_insert_L. set_solver. }
  assert (H32 : grows ∅ true w3 w2); [|apply H32; [set_solver | done]].
  pose proof (grows_stepwise (pyclass := pyclass) (lambda := lambda) ∅) as HR.
  revert Hbody. generalize w3 w2. clear H3 w3 w2.
  intros w3 w2 Hbody.
  change true with (is_ok (Ok ())). revert Hbody. generalize (Ok ()). revert w3 w2.
  apply (respects_bind _ HR); [by apply respects_get_namespace |]. intros ns.
  apply (respects_bind _ HR); [by apply respects_lift |]. intros return_ast'.
  apply (respects_bind _ HR); [by apply respects_lift |]. intros f'.
  apply (respects_bind _ HR).
  { apply respects_with_namespace. intros w0. by apply grows_assign_p2m. }
  intros _. apply (respects_bind _ HR).
  { apply respects_for_each; [done|]. intros field _.
    apply register_field_type_with_grows. intros mt'.
    apply register_message_type_grows. }
  intros _. apply (respects_bind _ HR); [by apply respects_lift |]. intros cls.
  apply respects_with_namespace. intros w0. by apply grows_assign_c.
Qed.

(** C9. A call of [register_message_type] for a message whose full name
    has a message-to-container converter returns at once and leaves the
    world (every registry of the namespace and the set of messages being
    registered) as it is; this is the case after a call for the same
    message that returned, so that registering twice is registering
    once. *)
Theorem register_message_type_idempotent fuel mt desc w :
  pool !! mt = Some desc →
  (full_name desc ∈ dom (m2p (namespace_of w)) →
     register_message_type astcast pool (S fuel) mt w = Some (w, Ok ()))
  ∧ (∀ fuel0 w0,
       register_message_type astcast pool fuel0 mt w0 = Some (w, Ok ()) →
       register_message_type astcast pool (S fuel) mt w = Some (w, Ok ())).
Proof.
  intros Hmt.
  assert (Hguard : full_name desc ∈ dom (m2p (namespace_of w)) →
            register_message_type astcast pool (S fuel) mt w = Some (w, Ok ())).
  { intros Hin. cbn [register_message_type]. rewrite Hmt. unbind.
    rewrite bind_get_namespace. by rewrite decide_True. }
  split; [done|]. intros fuel0 w0 Hrun. apply Hguard.
  by eapply register_message_type_registered.
Qed.

(** The guard of [register_message_type]. *)
Lemma register_message_type_guard fuel mt desc w :
  pool !! mt = Some desc →
  full_name desc ∈ dom (m2p (namespace_of w)) →
  register_message_type astcast pool (S fuel) mt w = Some (w, Ok ()).
Proof.
  intros Hmt Hin. cbn [register_message_type]. rewrite Hmt. unbind.
  rewrite bind_get_namespace. by rewrite decide_True.
Qed.

(** C3, as amended. For a message that is not in the set of messages
    being registered, a call of [register_message_type] ends, by returning
    or by raising, and in both cases the message is not in the set
    afterwards: the set is the one from before the call. A later call for
    the message does not for that reason run the registration again:
    whenever the full name has a message-to-container converter after the
    call, as it has after a call that returned, every later call returns
    at once and changes nothing. *)
Theorem register_message_type_clears_in_progress fuel mt w :
  pool_closed pool → is_Some (pool !! mt) → mt ∉ registering_of w →
  (unregistered pool w < fuel)%nat →
  ∃ w' r,
    register_message_type astcast pool fuel mt w = Some (w', r)
    ∧ registering_of w' = registering_of w
    ∧ (mt ∉ registering_of w')
    ∧ (∀ desc, pool !! mt = Some desc →
         full_name desc ∈ dom (m2p (namespace_of w')) →
         ∀ fuel', register_message_type astcast pool (S fuel') mt w' = Some (w', Ok ()))
    ∧ (r = Ok () → ∀ desc, pool !! mt = Some desc →
         full_name desc ∈ dom (m2p (namespace_of w'))).
Proof.
  intros Hclosed Hmt Hfree Hfuel.
  destruct (register_message_type_defined astcast pool fuel mt w Hclosed Hmt Hfuel)
    as [[w' r] Hrun].
  exists w', r. split; [done|].
  pose proof (register_message_type_registering astcast pool _ _ _ _ _ Hfree Hrun) as Heq.
  split_and!; [done | by rewrite Heq | |].
  - intros desc Hdesc Hin fuel'. by apply (register_message_type_guard fuel' mt desc).
  - intros -> desc Hdesc. by eapply register_message_type_registered.
Qed.


End Registration.

(** ** Sequences of calls, and construction *)

Section Construction.

Context {pyclass ast lambda : Type}.
Context (astcast : Astcast pyclass ast lambda) (pool : gmap ref (Descriptor pyclass)).
Implicit Types (w : World pyclass lambda) (D : gset string) (ok : bool).

(** Sequences of calls. *)

Lemma register_enum_type_grows D enum_type :
  respects (grows (pyclass := pyclass) (lambda := lambda) D) (register_enum_type enum_type).
Proof.
  pose proof (grows_stepwise (pyclass := pyclass) (lambda := lambda) D) as HR.
  assert (Hdict : ∀ mode, respects (grows D)
            (run_create_enum_dict (pyclass := pyclass) (lambda := lambda)
               enum_type mode None)).
  { intros mode. unfold run_create_enum_dict.
    destruct (create_enum_dict enum_type mode None) as [ws r]. unbind.
    apply (respects_bind _ HR); [|intros; by apply respects_lift].
    apply respects_emit. intros w. by apply grows_view. }
  unfold register_enum_type. unbind.
  apply (respects_bind _ HR); [apply Hdict|]. intros int2str.
  apply (respects_bind _ HR).
  { apply respects_with_namespace. intros w. by apply grows_view. }
  intros _. apply (respects_bind _ HR); [apply Hdict|]. intros str2int.
  apply respects_with_namespace. intros w. by apply grows_view.
Qed.

Lemma register_grows D fuel call :
  respects (grows D) (register astcast pool fuel call).
Proof.
  destruct call as [enum_type|mt|field]; simpl.
  - apply register_enum_type_grows.
  - apply register_message_type_grows.
  - apply register_field_type_with_grows. intros mt. apply register_message_type_grows.
Qed.

(** C1, as amended. Whatever the sequence of registration calls, a full
    name that has a message-to-container converter keeps its
    message-to-container converter, its container-to-message converter and
    its constructor as they are; so the built-in converters of the wrapper
    types and of the unsupported types stay as construction left them. *)
Theorem registration_keeps_message_slots fuel calls w w' name :
  register_all astcast pool fuel calls w = Some w' →
  name ∈ dom (m2p (namespace_of w)) →
  m2p (namespace_of w') !! name = m2p (namespace_of w) !! name
  ∧ p2m (namespace_of w') !! name = p2m (namespace_of w) !! name
  ∧ c (namespace_of w') !! name = c (namespace_of w) !! name.
Proof.
  revert w. induction calls as [|call calls IH]; intros w Hrun Hname.
  { by injection Hrun as <-. }
  cbn [register_all] in Hrun.
  destruct (register astcast pool fuel call w) as [[w1 r]|] eqn:Hcall; [|done].
  destruct (register_grows (dom (m2p (namespace_of w))) _ _ _ _ _ Hcall)
    as [Hdom Hslots _]; [done|].
  destruct (Hslots _ Hname) as (E1 & E2 & E3).
  destruct (IH _ Hrun) as (F1 & F2 & F3); [by apply Hdom|].
  split_and!; congruence.
Qed.

(** Construction. *)

Lemma same_enums_stepwise : stepwise (same_enums (pyclass := pyclass) (lambda := lambda)).
Proof.
  split; unfold same_enums; [done|]. intros ok w1 w2 w3 [-> ->] [-> ->]. done.
Qed.

(** C10. After construction the enum projection of
    [google.protobuf.NullValue] sends the number 0 to [None], and [None]
    back to 0. *)
Theorem null_value_projection dict_cls w :
  __init__ astcast dict_cls = Some (w, Ok ()) →
  ∃ int2str str2int : gmap pyval pyval,
    i2s (namespace_of w) !! "google.protobuf.NullValue" = Some int2str
    ∧ s2i (namespace_of w) !! "google.protobuf.NullValue" = Some str2int
    ∧ int2str !! PyInt 0 = Some PyNone
    ∧ str2int !! PyNone = Some (PyInt 0)
    ∧ int2str = {[ PyInt 0 := PyNone ]}
    ∧ str2int = {[ PyNone := PyInt 0 ]}.
Proof.
  pose proof same_enums_stepwise as HR.
  unfold __init__, _register_google_types. unbind.
  unfold set_i2s at 1, set_s2i at 1. rewrite !bind_with_namespace.
  set (w2 := update_namespace _ _). intros Hrun.
  assert (H2 : same_enums true w2 w).
  { change true with (is_ok (Ok ())). revert Hrun. generalize (Ok ()). generalize w2 w.
    apply (respects_bind _ HR).
    - apply respects_for_each; [done|]. intros [full_name wrapper] _.
      apply (respects_bind _ HR); [by apply respects_with_namespace|]. intros _.
      apply (respects_bind _ HR); [by apply respects_with_namespace|]. intros _.
      apply (respects_bind _ HR); [by apply respects_get_namespace|]. intros ns.
      apply (respects_bind _ HR); [by apply respects_lift|]. intros return_ast.
      apply (respects_bind _ HR); [by apply respects_lift|]. intros f.
      by apply respects_with_namespace.
    - intros _. apply respects_for_each; [done|]. intros name _.
      apply (respects_bind _ HR); [by apply respects_with_namespace|]. intros _.
      by apply respects_with_namespace. }
  destruct H2 as [-> ->]. eexists _, _. split_and!.
  - apply lookup_insert_eq.
  - apply lookup_insert_eq.
  - apply lookup_singleton_eq.
  - apply lookup_singleton_eq.
  - done.
  - done.
Qed.

(** The loop over the unsupported types, for any list of names: the
    converters it stores are still there at the end. *)
Lemma named_fail_loop (names : list string) w w' r :
  for_each names (λ name,
    let full_name := "google.protobuf." +:+ name in
    let named_fail := PartialFail full_name in
    bind (set_m2p full_name named_fail) (λ _, set_p2m full_name named_fail)) w
  = Some (w', r) →
  ∀ key,
    (∃ name, name ∈ names ∧ key = "google.protobuf." +:+ name)
    ∨ (m2p (namespace_of w) !! key = Some (PartialFail key)
       ∧ p2m (namespace_of w) !! key = Some (PartialFail key)) →
    m2p (namespace_of w') !! key = Some (PartialFail key)
    ∧ p2m (namespace_of w') !! key = Some (PartialFail key).
Proof.
  revert w. induction names as [|name names IH]; intros w Hrun key Hkey.
  { injection Hrun as <- <-. destruct Hkey as [(name & Hname & _)|Hkey]; [|done].
    by apply elem_of_nil in Hname. }
  rewrite for_each_cons in Hrun. cbn zeta in Hrun.
  rewrite bind_assoc in Hrun.
  unfold set_m2p at 1, set_p2m at 1 in Hrun. rewrite !bind_with_namespace in Hrun.
  apply (IH _ Hrun).
  destruct (decide (key = "google.protobuf." +:+ name)) as [->|Hne].
  - right. simpl. by rewrite !lookup_insert_eq.
  - destruct Hkey as [(name' & Hname' & ->)|Hkey].
    + left. exists name'. split; [|done].
      apply elem_of_cons in Hname' as [->|Hname']; done.
    + right. simpl. by rewrite !lookup_insert_ne.
Qed.

(** C8. After construction, for each of the seven unsupported types, the
    converters of both directions are there and raise
    [NotImplementedError] with the full name of the type as message,
    whatever their argument; so do [proto2py] and [py2proto] for such a
    type. *)
Theorem unsupported_types_fail dict_cls w name :
  __init__ astcast dict_cls = Some (w, Ok ()) →
  name ∈ google_complex_types →
  ∃ to_python to_message : converter lambda,
    m2p (namespace_of w) !! ("google.protobuf." +:+ name) = Some to_python
    ∧ p2m (namespace_of w) !! ("google.protobuf." +:+ name) = Some to_message
    ∧ ∀ (pyobj : Type) (getattr : pyobj → string → result pyobj)
        (run_lambda : lambda → Namespace pyclass lambda → pyobj → result pyobj),
        (∀ (ns : Namespace pyclass lambda) (arg : pyobj),
           call getattr run_lambda ns to_python arg
           = Raise (NotImplementedError ("google.protobuf." +:+ name))
           ∧ call getattr run_lambda ns to_message arg
             = Raise (NotImplementedError ("google.protobuf." +:+ name)))
        ∧ (∀ (message_full_name : pyobj → string) (message : pyobj),
             message_full_name message = "google.protobuf." +:+ name →
             proto2py getattr run_lambda message_full_name (registry w) message
             = Raise (NotImplementedError ("google.protobuf." +:+ name)))
        ∧ (∀ (class_full_name : pyclass → string) (message_cls : pyclass) (data : pyobj),
             class_full_name message_cls = "google.protobuf." +:+ name →
             py2proto getattr run_lambda class_full_name (registry w) message_cls data
             = Raise (NotImplementedError ("google.protobuf." +:+ name))).
Proof.
  unfold __init__, _register_google_types. unbind.
  unfold set_i2s at 1, set_s2i at 1. rewrite !bind_with_namespace.
  intros [(e & _ & [=]) | (_ & w3 & _ & Hloop)]%bind_Some Hname.
  destruct (named_fail_loop _ _ _ _ Hloop ("google.protobuf." +:+ name)) as [H1 H2].
  { left. by exists name. }
  exists (PartialFail ("google.protobuf." +:+ name)),
         (PartialFail ("google.protobuf." +:+ name)).
  split_and!; [done | done |]. intros pyobj getattr run_lambda. split_and!.
  - intros ns arg. by split.
  - intros message_full_name message Hmessage. unfold proto2py.
    change (_namespace (registry w)) with (namespace_of w). by rewrite Hmessage, H1.
  - intros class_full_name message_cls data Hcls. unfold py2proto.
    change (_namespace (registry w)) with (namespace_of w). by rewrite Hcls, H2.
Qed.

End Construction.

(** ** Naming helpers: both directions *)

Ltac each_ascii c := destruct c as [[] [] [] [] [] [] [] []].

Lemma is_az_facts (c : ascii) :
  Str.is_az c = true →
  Str.is_AZ c = false ∧ Str.is_AZ (Str.upper_char c) = true
  ∧ Str.lower_char (Str.upper_char c) = c ∧ Str.lower_char c = c
  ∧ Repr.contains "_" (String c EmptyString) = false
  ∧ Repr.contains "_" (String (Str.upper_char c) EmptyString) = false.
Proof. each_ascii c; vm_compute; intros H; try discriminate H; repeat split. Qed.

Lemma is_AZ_facts (c : ascii) :
  Str.is_AZ c = true →
  Str.is_az c = false ∧ Str.is_az (Str.lower_char c) = true
  ∧ Str.upper_char (Str.lower_char c) = c ∧ Str.upper_char c = c
  ∧ Repr.contains "_" (String c EmptyString) = false
  ∧ Repr.contains "_" (String (Str.lower_char c) EmptyString) = false.
Proof. each_ascii c; vm_compute; intros H; try discriminate H; repeat split. Qed.

Lemma is_other_facts (c : ascii) :
  is_other c = true →
  Str.is_AZ c = false ∧ Str.is_az c = false
  ∧ Str.lower_char c = c ∧ Str.upper_char c = c
  ∧ Repr.contains "_" (String c EmptyString) = false.
Proof. each_ascii c; vm_compute; intros H; try discriminate H; repeat split. Qed.

Lemma lower_char_not_AZ (c : ascii) : Str.is_AZ (Str.lower_char c) = false.
Proof. each_ascii c; vm_compute; reflexivity. Qed.

Lemma case_keeps_underscore (c : ascii) :
  Repr.contains "_" (String (Str.lower_char c) EmptyString)
  = Repr.contains "_" (String c EmptyString)
  ∧ Repr.contains "_" (String (Str.upper_char c) EmptyString)
    = Repr.contains "_" (String c EmptyString).
Proof. each_ascii c; vm_compute; split; reflexivity. Qed.

(** *** Strings *)

Lemma contains_cons (c d : ascii) (s : string) :
  Repr.contains c (String d s)
  = Repr.contains c (String d EmptyString) || Repr.contains c s.
Proof. simpl. by case_decide. Qed.

Lemma contains_append (c : ascii) (a b : string) :
  Repr.contains c (a +:+ b) = Repr.contains c a || Repr.contains c b.
Proof.
  induction a as [|x a IH]; [done|]. rewrite StrFacts.append_cons.
  rewrite (contains_cons c x (a +:+ b)), (contains_cons c x a), IH. by rewrite orb_assoc.
Qed.

Lemma has_AZ_append (a b : string) : Str.has_AZ (a +:+ b) = Str.has_AZ a || Str.has_AZ b.
Proof.
  induction a as [|x a IH]; [done|]. rewrite StrFacts.append_cons. cbn [Str.has_AZ].
  by rewrite IH, orb_assoc.
Qed.

Lemma lower_has_no_AZ (s : string) : Str.has_AZ (Str.lower s) = false.
Proof.
  induction s as [|c s IH]; [done|]. cbn [Str.lower Str.has_AZ].
  by rewrite lower_char_not_AZ, IH.
Qed.

Lemma join_empty_cons (p : string) (parts : list string) :
  Str.join EmptyString (p :: parts) = p +:+ Str.join EmptyString parts.
Proof. rewrite StrFacts.join_cons. by destruct parts. Qed.

Lemma join_empty_app (l1 l2 : list string) :
  Str.join EmptyString (l1 ++ l2) = Str.join EmptyString l1 +:+ Str.join EmptyString l2.
Proof.
  induction l1 as [|p l1 IH]; [done|].
  rewrite <- app_comm_cons, !join_empty_cons, IH. by rewrite StrFacts.append_assoc.
Qed.

Lemma lower_join (sep : string) (parts : list string) :
  Str.lower (Str.join sep parts) = Str.join (Str.lower sep) (map Str.lower parts).
Proof.
  induction parts as [|p parts IH]; [done|].
  destruct parts as [|q parts]; [done|].
  change (Str.join sep (p :: q :: parts)) with (p +:+ sep +:+ Str.join sep (q :: parts)).
  rewrite !StrFacts.lower_append, IH. done.
Qed.

(** *** [str.split] *)

Lemma split_nonempty (sep : ascii) (s : string) : Str.split sep s ≠ [].
Proof.
  induction s as [|c s IH]; [done|]. cbn [Str.split]. case_decide; [done|].
  by destruct (Str.split sep s).
Qed.

Lemma split_app (sep : ascii) (a b : string) :
  Str.split sep (a +:+ String sep b) = Str.split sep a ++ Str.split sep b.
Proof.
  induction a as [|c a IH].
  - change (EmptyString +:+ String sep b) with (String sep b).
    cbn [Str.split]. by rewrite decide_True.
  - rewrite StrFacts.append_cons. cbn [Str.split]. case_decide; [by rewrite IH|].
    rewrite IH. pose proof (split_nonempty sep a).
    by destruct (Str.split sep a).
Qed.

Lemma split_no_sep (sep : ascii) (w : string) :
  Repr.contains sep w = false → Str.split sep w = [w].
Proof.
  induction w as [|c w IH]; [done|]. cbn [Repr.contains Str.split].
  destruct (decide (sep = c)) as [->|Hne]; [done|]. intros Hw.
  rewrite decide_False by done. by rewrite IH.
Qed.

Lemma split_pieces (sep : ascii) (s w : string) :
  w ∈ Str.split sep s → Repr.contains sep w = false.
Proof.
  revert w. induction s as [|c s IH]; intros w; cbn [Str.split].
  - by intros ->%list_elem_of_singleton.
  - case_decide as Hc.
    + intros [->|Hw]%elem_of_cons; [done | by apply IH].
    + pose proof (split_nonempty sep s).
      destruct (Str.split sep s) as [|w0 ws]; [done|].
      intros [->|Hw]%elem_of_cons.
      * cbn [Repr.contains]. rewrite decide_False by done. apply IH. by left.
      * apply IH. by right.
Qed.

Lemma split_join (sep : ascii) (words : list string) :
  words ≠ [] → (∀ w, w ∈ words → Repr.contains sep w = false) →
  Str.split sep (Str.join (String sep EmptyString) words) = words.
Proof.
  induction words as [|w words IH]; [done|]. intros _ Hwords.
  destruct words as [|w' words].
  - apply split_no_sep, Hwords. by left.
  - change (Str.join (String sep EmptyString) (w :: w' :: words))
      with (w +:+ String sep EmptyString
              +:+ Str.join (String sep EmptyString) (w' :: words)).
    change (String sep EmptyString +:+ ?x) with (String sep x).
    rewrite split_app, IH; [|done|].
    + rewrite split_no_sep; [done|]. apply Hwords. by left.
    + intros x Hx. apply Hwords. by right.
Qed.

(** *** [str.title] *)

Lemma title_from_length (p : bool) (s : string) :
  String.length (Str.title_from p s) = String.length s.
Proof. revert p. induction s as [|c s IH]; intros p; [done|]. simpl. by rewrite IH. Qed.

Lemma title_from_contains_underscore (p : bool) (s : string) :
  Repr.contains "_" (Str.title_from p s) = Repr.contains "_" s.
Proof.
  revert p. induction s as [|c s IH]; intros p; [done|]. cbn [Str.title_from].
  rewrite contains_cons, (contains_cons _ c s), IH.
  destruct (case_keeps_underscore c) as [Hl Hu]. destruct p; by rewrite ?Hl, ?Hu.
Qed.

Lemma all_other_facts (s : string) :
  all_other s = true →
  (∀ p, Str.title_from p s = s) ∧ Str.has_AZ s = false
  ∧ Repr.contains "_" s = false ∧ Str.lower s = s.
Proof.
  induction s as [|c s IH]; [done|]. cbn [all_other].
  intros [Hc Hs]%andb_true_iff.
  destruct (is_other_facts c Hc) as (HAZ & Haz & Hl & Hu & Hus).
  destruct (IH Hs) as (Ht & Hh & Hcs & Hls). split_and!.
  - intros p. cbn [Str.title_from]. rewrite Ht, Hl, Hu. by destruct p.
  - cbn [Str.has_AZ]. by rewrite HAZ, Hh.
  - by rewrite contains_cons, Hus, Hcs.
  - cbn [Str.lower]. by rewrite Hl, Hls.
Qed.

Lemma word_tail_facts (s : string) :
  word_tail s = true →
  Str.title_from true s = s ∧ Str.has_AZ s = false
  ∧ Repr.contains "_" s = false ∧ Str.lower s = s.
Proof.
  induction s as [|c s IH]; [done|]. cbn [word_tail].
  destruct (Str.is_az c) eqn:Hc.
  - intros Hs. destruct (is_az_facts c Hc) as (HAZ & _ & _ & Hl & Hus & _).
    destruct (IH Hs) as (Ht & Hh & Hcs & Hls). split_and!.
    + cbn [Str.title_from]. unfold Str.is_cased. by rewrite Hc, orb_true_r, Ht, Hl.
    + cbn [Str.has_AZ]. by rewrite HAZ, Hh.
    + by rewrite contains_cons, Hus, Hcs.
    + cbn [Str.lower]. by rewrite Hl, Hls.
  - intros Hs. destruct (all_other_facts _ Hs) as (Ht & Hh & Hcs & Hls). done.
Qed.

(** A word of a snake_case name and its title. *)
Lemma snake_word_facts (w : string) :
  snake_word w = true →
  pascal_word (Str.title w) = true ∧ Str.lower (Str.title w) = w
  ∧ Repr.contains "_" w = false ∧ Str.len (Str.title w) = Str.len w.
Proof.
  destruct w as [|c s]; [done|]. cbn [snake_word].
  intros [Hc Hs]%andb_true_iff.
  destruct (is_az_facts c Hc) as (HAZ & Hup & Hlu & Hl & Hus & _).
  destruct (word_tail_facts s Hs) as (Ht & Hh & Hcs & Hls).
  assert (Htitle : Str.title (String c s) = String (Str.upper_char c) s).
  { unfold Str.title. cbn [Str.title_from]. unfold Str.is_cased.
    by rewrite Hc, orb_true_r, Ht. }
  rewrite Htitle. split_and!.
  - cbn [pascal_word]. by rewrite Hup, Hs.
  - cbn [Str.lower]. by rewrite Hlu, Hls.
  - by rewrite contains_cons, Hus, Hcs.
  - done.
Qed.

(** A word of a PascalCase name and its lower-case form. *)
Lemma pascal_word_facts (w : string) :
  pascal_word w = true →
  snake_word (Str.lower w) = true ∧ Str.title (Str.lower w) = w
  ∧ Repr.contains "_" (Str.lower w) = false
  ∧ ∃ c rest, w = String c rest ∧ Str.is_AZ c = true ∧ Str.has_AZ rest = false.
Proof.
  destruct w as [|c s]; [done|]. cbn [pascal_word].
  intros [Hc Hs]%andb_true_iff.
  destruct (is_AZ_facts c Hc) as (Haz & Hlow & Hul & Hu & Hus & Husl).
  destruct (word_tail_facts s Hs) as (Ht & Hh & Hcs & Hls).
  cbn [Str.lower]. rewrite Hls. split_and!.
  - cbn [snake_word]. by rewrite Hlow, Hs.
  - unfold Str.title. cbn [Str.title_from]. unfold Str.is_cased.
    by rewrite Hlow, orb_true_r, Ht, Hul.
  - by rewrite contains_cons, Husl, Hcs.
  - by exists c, s.
Qed.

(** *** The matches of [[A-Z][^A-Z]*] *)

Lemma findall_AZ_runs_no_AZ (s : string) :
  Str.has_AZ s = false → Str.findall_AZ_runs s = [].
Proof.
  induction s as [|c s IH]; [done|]. cbn [Str.has_AZ Str.findall_AZ_runs].
  intros [Hc Hs]%orb_false_iff. rewrite Hc. by apply IH.
Qed.

Lemma findall_AZ_runs_from_first_AZ (s : string) :
  Str.findall_AZ_runs (Str.from_first_AZ s) = Str.findall_AZ_runs s.
Proof.
  induction s as [|c s IH]; [done|]. cbn [Str.from_first_AZ].
  destruct (Str.is_AZ c) eqn:Hc; [done|]. cbn [Str.findall_AZ_runs]. by rewrite Hc.
Qed.

Lemma findall_AZ_runs_has_AZ (s : string) :
  Str.has_AZ s = true → ∃ c rest runs, Str.findall_AZ_runs s = String c rest :: runs.
Proof.
  induction s as [|c s IH]; [done|]. cbn [Str.has_AZ Str.findall_AZ_runs].
  destruct (Str.is_AZ c); [by eexists _, _, _ | by apply IH].
Qed.

Lemma non_AZ_prefix_append (rest tail : string) :
  Str.has_AZ rest = false →
  Str.non_AZ_prefix (rest +:+ tail) = rest +:+ Str.non_AZ_prefix tail.
Proof.
  induction rest as [|c rest IH]; [done|]. cbn [Str.has_AZ].
  intros [Hc Hs]%orb_false_iff. rewrite !StrFacts.append_cons. cbn [Str.non_AZ_prefix].
  by rewrite Hc, IH.
Qed.

Lemma findall_AZ_runs_append (rest tail : string) :
  Str.has_AZ rest = false →
  Str.findall_AZ_runs (rest +:+ tail) = Str.findall_AZ_runs tail.
Proof.
  induction rest as [|c rest IH]; [done|]. cbn [Str.has_AZ].
  intros [Hc Hs]%orb_false_iff. rewrite StrFacts.append_cons. cbn [Str.findall_AZ_runs].
  by rewrite Hc, IH.
Qed.

(** Words that start with a capital and have no other are found again
    in the text that they make up. *)
Lemma findall_AZ_runs_join (words : list string) :
  (∀ w, w ∈ words →
     ∃ c rest, w = String c rest ∧ Str.is_AZ c = true ∧ Str.has_AZ rest = false) →
  Str.findall_AZ_runs (Str.join EmptyString words) = words.
Proof.
  induction words as [|w words IH]; [done|]. intros Hwords.
  destruct (Hwords w) as (c & rest & -> & Hc & Hrest); [by left|].
  rewrite join_empty_cons, StrFacts.append_cons. cbn [Str.findall_AZ_runs]. rewrite Hc.
  rewrite non_AZ_prefix_append, findall_AZ_runs_append by done.
  rewrite IH by (intros x Hx; apply Hwords; by right).
  f_equal. f_equal.
  destruct words as [|w' words]; [by rewrite StrFacts.append_empty_r|].
  destruct (Hwords w') as (c' & rest' & -> & Hc' & _); [right; by left|].
  rewrite join_empty_cons, StrFacts.append_cons. cbn [Str.non_AZ_prefix]. rewrite Hc'.
  by rewrite StrFacts.append_empty_r.
Qed.

(** *** The joining rule *)

Lemma join_runs_no_adjacent_single (runs : list string) :
  no_adjacent_single runs = true → join_runs runs = Str.join "_" runs.
Proof.
  induction runs as [|a runs IH]; [done|].
  destruct runs as [|b runs]; [done|].
  change (no_adjacent_single (a :: b :: runs))
    with (negb (bool_decide (Str.len a = 1) && bool_decide (Str.len b = 1))
          && no_adjacent_single (b :: runs)).
  intros [Hab Hrest]%andb_true_iff.
  change (join_runs (a :: b :: runs))
    with (a +:+ (if decide (Str.len a = 1 ∧ Str.len b = 1) then EmptyString else "_")
            +:+ join_runs (b :: runs)).
  change (Str.join "_" (a :: b :: runs)) with (a +:+ "_" +:+ Str.join "_" (b :: runs)).
  rewrite IH by done. rewrite decide_False; [done|].
  intros [Ha Hb]. by rewrite !bool_decide_eq_true_2 in Hab.
Qed.

Lemma no_adjacent_single_map (f : string → string) (words : list string) :
  (∀ w, w ∈ words → Str.len (f w) = Str.len w) →
  no_adjacent_single (map f words) = no_adjacent_single words.
Proof.
  induction words as [|a words IH]; [done|]. intros Hlen.
  destruct words as [|b words]; [done|].
  change (no_adjacent_single (map f (a :: b :: words)))
    with (negb (bool_decide (Str.len (f a) = 1) && bool_decide (Str.len (f b) = 1))
          && no_adjacent_single (map f (b :: words))).
  rewrite IH by (intros x Hx; apply Hlen; by right).
  rewrite !Hlen; [done | right; by left | by left].
Qed.

Lemma pascal2snake_lower_join_runs (name : string) :
  pascal2snake name = Str.lower (join_runs (Str.findall_AZ_runs name)).
Proof.
  unfold pascal2snake. rewrite <- join_groups_runs. f_equal.
  apply map_ext. by intros [k g].
Qed.

Lemma lower_length (s : string) : String.length (Str.lower s) = String.length s.
Proof. induction s as [|c s IH]; [done|]. simpl. by rewrite IH. Qed.

Lemma map_id_on {A} (f : A → A) (xs : list A) :
  (∀ x, x ∈ xs → f x = x) → map f xs = xs.
Proof.
  induction xs as [|x xs IH]; [done|]. intros Hf. cbn [map].
  rewrite Hf by (by left). rewrite IH; [done|]. intros y Hy. apply Hf. by right.
Qed.

(** Names made of PascalCase words: [pascal2snake] lower-cases the words
    and puts an underscore between them. *)
Lemma pascal2snake_words (words : list string) :
  forallb pascal_word words = true → no_adjacent_single words = true →
  pascal2snake (Str.join EmptyString words) = Str.join "_" (map Str.lower words).
Proof.
  intros Hwords Hadj. rewrite forallb_forall in Hwords.
  rewrite pascal2snake_lower_join_runs, findall_AZ_runs_join.
  - rewrite join_runs_no_adjacent_single by done. by rewrite lower_join.
  - intros w Hw. apply pascal_word_facts, Hwords. by apply list_elem_of_In.
Qed.

(** Names made of snake_case words: [snake2pascal] puts their titles end
    to end. *)
Lemma snake2pascal_words (words : list string) :
  words ≠ [] → (∀ w, w ∈ words → Repr.contains "_" w = false) →
  snake2pascal (Str.join "_" words) = Str.join EmptyString (map Str.title words).
Proof. intros Hne Hwords. unfold snake2pascal. by rewrite split_join. Qed.

(** X2. [pascal2snake] undoes [snake2pascal] on the conventional
    snake_case names: those made of words that start with a lower-case
    letter and go on with lower-case letters and then with characters that
    are neither letters nor underscores, no two neighbouring words being
    both a single character. *)
Theorem pascal2snake_snake2pascal (words : list string) :
  forallb snake_word words = true → no_adjacent_single words = true →
  pascal2snake (snake2pascal (Str.join "_" words)) = Str.join "_" words.
Proof.
  intros Hwords Hadj. rewrite forallb_forall in Hwords.
  assert (Hfacts : ∀ w, w ∈ words →
            pascal_word (Str.title w) = true ∧ Str.lower (Str.title w) = w
            ∧ Repr.contains "_" w = false ∧ Str.len (Str.title w) = Str.len w).
  { intros w Hw. apply snake_word_facts, Hwords. by apply list_elem_of_In. }
  destruct words as [|w0 words0] eqn:Hw0; [done|]. rewrite <- Hw0 in *.
  assert (Hne : words ≠ []) by by rewrite Hw0.
  clear Hw0. rewrite snake2pascal_words; [|done|intros w Hw; by apply Hfacts].
  rewrite pascal2snake_words.
  - rewrite map_map, map_id_on; [done|]. intros w Hw. by apply Hfacts.
  - apply forallb_forall. intros x [w [<- Hw]]%in_map_iff.
    apply Hfacts. by apply list_elem_of_In.
  - rewrite no_adjacent_single_map; [done|]. intros w Hw. by apply Hfacts.
Qed.

(** X3. [snake2pascal] undoes [pascal2snake] on the conventional
    PascalCase names: those made of words that start with an upper-case
    letter and go on with lower-case letters and then with characters that
    are neither letters nor underscores, no two neighbouring words being
    both a single character. *)
Theorem snake2pascal_pascal2snake (words : list string) :
  forallb pascal_word words = true → no_adjacent_single words = true →
  snake2pascal (pascal2snake (Str.join EmptyString words)) = Str.join EmptyString words.
Proof.
  intros Hwords Hadj. rewrite pascal2snake_words by done.
  rewrite forallb_forall in Hwords.
  assert (Hfacts : ∀ w, w ∈ words →
            Str.title (Str.lower w) = w ∧ Repr.contains "_" (Str.lower w) = false).
  { intros w Hw. destruct (pascal_word_facts w) as (_ & ? & ? & _); [|done].
    apply Hwords. by apply list_elem_of_In. }
  destruct words as [|w0 words0] eqn:Hw0; [done|]. rewrite <- Hw0 in *.
  assert (Hne : map Str.lower words ≠ []) by by rewrite Hw0.
  clear Hw0. rewrite snake2pascal_words; [|done|].
  - rewrite map_map, map_id_on; [done|]. intros w Hw. by apply Hfacts.
  - intros x [w [-> Hw]]%list_elem_of_fmap. by apply Hfacts.
Qed.

(** X1. [snake2pascal] handles the two sides of an underscore apart and
    puts the results end to end, so that its result has no underscore and
    empty words (leading, trailing or doubled underscores) leave no trace;
    a name without an underscore gets the result of [str.title]. *)
Theorem snake2pascal_underscores :
  (∀ a b, snake2pascal (a +:+ "_" +:+ b) = snake2pascal a +:+ snake2pascal b)
  ∧ (∀ name, Repr.contains "_" (snake2pascal name) = false)
  ∧ (∀ word, Repr.contains "_" word = false → snake2pascal word = Str.title word)
  ∧ snake2pascal "__init__" = "Init".
Proof.
  split_and!.
  - intros a b. unfold snake2pascal.
    change ("_" +:+ b) with (String "_" b).
    by rewrite split_app, map_app, join_empty_app.
  - intros name. unfold snake2pascal.
    pose proof (split_pieces "_" name) as Hpieces.
    induction (Str.split "_" name) as [|w ws IH]; [done|].
    cbn [map]. rewrite join_empty_cons, contains_append.
    unfold Str.title at 1. rewrite title_from_contains_underscore.
    rewrite Hpieces by (by left). apply IH. intros x Hx. apply Hpieces. by right.
  - intros word Hword. unfold snake2pascal. by rewrite split_no_sep.
  - reflexivity.
Qed.

(** X4. [pascal2snake] drops what comes before the first upper-case
    letter of the name, and its result is empty exactly when the name has
    no upper-case letter. *)
Theorem pascal2snake_before_first_capital (name : string) :
  pascal2snake name = pascal2snake (Str.from_first_AZ name)
  ∧ (pascal2snake name = EmptyString ↔ Str.has_AZ name = false).
Proof.
  split.
  - unfold pascal2snake. by rewrite findall_AZ_runs_from_first_AZ.
  - rewrite pascal2snake_lower_join_runs. split.
    + intros Hempty. destruct (Str.has_AZ name) eqn:Hname; [|done].
      destruct (findall_AZ_runs_has_AZ _ Hname) as (c & rest & runs & Hruns).
      rewrite Hruns in Hempty. by destruct runs.
    + intros Hname. by rewrite findall_AZ_runs_no_AZ.
Qed.

(** X5. The result of [pascal2snake] has no upper-case letter, so that
    [pascal2snake] of it is the empty string. *)
Theorem pascal2snake_twice (name : string) :
  Str.has_AZ (pascal2snake name) = false
  ∧ pascal2snake (pascal2snake name) = EmptyString.
Proof.
  assert (H : Str.has_AZ (pascal2snake name) = false).
  { rewrite pascal2snake_lower_join_runs. apply lower_has_no_AZ. }
  split; [done|]. rewrite pascal2snake_lower_join_runs.
  by rewrite findall_AZ_runs_no_AZ.
Qed.

Lemma pascal2snake_snake2pascal_witness :
  pascal2snake (snake2pascal "int32_value_x") = "int32_value_x"
  ∧ pascal2snake (snake2pascal "a_b") = "ab".
Proof.
  split; [|reflexivity].
  apply (pascal2snake_snake2pascal ["int32"; "value"; "x"]); reflexivity.
Defined.

Lemma snake2pascal_pascal2snake_witness :
  snake2pascal (pascal2snake "Int32ValueX") = "Int32ValueX"
  ∧ snake2pascal (pascal2snake "IDCode") = "IdCode".
Proof.
  split; [|reflexivity].
  apply (snake2pascal_pascal2snake ["Int32"; "Value"; "X"]); reflexivity.
Defined.

(** ** [create_enum_dict], continued *)

(** The three ways in which [create_enum_dict] goes on after the check of
    the prefix. *)
Lemma create_enum_dict_fits (e : EnumDescriptor) (prefix : option string) :
  all (λ value, Str.startswith (ev_name value) (common_prefix e prefix)) (enum_values e)
  = true →
  create_enum_dict e "int2str" prefix
  = ([], Ok (int2str_dict e (Str.len (common_prefix e prefix))))
  ∧ create_enum_dict e "str2int" prefix
    = ([], Ok (str2int_dict e (Str.len (common_prefix e prefix))))
  ∧ ∀ mode, mode ≠ "int2str" → mode ≠ "str2int" →
      create_enum_dict e mode prefix
      = ([], Raise (ValueError ("Unknown mode " +:+ Repr.repr mode))).
Proof.
  intros Hall. unfold create_enum_dict.
  assert (Hc : match prefix with
               | Some p => p
               | None => Str.upper (pascal2snake (enum_name e)) +:+ "_"
               end = common_prefix e prefix) by by destruct prefix.
  rewrite Hc, Hall. split_and!.
  - by rewrite decide_True.
  - rewrite decide_False by done. by rewrite decide_True.
  - intros mode H1 H2. by rewrite !decide_False.
Qed.

Lemma create_enum_dict_derived_misfit (e : EnumDescriptor) :
  all (λ value, Str.startswith (ev_name value) (derived_prefix e)) (enum_values e) = false →
  create_enum_dict e "int2str" None = ([missing_prefix_warning e], Ok (int2str_dict e 0))
  ∧ create_enum_dict e "str2int" None = ([missing_prefix_warning e], Ok (str2int_dict e 0))
  ∧ ∀ mode, mode ≠ "int2str" → mode ≠ "str2int" →
      create_enum_dict e mode None
      = ([missing_prefix_warning e],
         Raise (ValueError ("Unknown mode " +:+ Repr.repr mode))).
Proof.
  intros Hall. unfold create_enum_dict. unfold derived_prefix in Hall. rewrite Hall.
  split_and!.
  - by rewrite decide_True.
  - rewrite decide_False by done. by rewrite decide_True.
  - intros mode H1 H2. by rewrite !decide_False.
Qed.

Lemma create_enum_dict_explicit_misfit (e : EnumDescriptor) (mode p : string) :
  all (λ value, Str.startswith (ev_name value) p) (enum_values e) = false →
  create_enum_dict e mode (Some p)
  = ([], Raise (ValueError ("The " +:+ Repr.repr p +:+ " prefix is not common for all values"))).
Proof. intros Hall. unfold create_enum_dict. by rewrite Hall. Qed.

(** The entries of the two dictionaries when a common prefix is cut. *)
Lemma int2str_dict_strip (e : EnumDescriptor) (common : string) :
  (∀ v, v ∈ enum_values e → Str.startswith (ev_name v) common = true) →
  ∀ k x, int2str_dict e (Str.len common) !! k = Some x
    ↔ ∃ n v short, k = PyInt n ∧ x = PyStr short
        ∧ values_by_number e !! n = Some v
        ∧ ev_name v = common +:+ short.
Proof.
  intros Hall k x. unfold int2str_dict. rewrite int2str_dict_lookup. split.
  - intros (n & v & -> & -> & Hn).
    destruct (values_by_number_lookup _ _ _ Hn) as [Hin _].
    destruct (StrFacts.startswith_inv _ _ (Hall _ Hin)) as [short Hshort].
    exists n, v, short. rewrite Hshort at 1.
    by rewrite StrFacts.slice_from_len_append.
  - intros (n & v & short & -> & -> & Hn & Hname). exists n, v.
    by rewrite Hname, StrFacts.slice_from_len_append.
Qed.

Lemma str2int_dict_strip (e : EnumDescriptor) (common : string) :
  (∀ v, v ∈ enum_values e → Str.startswith (ev_name v) common = true) →
  ∀ k x, str2int_dict e (Str.len common) !! k = Some x
    ↔ ∃ v short, k = PyStr short ∧ x = PyInt (ev_number v)
        ∧ values_by_name e !! (common +:+ short) = Some v.
Proof.
  intros Hall k x.
  assert (Hnames : ∀ name v, values_by_name e !! name = Some v →
            ∃ short, name = common +:+ short).
  { intros name v [Hin <-]%values_by_name_lookup.
    by apply StrFacts.startswith_inv, Hall. }
  unfold str2int_dict. rewrite str2int_dict_lookup.
  - split.
    + intros (name & v & -> & -> & Hn).
      destruct (Hnames _ _ Hn) as [short ->].
      exists v, short. by rewrite StrFacts.slice_from_len_append.
    + intros (v & short & -> & -> & Hn). exists (common +:+ short), v.
      by rewrite StrFacts.slice_from_len_append.
  - intros name name' v v' Hn Hn'.
    destruct (Hnames _ _ Hn) as [short ->], (Hnames _ _ Hn') as [short' ->].
    rewrite !StrFacts.slice_from_len_append. by intros ->.
Qed.

(** The two dictionaries when nothing is cut. *)
Lemma int2str_dict_full (e : EnumDescriptor) :
  int2str_dict e 0 = kmap PyInt ((λ v, PyStr (ev_name v)) <$> values_by_number e).
Proof.
  apply map_eq. intros k. apply option_eq. intros x. unfold int2str_dict.
  rewrite int2str_dict_lookup, lookup_kmap_Some by apply _. split.
  - intros (n & v & -> & -> & Hn). exists n. split; [done|].
    rewrite lookup_fmap, Hn. done.
  - intros (n & -> & (v & <- & Hn)%lookup_fmap_Some). by exists n, v.
Qed.

Lemma str2int_dict_full (e : EnumDescriptor) :
  str2int_dict e 0 = kmap PyStr ((λ v, PyInt (ev_number v)) <$> values_by_name e).
Proof.
  apply map_eq. intros k. apply option_eq. intros x. unfold str2int_dict.
  rewrite str2int_dict_lookup, lookup_kmap_Some by (apply _ || done). split.
  - intros (name & v & -> & -> & Hn). exists name. split; [done|].
    rewrite lookup_fmap, Hn. done.
  - intros (name & -> & (v & <- & Hn)%lookup_fmap_Some). by exists name, v.
Qed.

(** In an enum without aliases, when cutting keeps the names apart, each
    of the two dictionaries is the other one read backwards. *)
Lemma enum_dicts_inverse (e : EnumDescriptor) (threshold : Z) :
  alias_free e →
  (∀ v v', v ∈ enum_values e → v' ∈ enum_values e →
     Str.slice_from threshold (ev_name v) = Str.slice_from threshold (ev_name v') →
     ev_name v = ev_name v') →
  ∀ k x, int2str_dict e threshold !! k = Some x ↔ str2int_dict e threshold !! x = Some k.
Proof.
  intros Hfree Hinj k x. unfold int2str_dict, str2int_dict.
  rewrite int2str_dict_lookup, str2int_dict_lookup.
  - split.
    + intros (n & v & -> & -> & Hn).
      destruct (values_by_number_lookup _ _ _ Hn) as [Hin <-].
      exists (ev_name v), v. split_and!; [done..|]. by apply values_by_name_alias_free.
    + intros (name & v & -> & -> & Hn).
      destruct (values_by_name_lookup _ _ _ Hn) as [Hin <-].
      exists (ev_number v), v. split_and!; [done..|]. by apply values_by_number_alias_free.
  - intros name name' v v' [Hv <-]%values_by_name_lookup [Hv' <-]%values_by_name_lookup.
    by apply Hinj.
Qed.

Lemma strip_keeps_names_apart (common a b : string) :
  Str.startswith a common = true → Str.startswith b common = true →
  Str.slice_from (Str.len common) a = Str.slice_from (Str.len common) b → a = b.
Proof.
  intros [ra ->]%StrFacts.startswith_inv [rb ->]%StrFacts.startswith_inv.
  rewrite !StrFacts.slice_from_len_append. by intros ->.
Qed.

(** X7. With an explicit prefix that every value name starts with,
    [create_enum_dict] returns without a warning: [int2str] sends each
    number to the name of its value without the prefix, and [str2int] each
    name without the prefix to the number of its value. *)
Theorem create_enum_dict_explicit_prefix_strip (e : EnumDescriptor) (prefix : string) :
  (∀ v, v ∈ enum_values e → Str.startswith (ev_name v) prefix = true) →
  ∃ int2str str2int : gmap pyval pyval,
    create_enum_dict e "int2str" (Some prefix) = ([], Ok int2str)
    ∧ create_enum_dict e "str2int" (Some prefix) = ([], Ok str2int)
    ∧ (∀ k x, int2str !! k = Some x ↔
         ∃ n v short, k = PyInt n ∧ x = PyStr short
           ∧ values_by_number e !! n = Some v
           ∧ ev_name v = prefix +:+ short)
    ∧ (∀ k x, str2int !! k = Some x ↔
         ∃ v short, k = PyStr short ∧ x = PyInt (ev_number v)
           ∧ values_by_name e !! (prefix +:+ short) = Some v)
    ∧ (alias_free e → ∀ v short, v ∈ enum_values e →
         ev_name v = prefix +:+ short →
         int2str !! PyInt (ev_number v) = Some (PyStr short)
         ∧ str2int !! PyStr short = Some (PyInt (ev_number v))).
Proof.
  intros Hall.
  destruct (create_enum_dict_fits e (Some prefix)) as (Hi & Hs & _);
    [by apply all_true_iff|].
  eexists _, _. split_and!; [exact Hi | exact Hs | | |].
  - by apply int2str_dict_strip.
  - by apply str2int_dict_strip.
  - intros Hfree v short Hin Hname. split.
    + apply (int2str_dict_strip e prefix Hall). exists (ev_number v), v, short.
      split_and!; [done..| |done]. by apply values_by_number_alias_free.
    + apply (str2int_dict_strip e prefix Hall). exists v, short. split_and!; [done..|].
      rewrite <- Hname. by apply values_by_name_alias_free.
Qed.

(** X6. With the empty string as explicit prefix, [create_enum_dict]
    never raises and never warns, and the names are the full ones. *)
Theorem create_enum_dict_empty_prefix (e : EnumDescriptor) :
  create_enum_dict e "int2str" (Some EmptyString)
  = ([], Ok (kmap PyInt ((λ v, PyStr (ev_name v)) <$> values_by_number e)))
  ∧ create_enum_dict e "str2int" (Some EmptyString)
    = ([], Ok (kmap PyStr ((λ v, PyInt (ev_number v)) <$> values_by_name e))).
Proof.
  destruct (create_enum_dict_fits e (Some EmptyString)) as (Hi & Hs & _).
  { by apply all_true_iff. }
  rewrite Hi, Hs. change (Str.len (common_prefix e (Some EmptyString))) with 0.
  by rewrite int2str_dict_full, str2int_dict_full.
Qed.

(** X8. For a mode other than ["int2str"] and ["str2int"],
    [create_enum_dict] raises the [ValueError] of the unknown mode once the
    check of the prefix is passed: after the warning, when no prefix was
    given and the derived one does not fit. *)
Theorem create_enum_dict_unknown_mode (e : EnumDescriptor) (mode : string)
    (prefix : option string) :
  mode ≠ "int2str" → mode ≠ "str2int" →
  (prefix = None
   ∨ ∀ v, v ∈ enum_values e → Str.startswith (ev_name v) (common_prefix e prefix) = true) →
  create_enum_dict e mode prefix
  = (if all (λ value, Str.startswith (ev_name value) (common_prefix e prefix))
            (enum_values e)
     then [] else [missing_prefix_warning e],
     Raise (ValueError ("Unknown mode " +:+ Repr.repr mode))).
Proof.
  intros H1 H2 Hprefix.
  destruct (all _ (enum_values e)) eqn:Hall.
  - by apply create_enum_dict_fits.
  - destruct Hprefix as [->|Hfit].
    + by apply create_enum_dict_derived_misfit.
    + apply all_true_iff in Hfit. congruence.
Qed.

(** X9. For an enum without aliases, the two dictionaries that
    [create_enum_dict] returns for a prefix are each the other one read
    backwards, and the two calls emit the same warnings. *)
Theorem create_enum_dict_inverse (e : EnumDescriptor) (prefix : option string)
    (ws ws' : list warning) (int2str str2int : gmap pyval pyval) :
  alias_free e →
  create_enum_dict e "int2str" prefix = (ws, Ok int2str) →
  create_enum_dict e "str2int" prefix = (ws', Ok str2int) →
  ws = ws' ∧ ∀ k x, int2str !! k = Some x ↔ str2int !! x = Some k.
Proof.
  intros Hfree.
  destruct (all (λ value, Str.startswith (ev_name value) (common_prefix e prefix))
              (enum_values e)) eqn:Hall.
  - destruct (create_enum_dict_fits e prefix Hall) as (-> & -> & _).
    intros [= <- <-] [= <- <-]. split; [done|].
    apply enum_dicts_inverse; [done|]. intros v v' Hv Hv'.
    apply all_true_iff with (x := v) in Hall as Hsv; [|done].
    apply all_true_iff with (x := v') in Hall as Hsv'; [|done].
    by apply strip_keeps_names_apart.
  - destruct prefix as [p|].
    + by rewrite (create_enum_dict_explicit_misfit e _ p Hall).
    + destruct (create_enum_dict_derived_misfit e Hall) as (-> & -> & _).
      intros [= <- <-] [= <- <-]. split; [done|].
      apply enum_dicts_inverse; [done|]. by intros v v' _ _.
Qed.

(** X10. For an enum without values, [create_enum_dict] returns the
    empty dictionary in both modes, whatever the prefix: no explicit prefix
    is refused, and nothing is warned about. *)
Theorem create_enum_dict_no_values (e : EnumDescriptor) (prefix : option string) :
  enum_values e = [] →
  create_enum_dict e "int2str" prefix = ([], Ok ∅)
  ∧ create_enum_dict e "str2int" prefix = ([], Ok ∅).
Proof.
  intros He. destruct (create_enum_dict_fits e prefix) as (-> & -> & _).
  { by rewrite He. }
  unfold int2str_dict, str2int_dict, values_by_number, values_by_name. rewrite He.
  cbn [map reverse]. unfold dict_of_items at 2 4. cbn [foldl].
  by rewrite map_to_list_empty.
Qed.

(** ** What every step of a registration keeps *)

Section Steps.

Context {pyclass ast lambda : Type}.
Context (astcast : Astcast pyclass ast lambda) (pool : gmap ref (Descriptor pyclass)).
Context (R : World pyclass lambda → World pyclass lambda → Prop).
Context (R_refl : ∀ w, R w w) (R_trans : ∀ w1 w2 w3, R w1 w2 → R w2 w3 → R w1 w3).

Lemma always_stepwise : stepwise (always R).
Proof. split; unfold always; [done | eauto]. Qed.

Lemma respects_try_finally {A} (body : M pyclass lambda A) (cleanup : M pyclass lambda unit) :
  respects (always R) body → respects (always R) cleanup →
  respects (always R) (try_finally body cleanup).
Proof.
  intros Hbody Hcleanup w w' r. unfold try_finally.
  destruct (body w) as [[w1 r1]|] eqn:Hw; [|done].
  destruct (cleanup w1) as [[w2 [[]|e]]|] eqn:Hw1; [| |done];
    intros [= <- <-]; (eapply R_trans; [exact (Hbody _ _ _ Hw) | exact (Hcleanup _ _ _ Hw1)]).
Qed.

(** A list of calls, each of which keeps the relation. *)
Lemma register_all_always fuel calls w w' :
  (∀ call, respects (always R) (register astcast pool fuel call)) →
  register_all astcast pool fuel calls w = Some w' → R w w'.
Proof.
  intros Hcall. revert w. induction calls as [|call calls IH]; intros w.
  - by intros [= <-].
  - cbn [register_all].
    destruct (register astcast pool fuel call w) as [[w1 r]|] eqn:Hw; [|done].
    intros Hrest. eapply R_trans; [exact (Hcall _ _ _ _ Hw) | by apply IH].
Qed.

(** In a loop that returned, each round returned, in a world that the
    relation links to the first one and to the last one. *)
Lemma for_each_Ok_elem {A} (xs : list A) (body : A → M pyclass lambda unit) w w' :
  (∀ x, respects (always R) (body x)) →
  for_each xs body w = Some (w', Ok ()) →
  ∀ x, x ∈ xs → ∃ wa wb, R w wa ∧ body x wa = Some (wb, Ok ()) ∧ R wb w'.
Proof.
  intros Hbody. revert w. induction xs as [|y xs IH]; intros w Hrun x Hx.
  { by apply elem_of_nil in Hx. }
  rewrite for_each_cons in Hrun.
  apply bind_Some in Hrun as [(e & _ & [=]) | ([] & w1 & Hy & Hrest)].
  apply elem_of_cons in Hx as [->|Hx].
  - exists w, w1. split_and!; [done | done |].
    apply (respects_for_each (always R) always_stepwise xs body
             (λ z _, Hbody z) _ _ _ Hrest).
  - destruct (IH _ Hrest _ Hx) as (wa & wb & Ha & Hb & Hc).
    exists wa, wb. split_and!; [|done..].
    eapply R_trans; [exact (Hbody _ _ _ _ Hy) | done].
Qed.

Section Messages.

Context (R_m2p : ∀ w key value, R w (update_namespace (assign_m2p key value) w)).
Context (R_p2m : ∀ w key value, R w (update_namespace (assign_p2m key value) w)).
Context (R_f2p : ∀ w key value, R w (update_namespace (assign_f2p key value) w)).
Context (R_p2f : ∀ w key value, R w (update_namespace (assign_p2f key value) w)).
Context (R_c : ∀ w key value, R w (update_namespace (assign_c key value) w)).
Context (R_registering : ∀ w f, R w (update_registering f w)).
Context (R_log : ∀ w name, R w (add_compiled name w)).

Lemma register_field_type_with_always (rec : ref → M pyclass lambda unit) field :
  (∀ mt, respects (always R) (rec mt)) →
  respects (always R) (register_field_type_with astcast pool rec field).
Proof.
  intros Hrec. pose proof always_stepwise as HR.
  unfold register_field_type_with. unbind. apply respects_bind; [done | |].
  - destruct (field_message_type field) as [mt|]; [|by apply respects_ret].
    destruct (pool !! mt) as [desc|]; [|by apply respects_undefined].
    apply respects_bind; [done | by apply respects_get_registering |].
    intros registering. destruct (negb _); [apply Hrec | by apply respects_ret].
  - intros _. apply respects_for_each; [done|]. intros [[registry msg] enum] _.
    apply respects_bind; [done | by apply respects_get_namespace |]. intros ns.
    apply respects_bind; [done | by apply respects_lift |]. intros return_ast.
    apply respects_bind; [done | by apply respects_lift |]. intros f.
    destruct registry; apply respects_with_namespace; intros w; [apply R_f2p | apply R_p2f].
Qed.

Lemma register_message_type_always fuel mt :
  respects (always R) (register_message_type astcast pool fuel mt).
Proof.
  pose proof always_stepwise as HR.
  revert mt. induction fuel as [|fuel IH]; intros mt; [by apply respects_undefined|].
  cbn [register_message_type]. destruct (pool !! mt) as [desc|];
    [|by apply respects_undefined].
  unbind. apply respects_bind; [done | by apply respects_get_namespace |]. intros ns.
  case_decide; [by apply respects_ret|].
  apply respects_bind; [done | |].
  { apply respects_with_registering. intros w. apply R_registering. }
  intros _. apply respects_try_finally.
  - apply respects_bind; [done | |].
    { intros w w' r [= <- <-]. apply R_log. }
    intros _. apply respects_bind; [done | by apply respects_get_namespace |]. intros ns1.
    apply respects_bind; [done | by apply respects_lift |]. intros input_ast.
    apply respects_bind; [done | by apply respects_lift |]. intros return_ast.
    apply respects_bind; [done | by apply respects_lift |]. intros f.
    apply respects_bind; [done | |].
    { apply respects_with_namespace. intros w. apply R_m2p. }
    intros _. apply respects_bind; [done | by apply respects_get_namespace |]. intros ns2.
    apply respects_bind; [done | by apply respects_lift |]. intros return_ast'.
    apply respects_bind; [done | by apply respects_lift |]. intros f'.
    apply respects_bind; [done | |].
    { apply respects_with_namespace. intros w. apply R_p2m. }
    intros _. apply respects_bind; [done | |].
    { apply respects_for_each; [done|]. intros field _.
      by apply register_field_type_with_always. }
    intros _. apply respects_bind; [done | by apply respects_lift |]. intros cls.
    apply respects_with_namespace. intros w. apply R_c.
  - unfold registering_remove. unbind.
    apply respects_bind; [done | by apply respects_get_registering |]. intros registering.
    case_decide; [|by apply respects_lift].
    apply respects_with_registering. intros w. apply R_registering.
Qed.

End Messages.

Section Enums.

Context (R_i2s : ∀ w key value, R w (update_namespace (assign_i2s key value) w)).
Context (R_s2i : ∀ w key value, R w (update_namespace (assign_s2i key value) w)).
Context (R_warn : ∀ w ws, R w (add_warnings ws w)).

Lemma register_enum_type_always enum_type :
  respects (always R) (register_enum_type (pyclass := pyclass) (lambda := lambda) enum_type).
Proof.
  pose proof always_stepwise as HR.
  assert (Hdict : ∀ mode, respects (always R)
            (run_create_enum_dict (pyclass := pyclass) (lambda := lambda)
               enum_type mode None)).
  { intros mode. unfold run_create_enum_dict.
    destruct (create_enum_dict enum_type mode None) as [ws r]. unbind.
    apply (respects_bind _ HR); [|intros; by apply respects_lift].
    apply respects_emit. intros w. apply R_warn. }
  unfold register_enum_type. unbind.
  apply (respects_bind _ HR); [apply Hdict|]. intros int2str.
  apply (respects_bind _ HR).
  { apply respects_with_namespace. intros w. apply R_i2s. }
  intros _. apply (respects_bind _ HR); [apply Hdict|]. intros str2int.
  apply respects_with_namespace. intros w. apply R_s2i.
Qed.

End Enums.

End Steps.

(** ** Keys, and the two sides of the registry *)

Section Sides.

Context {pyclass ast lambda : Type}.
Context (astcast : Astcast pyclass ast lambda) (pool : gmap ref (Descriptor pyclass)).
Implicit Types (w : World pyclass lambda).

Lemma keeps_keys_refl w : keeps_keys w w.
Proof. by repeat split. Qed.

Lemma keeps_keys_trans w1 w2 w3 : keeps_keys w1 w2 → keeps_keys w2 w3 → keeps_keys w1 w3.
Proof.
  intros (E1 & A1 & B1 & C1 & D1 & F1 & G1 & H1) (E2 & A2 & B2 & C2 & D2 & F2 & G2 & H2).
  split; [congruence|]. split_and!; etrans; done.
Qed.

Lemma dom_insert_grows {V} (m : gmap string V) key value : dom m ⊆ dom (<[key := value]> m).
Proof. rewrite dom_insert_L. apply union_subseteq_r. Qed.

Ltac keys_step :=
  intros; repeat split; simpl; try done; apply dom_insert_grows.

Lemma register_message_type_keeps_keys fuel mt :
  respects (always keeps_keys) (register_message_type astcast pool fuel mt).
Proof.
  apply register_message_type_always;
    [exact keeps_keys_refl | exact keeps_keys_trans | keys_step..].
Qed.

Lemma register_field_type_keeps_keys fuel field :
  respects (always keeps_keys) (register_field_type astcast pool fuel field).
Proof.
  apply register_field_type_with_always;
    [exact keeps_keys_refl | exact keeps_keys_trans | keys_step.. |].
  intros mt. apply register_message_type_keeps_keys.
Qed.

Lemma register_enum_type_keeps_keys enum_type :
  respects (always keeps_keys)
    (register_enum_type (pyclass := pyclass) (lambda := lambda) enum_type).
Proof.
  apply register_enum_type_always;
    [exact keeps_keys_refl | exact keeps_keys_trans | keys_step..].
Qed.

Lemma register_keeps_keys fuel call :
  respects (always keeps_keys) (register astcast pool fuel call).
Proof.
  destruct call as [enum_type|mt|field]; simpl.
  - apply register_enum_type_keeps_keys.
  - apply register_message_type_keeps_keys.
  - apply register_field_type_keeps_keys.
Qed.

(** X12. Whatever the sequence of registration calls, and whichever of
    them raise, no registry of the namespace loses a key, and the dict
    class stays. *)
Theorem registration_keeps_keys fuel calls w w' :
  register_all astcast pool fuel calls w = Some w' →
  d (namespace_of w') = d (namespace_of w)
  ∧ dom (m2p (namespace_of w)) ⊆ dom (m2p (namespace_of w'))
  ∧ dom (p2m (namespace_of w)) ⊆ dom (p2m (namespace_of w'))
  ∧ dom (f2p (namespace_of w)) ⊆ dom (f2p (namespace_of w'))
  ∧ dom (p2f (namespace_of w)) ⊆ dom (p2f (namespace_of w'))
  ∧ dom (i2s (namespace_of w)) ⊆ dom (i2s (namespace_of w'))
  ∧ dom (s2i (namespace_of w)) ⊆ dom (s2i (namespace_of w'))
  ∧ dom (c (namespace_of w)) ⊆ dom (c (namespace_of w')).
Proof.
  apply (register_all_always astcast pool keeps_keys keeps_keys_refl keeps_keys_trans).
  apply register_keeps_keys.
Qed.

Lemma same_enum_side_refl w : same_enum_side w w.
Proof. by repeat split. Qed.

Lemma same_enum_side_trans w1 w2 w3 :
  same_enum_side w1 w2 → same_enum_side w2 w3 → same_enum_side w1 w3.
Proof. intros (A1 & B1 & C1 & D1) (A2 & B2 & C2 & D2). split_and!; congruence. Qed.

Lemma register_message_type_same_enum_side fuel mt :
  respects (always same_enum_side) (register_message_type astcast pool fuel mt).
Proof.
  apply register_message_type_always;
    [exact same_enum_side_refl | exact same_enum_side_trans | by intros..].
Qed.

(** X13. [register_message_type] and [register_field_type], whether
    they return or raise, leave the two enum registries and the dict class
    as they are and emit no warning. *)
Theorem message_registration_leaves_enum_side fuel w w' r :
  (∀ mt, register_message_type astcast pool fuel mt w = Some (w', r) →
     d (namespace_of w') = d (namespace_of w)
     ∧ i2s (namespace_of w') = i2s (namespace_of w)
     ∧ s2i (namespace_of w') = s2i (namespace_of w)
     ∧ warned w' = warned w)
  ∧ (∀ field, register_field_type astcast pool fuel field w = Some (w', r) →
       d (namespace_of w') = d (namespace_of w)
       ∧ i2s (namespace_of w') = i2s (namespace_of w)
       ∧ s2i (namespace_of w') = s2i (namespace_of w)
       ∧ warned w' = warned w).
Proof.
  split.
  - intros mt. apply register_message_type_same_enum_side.
  - intros field.
    apply (register_field_type_with_always astcast pool same_enum_side
             same_enum_side_refl same_enum_side_trans); [by intros.. |].
    intros mt'. apply register_message_type_same_enum_side.
Qed.

Lemma same_message_side_refl w : same_message_side w w.
Proof. by repeat split. Qed.

Lemma same_message_side_trans w1 w2 w3 :
  same_message_side w1 w2 → same_message_side w2 w3 → same_message_side w1 w3.
Proof.
  intros (A1 & B1 & C1 & D1 & E1 & F1 & G1 & H1) (A2 & B2 & C2 & D2 & E2 & F2 & G2 & H2).
  split_and!; congruence.
Qed.

Lemma register_enum_type_same_message_side enum_type :
  respects (always same_message_side)
    (register_enum_type (pyclass := pyclass) (lambda := lambda) enum_type).
Proof.
  apply register_enum_type_always;
    [exact same_message_side_refl | exact same_message_side_trans | by intros..].
Qed.

End Sides.

Section Enum.

Context {pyclass lambda : Type}.
Implicit Types (w : World pyclass lambda).

Lemma register_enum_type_returns (enum_type : EnumDescriptor) w :
  ∃ w', register_enum_type enum_type w = Some (w', Ok ()).
Proof.
  unfold register_enum_type, run_create_enum_dict.
  destruct (all (λ value, Str.startswith (ev_name value) (derived_prefix enum_type))
              (enum_values enum_type)) eqn:Hall.
  - destruct (create_enum_dict_fits enum_type None Hall) as (Hi & Hs & _).
    rewrite Hi, Hs. by eexists.
  - destruct (create_enum_dict_derived_misfit enum_type Hall) as (Hi & Hs & _).
    rewrite Hi, Hs. by eexists.
Qed.

(** X11. [register_enum_type] always returns. It stores the two
    dictionaries that [create_enum_dict] makes with the derived prefix
    under the full name of the enum, replacing what was there; it calls
    [warnings.warn] twice, once for each dictionary, when the derived
    prefix does not fit, and not at all when it does; and it leaves the
    registries of messages and fields, the messages in progress and the
    log as they are. *)
Theorem register_enum_type_stores (enum_type : EnumDescriptor) w :
  ∃ (ws : list warning) (int2str str2int : gmap pyval pyval) w',
    create_enum_dict enum_type "int2str" None = (ws, Ok int2str)
    ∧ create_enum_dict enum_type "str2int" None = (ws, Ok str2int)
    ∧ (ws = [] ∨ ws = [missing_prefix_warning enum_type])
    ∧ register_enum_type enum_type w = Some (w', Ok ())
    ∧ i2s (namespace_of w')
      = <[enum_full_name enum_type := int2str]> (i2s (namespace_of w))
    ∧ s2i (namespace_of w')
      = <[enum_full_name enum_type := str2int]> (s2i (namespace_of w))
    ∧ warned w' = warned w ++ ws ++ ws
    ∧ same_message_side w w'.
Proof.
  assert (Hrun : ∀ ws int2str str2int,
    create_enum_dict enum_type "int2str" None = (ws, Ok int2str) →
    create_enum_dict enum_type "str2int" None = (ws, Ok str2int) →
    ∃ w', register_enum_type enum_type w = Some (w', Ok ())
      ∧ i2s (namespace_of w')
        = <[enum_full_name enum_type := int2str]> (i2s (namespace_of w))
      ∧ s2i (namespace_of w')
        = <[enum_full_name enum_type := str2int]> (s2i (namespace_of w))
      ∧ warned w' = warned w ++ ws ++ ws
      ∧ same_message_side w w').
  { intros ws int2str str2int Hi Hs.
    unfold register_enum_type, run_create_enum_dict. rewrite Hi, Hs.
    eexists. split; [reflexivity|]. split_and!; [done | done | | by repeat split].
    simpl. by rewrite app_assoc. }
  destruct (all (λ value, Str.startswith (ev_name value) (derived_prefix enum_type))
              (enum_values enum_type)) eqn:Hall.
  - destruct (create_enum_dict_fits enum_type None Hall) as (Hi & Hs & _).
    destruct (Hrun _ _ _ Hi Hs) as (w' & H).
    eexists _, _, _, w'. split_and!; [exact Hi | exact Hs | by left | apply H..].
  - destruct (create_enum_dict_derived_misfit enum_type Hall) as (Hi & Hs & _).
    destruct (Hrun _ _ _ Hi Hs) as (w' & H).
    eexists _, _, _, w'. split_and!; [exact Hi | exact Hs | by right | apply H..].
Qed.

End Enum.

(** ** Fields *)

Section Fields.

Context {pyclass ast lambda : Type}.
Context (astcast : Astcast pyclass ast lambda) (pool : gmap ref (Descriptor pyclass)).
Implicit Types (w : World pyclass lambda).

Lemma bind_congr_r {A B} (m : M pyclass lambda A) (f f' : A → M pyclass lambda B) w :
  (∀ a w1, f a w1 = f' a w1) → bind m f w = bind m f' w.
Proof. intros Hf. unfold bind. by destruct (m w) as [[w1 [a|e]]|]. Qed.

(** The loop over the two field registries. *)
Lemma field_converters_run field w :
  for_each [(F2P, "m2p", "i2s"); (P2F, "p2m", "s2i")]
    (λ '(registry, msg_regname, enum_regname),
       bind get_namespace (λ ns,
         bind (lift (field_cast_ast astcast msg_regname enum_regname field "value"))
           (λ return_ast,
              bind (lift (create_lambda astcast return_ast "value"
                            ("<" +:+ msg_regname +:+ "/" +:+ field_full_name field +:+ ">")
                            ns))
                (λ f, set_field_registry registry (field_full_name field) (Lambda f))))) w
  = field_converters astcast field w.
Proof.
  unfold field_converters, field_cast_lambda. rewrite !for_each_cons.
  rewrite bind_assoc, bind_get_namespace.
  destruct (field_cast_ast astcast "m2p" "i2s" field "value") as [return_ast|e]; [|done].
  rewrite bind_assoc, bind_lift_Ok.
  destruct (create_lambda astcast return_ast "value" _ (namespace_of w)) as [f|e]; [|done].
  rewrite bind_assoc, bind_lift_Ok. unfold set_field_registry at 1, set_f2p.
  rewrite bind_with_namespace.
  set (w2 := update_namespace _ w).
  rewrite bind_assoc, bind_get_namespace.
  destruct (field_cast_ast astcast "p2m" "s2i" field "value") as [return_ast'|e]; [|done].
  rewrite bind_assoc, bind_lift_Ok.
  destruct (create_lambda astcast return_ast' "value" _ (namespace_of w2)) as [g|e]; [|done].
  rewrite bind_assoc, bind_lift_Ok. reflexivity.
Qed.

Lemma register_field_type_with_halves (rec : ref → M pyclass lambda unit) field w :
  register_field_type_with astcast pool rec field w
  = bind (nested_registration pool rec field) (λ _, field_converters astcast field) w.
Proof.
  unfold register_field_type_with. unbind.
  change (match field_message_type field with
          | Some mt =>
              match pool !! mt with
              | Some mt_descriptor =>
                  bind get_registering (λ registering,
                    if negb (map_entry mt_descriptor || bool_decide (mt ∈ registering))
                    then rec mt else ret ())
              | None => undefined
              end
          | None => ret ()
          end) with (nested_registration pool rec field).
  apply bind_congr_r. intros [] w1. apply field_converters_run.
Qed.

Lemma nested_registration_skipped (rec : ref → M pyclass lambda unit) field w :
  (∀ mt, field_message_type field = Some mt →
     ∃ desc, pool !! mt = Some desc ∧ (map_entry desc = true ∨ mt ∈ registering_of w)) →
  nested_registration pool rec field w = Some (w, Ok ()).
Proof.
  intros Hfield. unfold nested_registration.
  destruct (field_message_type field) as [mt|]; [|done].
  destruct (Hfield mt eq_refl) as (desc & -> & Hskip).
  rewrite bind_get_registering.
  destruct Hskip as [->|Hin]; [done|].
  by rewrite (bool_decide_eq_true_2 _ Hin), orb_true_r.
Qed.

(** X16. For a field without a message type, or whose message type is
    a map entry or is being registered, [register_field_type] registers no
    message, whatever the recursion budget: it ends, and touches nothing
    but the two converters of the field. When it returns both are there;
    when it raises, the converter to protobuf is the one from before. *)
Theorem register_field_type_without_nested fuel field w :
  (∀ mt, field_message_type field = Some mt →
     ∃ desc, pool !! mt = Some desc ∧ (map_entry desc = true ∨ mt ∈ registering_of w)) →
  ∃ w' r,
    register_field_type astcast pool fuel field w = Some (w', r)
    ∧ same_enum_side w w'
    ∧ m2p (namespace_of w') = m2p (namespace_of w)
    ∧ p2m (namespace_of w') = p2m (namespace_of w)
    ∧ c (namespace_of w') = c (namespace_of w)
    ∧ registering_of w' = registering_of w
    ∧ compiled w' = compiled w
    ∧ (∀ key, key ≠ field_full_name field →
         f2p (namespace_of w') !! key = f2p (namespace_of w) !! key
         ∧ p2f (namespace_of w') !! key = p2f (namespace_of w) !! key)
    ∧ (r = Ok () →
         ∃ f g, f2p (namespace_of w') !! field_full_name field = Some (Lambda f)
                ∧ p2f (namespace_of w') !! field_full_name field = Some (Lambda g))
    ∧ (∀ e, r = Raise e → p2f (namespace_of w') = p2f (namespace_of w)).
Proof.
  intros Hfield. unfold register_field_type.
  rewrite register_field_type_with_halves. unfold bind.
  rewrite nested_registration_skipped by done.
  unfold field_converters.
  destruct (field_cast_lambda astcast "m2p" "i2s" field (namespace_of w)) as [f|e].
  2:{ eexists _, _. split; [reflexivity|]. by repeat split. }
  cbn zeta.
  destruct (field_cast_lambda astcast "p2m" "s2i" field _) as [g|e].
  - eexists _, _. split; [reflexivity|]. split_and!; try done.
    + intros key Hkey. simpl. by rewrite !lookup_insert_ne.
    + intros _. exists f, g. simpl. by rewrite !lookup_insert_eq.
  - eexists _, _. split; [reflexivity|]. split_and!; try done.
    intros key Hkey. simpl. by rewrite lookup_insert_ne.
Qed.

End Fields.

(** ** Sequences of calls, continued *)

Section Sequences.

Context {pyclass ast lambda : Type}.
Context (astcast : Astcast pyclass ast lambda) (pool : gmap ref (Descriptor pyclass)).
Implicit Types (w : World pyclass lambda).

Lemma register_same_registering fuel call w w' r :
  (∀ mt, call = RegisterMessage mt → mt ∉ registering_of w) →
  register astcast pool fuel call w = Some (w', r) →
  registering_of w' = registering_of w.
Proof.
  intros Hfree. destruct call as [enum_type|mt|field]; simpl.
  - intros Hrun. by apply (register_enum_type_same_message_side enum_type _ _ _ Hrun).
  - apply register_message_type_registering. by apply Hfree.
  - apply (register_field_type_with_registering astcast pool). intros mt w0 w0' r0.
    apply register_message_type_registering.
Qed.

(** X17. Between the calls of a user no message is in progress: from a
    world where none is, no sequence of registration calls, returning or
    raising, leaves one. *)
Theorem register_all_none_in_progress fuel calls w w' :
  registering_of w = ∅ →
  register_all astcast pool fuel calls w = Some w' →
  registering_of w' = ∅.
Proof.
  revert w. induction calls as [|call calls IH]; intros w Hw.
  - by intros [= <-].
  - cbn [register_all].
    destruct (register astcast pool fuel call w) as [[w1 r]|] eqn:Hcall; [|done].
    apply IH. rewrite <- Hw. eapply register_same_registering; [|exact Hcall].
    intros mt _. rewrite Hw. apply not_elem_of_empty.
Qed.

(** Each call ends, with the same outcome for any fuel above the number
    of messages without a converter. *)
Lemma register_defined call w :
  pool_closed pool → call_in_pool pool call →
  ∃ w1 r, ∀ fuel, (unregistered pool w < fuel)%nat →
    register astcast pool fuel call w = Some (w1, r).
Proof.
  intros Hclosed Hcall. destruct call as [enum_type|mt|field]; simpl in *.
  - destruct (register_enum_type_returns enum_type w) as [w1 H].
    by exists w1, (Ok ()).
  - destruct (register_message_type_defined astcast pool (S (unregistered pool w)) mt w
                Hclosed Hcall) as [[w1 r] Hrun]; [lia|].
    exists w1, r. intros fuel Hfuel.
    apply (register_message_type_fuel_le astcast pool (S (unregistered pool w)) fuel);
      [lia | done].
  - destruct (register_field_type_with_defined astcast pool
                (register_message_type astcast pool (S (unregistered pool w))) field w)
      as [[w1 r] Hrun].
    { intros mt Hmt. split; [by apply Hcall|].
      apply register_message_type_defined; [done | by apply Hcall | lia]. }
    exists w1, r. intros fuel Hfuel. unfold register_field_type.
    apply (refines_register_field_type_with astcast pool
             (register_message_type astcast pool (S (unregistered pool w)))); [|done].
    intros mt. apply register_message_type_fuel_le. lia.
Qed.

(** X18. In a finite and closed schema graph every sequence of calls of
    [register_enum_type], [register_message_type] and
    [register_field_type] on descriptors of the graph ends, and any fuel
    above the number of messages without a converter leads to the same
    world. *)
Theorem register_all_terminates calls w :
  pool_closed pool → Forall (call_in_pool pool) calls →
  ∃ w', ∀ fuel, (unregistered pool w < fuel)%nat →
    register_all astcast pool fuel calls w = Some w'.
Proof.
  intros Hclosed Hcalls. revert w.
  induction Hcalls as [|call calls Hcall _ IH]; intros w.
  - by exists w.
  - destruct (register_defined call w Hclosed Hcall) as (w1 & r & Hrun).
    destruct (IH w1) as (w' & Hrest). exists w'. intros fuel Hfuel.
    cbn [register_all]. rewrite Hrun by done. apply Hrest.
    destruct (register_keeps_keys astcast pool _ _ _ _ _ (Hrun _ Hfuel)) as (_ & Hdom & _).
    pose proof (unregistered_mono pool _ _ Hdom). lia.
Qed.

End Sequences.

(** ** What a registration of a message leaves behind *)

Section Outcome.

Context {pyclass ast lambda : Type}.
Context (astcast : Astcast pyclass ast lambda) (pool : gmap ref (Descriptor pyclass)).
Implicit Types (w : World pyclass lambda).

Lemma field_converters_Ok field w w' :
  field_converters astcast field w = Some (w', Ok ()) →
  field_full_name field ∈ dom (f2p (namespace_of w'))
  ∧ field_full_name field ∈ dom (p2f (namespace_of w'))
  ∧ m2p (namespace_of w') = m2p (namespace_of w).
Proof.
  unfold field_converters.
  destruct (field_cast_lambda astcast "m2p" "i2s" field (namespace_of w)) as [f|e]; [|done].
  cbn zeta. destruct (field_cast_lambda astcast "p2m" "s2i" field _) as [g|e]; [|done].
  intros [= <-]. simpl. rewrite !dom_insert_L. split_and!; [| |done].
  - apply elem_of_union_l. by apply elem_of_singleton.
  - apply elem_of_union_l. by apply elem_of_singleton.
Qed.

(** A registration of a field that returned: the two converters of the
    field are there, and so is the converter of its message type, unless
    that is a map entry or was in progress. *)
Lemma register_field_type_with_Ok fuel field wa wb :
  register_field_type_with astcast pool (register_message_type astcast pool fuel) field wa
  = Some (wb, Ok ()) →
  field_full_name field ∈ dom (f2p (namespace_of wb))
  ∧ field_full_name field ∈ dom (p2f (namespace_of wb))
  ∧ ∀ mt' desc', field_message_type field = Some mt' → pool !! mt' = Some desc' →
      map_entry desc' = false → mt' ∉ registering_of wa →
      full_name desc' ∈ dom (m2p (namespace_of wb)).
Proof.
  rewrite register_field_type_with_halves.
  intros [(e & _ & [=]) | ([] & wm & Hnested & Hconv)]%bind_Some.
  destruct (field_converters_Ok _ _ _ Hconv) as (H1 & H2 & H3).
  split_and!; [done..|]. intros mt' desc' Hfield Hpool Hentry Hfree.
  unfold nested_registration in Hnested. rewrite Hfield, Hpool in Hnested.
  rewrite bind_get_registering, Hentry in Hnested.
  rewrite (bool_decide_eq_false_2 _ Hfree) in Hnested. simpl in Hnested.
  rewrite H3. by eapply register_message_type_registered.
Qed.

Lemma keys_and_registering_fields fuel field :
  respects (always (λ w w', keeps_keys w w' ∧ registering_of w' = registering_of w))
    (register_field_type_with astcast pool (register_message_type astcast pool fuel) field).
Proof.
  intros w w' r Hrun. split.
  - by apply (register_field_type_keeps_keys astcast pool fuel field _ _ _ Hrun).
  - apply (register_field_type_with_registering astcast pool _ field
             (λ mt w0 w0' r0, register_message_type_registering astcast pool fuel mt w0 w0' r0)
             _ _ _ Hrun).
Qed.

(** X14. A call of [register_message_type] that returns, for a message
    without a message-to-container converter, leaves the message
    registered completely: its two converters are the function objects
    that [create_lambda] made (the first from the enum registry and the
    namespace of before the call, the second in the namespace with the
    first), its constructor is the concrete class, each of its fields has
    its two converters, and the message type of each field has a
    message-to-container converter, unless it is a map entry or was in
    progress before the call. [proto2py] and [py2proto] then run the two
    function objects. *)
Theorem register_message_type_complete fuel mt desc w w' :
  pool !! mt = Some desc →
  full_name desc ∉ dom (m2p (namespace_of w)) →
  register_message_type astcast pool fuel mt w = Some (w', Ok ()) →
  ∃ (to_python to_message : lambda) (cls : pyclass),
    (∃ input_ast return_ast,
        message2dict_ast astcast mt "msg" (i2s (namespace_of w)) "f2p" = Ok input_ast
        ∧ wrap_call_ast astcast "d" input_ast = Ok return_ast
        ∧ create_lambda astcast return_ast "msg" ("<m2p/" +:+ full_name desc +:+ ">")
            (namespace_of w) = Ok to_python)
    ∧ (∃ return_ast,
          dict2message_ast astcast mt "data" "c" "p2f" = Ok return_ast
          ∧ create_lambda astcast return_ast "data" ("<p2m/" +:+ full_name desc +:+ ">")
              (assign_m2p (full_name desc) (Lambda to_python) (namespace_of w))
            = Ok to_message)
    ∧ _concrete_class desc = Ok cls
    ∧ m2p (namespace_of w') !! full_name desc = Some (Lambda to_python)
    ∧ p2m (namespace_of w') !! full_name desc = Some (Lambda to_message)
    ∧ c (namespace_of w') !! full_name desc = Some cls
    ∧ (∀ field, field ∈ fields desc →
         field_full_name field ∈ dom (f2p (namespace_of w'))
         ∧ field_full_name field ∈ dom (p2f (namespace_of w')))
    ∧ (∀ field mt' desc', field ∈ fields desc →
         field_message_type field = Some mt' → pool !! mt' = Some desc' →
         map_entry desc' = false → mt' ∉ registering_of w →
         full_name desc' ∈ dom (m2p (namespace_of w')))
    ∧ (∀ (pyobj : Type) (getattr : pyobj → string → result pyobj)
         (run_lambda : lambda → Namespace pyclass lambda → pyobj → result pyobj)
         (message_full_name : pyobj → string) (class_full_name : pyclass → string)
         (message data : pyobj) (message_cls : pyclass),
         (message_full_name message = full_name desc →
            proto2py getattr run_lambda message_full_name (registry w') message
            = run_lambda to_python (namespace_of w') message)
         ∧ (class_full_name message_cls = full_name desc →
              py2proto getattr run_lambda class_full_name (registry w') message_cls data
              = run_lambda to_message (namespace_of w') data)).
Proof.
  intros Hmt Hfresh. destruct fuel as [|fuel]; [done|].
  cbn [register_message_type]. rewrite Hmt. unbind. rewrite bind_get_namespace.
  rewrite decide_False by done.
  unfold registering_add. rewrite bind_with_registering.
  set (w1 := update_registering _ w).
  unfold try_finally.
  destruct (bind (log_compiled _) _ w1) as [[w2 r2]|] eqn:Hbody; [|done].
  intros Hrun.
  assert (Hclean : namespace_of w' = namespace_of w2 ∧ r2 = Ok ()).
  { unfold registering_remove in Hrun. unbind. rewrite bind_get_registering in Hrun.
    case_decide; simpl in Hrun; simplify_eq; done. }
  destruct Hclean as [Hns ->]. clear Hrun.
  rewrite bind_log_compiled, bind_get_namespace in Hbody.
  destruct (message2dict_ast _ _ _ _ _) as [input_ast|e] eqn:Hast1; [|done].
  rewrite bind_lift_Ok in Hbody.
  destruct (wrap_call_ast _ _ _) as [return_ast|e] eqn:Hast2; [|done].
  rewrite bind_lift_Ok in Hbody.
  destruct (create_lambda _ _ _ _ _) as [f|e] eqn:Hf; [|done].
  rewrite bind_lift_Ok in Hbody. unfold set_m2p at 1 in Hbody.
  rewrite bind_with_namespace in Hbody.
  set (w3 := update_namespace _ _) in Hbody.
  rewrite bind_get_namespace in Hbody.
  destruct (dict2message_ast _ _ _ _ _) as [return_ast'|e] eqn:Hast3; [|done].
  rewrite bind_lift_Ok in Hbody.
  destruct (create_lambda _ return_ast' _ _ _) as [f'|e] eqn:Hf'; [|done].
  rewrite bind_lift_Ok in Hbody. unfold set_p2m at 1 in Hbody.
  rewrite bind_with_namespace in Hbody.
  set (w4 := update_namespace _ w3) in Hbody.
  apply bind_Some in Hbody as [(e & _ & [=]) | ([] & w5 & Hloop & Hrest)].
  destruct (_concrete_class desc) as [cls|e] eqn:Hcls; [|done].
  rewrite bind_lift_Ok in Hrest. injection Hrest as <-.
  (* the slots of the message, from the loop over the fields on *)
  assert (Hslots : same_message_slots {[full_name desc]} w4 w5).
  { assert (Hgrows : grows {[full_name desc]} true w4 w5).
    { change true with (is_ok (Ok ())).
      apply (respects_for_each (grows {[full_name desc]})
               (grows_stepwise {[full_name desc]}) (fields desc)
               (register_field_type_with astcast pool (register_message_type astcast pool fuel))
               (λ field _, register_field_type_with_grows astcast pool {[full_name desc]}
                  (register_message_type astcast pool fuel) field
                  (λ mt', register_message_type_grows astcast pool {[full_name desc]} fuel mt'))
               _ _ _ Hloop). }
    apply Hgrows. simpl. rewrite dom_insert_L.
    intros x ->%elem_of_singleton. apply elem_of_union_l. by apply elem_of_singleton. }
  destruct (Hslots (full_name desc)) as (Hm & Hp & _); [by apply elem_of_singleton|].
  assert (Hm2p : m2p (namespace_of w') !! full_name desc = Some (Lambda f)).
  { rewrite Hns. simpl. change (m2p (namespace_of w5) !! full_name desc = Some (Lambda f)).
    rewrite Hm. simpl. apply lookup_insert_eq. }
  assert (Hp2m : p2m (namespace_of w') !! full_name desc = Some (Lambda f')).
  { rewrite Hns. simpl. change (p2m (namespace_of w5) !! full_name desc = Some (Lambda f')).
    rewrite Hp. simpl. apply lookup_insert_eq. }
  (* the fields *)
  assert (Hkeys : keeps_keys w5 w').
  { unfold keeps_keys. rewrite Hns. repeat split; simpl; try done.
    apply dom_insert_grows. }
  pose proof (for_each_Ok_elem
    (λ w0 w0', keeps_keys w0 w0' ∧ registering_of w0' = registering_of w0)
    (λ w0, conj (keeps_keys_refl w0) eq_refl)
    (λ wx wy wz Hxy Hyz,
       conj (keeps_keys_trans _ _ _ (proj1 Hxy) (proj1 Hyz))
            (eq_trans (proj2 Hyz) (proj2 Hxy)))
    (fields desc)
    (register_field_type_with astcast pool (register_message_type astcast pool fuel))
    w4 w5 (keys_and_registering_fields fuel) Hloop) as Hfields.
  exists f, f', cls. split_and!; [| | done | done | done | | | |].
  - exists input_ast, return_ast. split_and!; [done | exact Hast2 | exact Hf].
  - exists return_ast'. split; [done | exact Hf'].
  - rewrite Hns. simpl. apply lookup_insert_eq.
  - intros field Hfield.
    destruct (Hfields _ Hfield) as (wa & wb & _ & Hrun & [Hb _]).
    destruct (register_field_type_with_Ok _ _ _ _ Hrun) as (H1 & H2 & _).
    pose proof (keeps_keys_trans _ _ _ Hb Hkeys) as (_ & _ & _ & Hf2p & Hp2f & _).
    split; [by apply Hf2p | by apply Hp2f].
  - intros field mt' desc' Hfield Hmt' Hpool Hentry Hfree.
    destruct (decide (mt' = mt)) as [->|Hne].
    { assert (desc' = desc) as -> by congruence.
      apply elem_of_dom. by rewrite Hm2p. }
    destruct (Hfields _ Hfield) as (wa & wb & [_ Ha] & Hrun & [Hb _]).
    destruct (register_field_type_with_Ok _ _ _ _ Hrun) as (_ & _ & Hnested).
    pose proof (keeps_keys_trans _ _ _ Hb Hkeys) as (_ & Hdom & _).
    apply Hdom, (Hnested mt' desc'); [done..|].
    rewrite Ha. change (registering_of w4) with ({[mt]} ∪ registering_of w).
    rewrite elem_of_union, elem_of_singleton. by intros [?|?].
  - intros pyobj getattr run_lambda message_full_name class_full_name message data
      message_cls. split.
    + intros Hname. unfold proto2py.
      change (_namespace (registry w')) with (namespace_of w'). by rewrite Hname, Hm2p.
    + intros Hname. unfold py2proto.
      change (_namespace (registry w')) with (namespace_of w'). by rewrite Hname, Hp2m.
Qed.

End Outcome.

(** ** A registration that raises *)

Section Raising.

Context {pyclass ast lambda : Type}.
Context (astcast : Astcast pyclass ast lambda) (pool : gmap ref (Descriptor pyclass)).
Implicit Types (w : World pyclass lambda).

Lemma register_message_type_unfold fuel mt desc w :
  pool !! mt = Some desc →
  full_name desc ∉ dom (m2p (namespace_of w)) →
  register_message_type astcast pool (S fuel) mt w
  = try_finally
      (registration_body astcast pool (register_message_type astcast pool fuel) mt desc)
      (registering_remove mt)
      (update_registering (λ s, {[mt]} ∪ s) w).
Proof.
  intros Hmt Hfresh. cbn [register_message_type]. rewrite Hmt. unbind.
  rewrite bind_get_namespace. by rewrite decide_False.
Qed.

Lemma registration_body_registering fuel mt desc :
  respects same_registering
    (registration_body astcast pool (register_message_type astcast pool fuel) mt desc).
Proof.
  pose proof (same_registering_stepwise (pyclass := pyclass) (lambda := lambda)) as HR.
  unfold registration_body. cbn zeta.
  apply (respects_bind _ HR); [by intros ??? [= <- <-] |]. intros _.
  apply (respects_bind _ HR); [by apply respects_get_namespace |]. intros ns.
  apply (respects_bind _ HR); [by apply respects_lift |]. intros input_ast.
  apply (respects_bind _ HR); [by apply respects_lift |]. intros return_ast.
  apply (respects_bind _ HR); [by apply respects_lift |]. intros f.
  apply (respects_bind _ HR); [by apply respects_with_namespace |]. intros _.
  apply (respects_bind _ HR); [by apply respects_get_namespace |]. intros ns'.
  apply (respects_bind _ HR); [by apply respects_lift |]. intros return_ast'.
  apply (respects_bind _ HR); [by apply respects_lift |]. intros f'.
  apply (respects_bind _ HR); [by apply respects_with_namespace |]. intros _.
  apply (respects_bind _ HR).
  { apply respects_for_each; [done|]. intros field _.
    apply register_field_type_with_registering. intros mt' w0 w0' r0.
    apply register_message_type_registering. }
  intros _. apply (respects_bind _ HR); [by apply respects_lift |]. intros cls.
  by apply respects_with_namespace.
Qed.

(** X15. [register_message_type] does not roll back. When it raises for
    a message without a message-to-container converter, either the first
    converter could not be generated and the registry is as before the
    call, or the message-to-container converter is there while the
    constructor slot is the one from before; in that case a further call
    for the message returns at once and changes nothing. *)
Theorem register_message_type_no_rollback fuel mt desc w w' e :
  pool !! mt = Some desc →
  full_name desc ∉ dom (m2p (namespace_of w)) →
  mt ∉ registering_of w →
  register_message_type astcast pool fuel mt w = Some (w', Raise e) →
  (registry w' = registry w ∧ warned w' = warned w)
  ∨ (full_name desc ∈ dom (m2p (namespace_of w'))
     ∧ c (namespace_of w') !! full_name desc = c (namespace_of w) !! full_name desc
     ∧ ∀ fuel', register_message_type astcast pool (S fuel') mt w' = Some (w', Ok ())).
Proof.
  intros Hmt Hfresh Hfree. destruct fuel as [|fuel]; [done|].
  rewrite (register_message_type_unfold fuel mt desc) by done.
  set (w1 := update_registering _ w). unfold try_finally.
  destruct (registration_body _ _ _ _ _ w1) as [[w2 r2]|] eqn:Hbody; [|done].
  pose proof (registration_body_registering _ _ _ _ _ _ Hbody) as Hreg.
  unfold same_registering in Hreg.
  unfold registering_remove. unbind. rewrite bind_get_registering.
  rewrite decide_True.
  2:{ rewrite Hreg. apply elem_of_union_l. by apply elem_of_singleton. }
  intros [= <- ->].
  assert (Hback : registering_of w2 ∖ {[mt]} = registering_of w).
  { rewrite Hreg. apply set_eq. intros x.
    change (registering_of w1) with ({[mt]} ∪ registering_of w).
    rewrite elem_of_difference, elem_of_union, elem_of_singleton. split.
    - by intros [[->|Hx] Hne].
    - intros Hx. split; [by right|]. by intros ->. }
  assert (Hguard : full_name desc ∈ dom (m2p (namespace_of w2)) →
    ∀ fuel', register_message_type astcast pool (S fuel') mt
               (update_registering (λ s, s ∖ {[mt]}) w2)
             = Some (update_registering (λ s, s ∖ {[mt]}) w2, Ok ())).
  { intros Hin fuel'. cbn [register_message_type]. rewrite Hmt. unbind.
    rewrite bind_get_namespace. by rewrite decide_True. }
  assert (Hsame : namespace_of w2 = namespace_of w → warned w2 = warned w →
    registry (update_registering (λ s, s ∖ {[mt]}) w2) = registry w
    ∧ warned (update_registering (λ s, s ∖ {[mt]}) w2) = warned w).
  { intros Hns Hwarned. split; [|done]. simpl. rewrite Hns, Hback.
    by destruct w as [[ns reg] wd cp]. }
  unfold registration_body in Hbody. cbn zeta in Hbody.
  rewrite bind_log_compiled, bind_get_namespace in Hbody.
  destruct (message2dict_ast _ _ _ _ _) as [input_ast|e1].
  2:{ rewrite bind_lift_Raise in Hbody. injection Hbody as <- _. left. by apply Hsame. }
  rewrite bind_lift_Ok in Hbody.
  destruct (wrap_call_ast _ _ _) as [return_ast|e1].
  2:{ rewrite bind_lift_Raise in Hbody. injection Hbody as <- _. left. by apply Hsame. }
  rewrite bind_lift_Ok in Hbody.
  destruct (create_lambda _ _ _ _ _) as [f|e1].
  2:{ rewrite bind_lift_Raise in Hbody. injection Hbody as <- _. left. by apply Hsame. }
  rewrite bind_lift_Ok in Hbody. unfold set_m2p at 1 in Hbody.
  rewrite bind_with_namespace in Hbody.
  set (w3 := update_namespace _ _) in Hbody.
  right.
  assert (H3 : full_name desc ∈ dom (m2p (namespace_of w3))).
  { simpl. rewrite dom_insert_L. apply elem_of_union_l. by apply elem_of_singleton. }
  assert (Hdone : dom (m2p (namespace_of w3)) ⊆ dom (m2p (namespace_of w2)) →
    c (namespace_of w2) !! full_name desc = c (namespace_of w) !! full_name desc →
    full_name desc ∈ dom (m2p (namespace_of w2))
    ∧ c (namespace_of w2) !! full_name desc = c (namespace_of w) !! full_name desc
    ∧ ∀ fuel', register_message_type astcast pool (S fuel') mt
                 (update_registering (λ s, s ∖ {[mt]}) w2)
               = Some (update_registering (λ s, s ∖ {[mt]}) w2, Ok ())).
  { intros Hdom Hc. split_and!; [by apply Hdom | done |]. apply Hguard. by apply Hdom. }
  rewrite bind_get_namespace in Hbody.
  destruct (dict2message_ast _ _ _ _ _) as [return_ast'|e1].
  2:{ rewrite bind_lift_Raise in Hbody. injection Hbody as <- _. by apply Hdone. }
  rewrite bind_lift_Ok in Hbody.
  destruct (create_lambda _ return_ast' _ _ _) as [f'|e1].
  2:{ rewrite bind_lift_Raise in Hbody. injection Hbody as <- _. by apply Hdone. }
  rewrite bind_lift_Ok in Hbody. unfold set_p2m at 1 in Hbody.
  rewrite bind_with_namespace in Hbody.
  set (w4 := update_namespace _ w3) in Hbody.
  assert (Hloop : ∀ w5 r5,
    for_each (fields desc)
      (register_field_type_with astcast pool (register_message_type astcast pool fuel)) w4
    = Some (w5, r5) →
    dom (m2p (namespace_of w3)) ⊆ dom (m2p (namespace_of w5))
    ∧ c (namespace_of w5) !! full_name desc = c (namespace_of w) !! full_name desc).
  { intros w5 r5 Hrun.
    assert (Hgrows : grows {[full_name desc]} (is_ok r5) w4 w5).
    { apply (respects_for_each (grows {[full_name desc]})
               (grows_stepwise {[full_name desc]}) (fields desc)
               (register_field_type_with astcast pool (register_message_type astcast pool fuel))
               (λ field _, register_field_type_with_grows astcast pool {[full_name desc]}
                  (register_message_type astcast pool fuel) field
                  (λ mt', register_message_type_grows astcast pool {[full_name desc]} fuel mt'))
               _ _ _ Hrun). }
    destruct Hgrows as [Hdom Hslots _]; [by intros x ->%elem_of_singleton|].
    destruct (Hslots (full_name desc)) as (_ & _ & Hc); [by apply elem_of_singleton|].
    by split. }
  apply bind_Some in Hbody as [(e1 & Hrun & _) | ([] & w5 & Hrun & Hrest)].
  - destruct (Hloop _ _ Hrun). by apply Hdone.
  - destruct (Hloop _ _ Hrun). destruct (_concrete_class desc) as [cls|e1]; [done|].
    rewrite bind_lift_Raise in Hrest. injection Hrest as <- _. by apply Hdone.
Qed.

End Raising.

(** ** Construction, continued *)

Section Built.

Context {pyclass ast lambda : Type}.
Context (astcast : Astcast pyclass ast lambda) (pool : gmap ref (Descriptor pyclass)).
Implicit Types (w : World pyclass lambda).

Lemma init_parts dict_cls :
  __init__ astcast dict_cls
  = bind (for_each (GOOGLE_PROTOBUF_WRAPPERS astcast) (wrapper_round astcast))
      (λ _, for_each google_complex_types named_fail_round)
      (blank_with_null_value dict_cls).
Proof. reflexivity. Qed.

Lemma same_key_same_value {V} (items : list (string * V)) (key : string) (v v' : V) :
  NoDup items.*1 → (key, v) ∈ items → (key, v') ∈ items → v = v'.
Proof.
  intros Hnd H1 H2.
  apply (elem_of_list_to_map_1 (M := gmap string) _ _ _ Hnd) in H1, H2. congruence.
Qed.

Lemma same_but_messages_refl w : same_but_messages w w.
Proof. by repeat split. Qed.

Lemma same_but_messages_trans w1 w2 w3 :
  same_but_messages w1 w2 → same_but_messages w2 w3 → same_but_messages w1 w3.
Proof.
  intros (A1 & B1 & C1 & D1 & E1 & F1 & G1 & H1) (A2 & B2 & C2 & D2 & E2 & F2 & G2 & H2).
  split_and!; congruence.
Qed.

(** The loop over the unsupported types, for any list of names: it
    returns, and it assigns the two converters of each name. *)
Lemma named_fail_rounds (names : list string) w :
  ∃ w', for_each names named_fail_round w = Some (w', Ok ())
    ∧ same_but_messages w w'
    ∧ c (namespace_of w') = c (namespace_of w)
    ∧ (∀ key, key ∉ ((λ name, "google.protobuf." +:+ name) <$> names) →
         m2p (namespace_of w') !! key = m2p (namespace_of w) !! key
         ∧ p2m (namespace_of w') !! key = p2m (namespace_of w) !! key)
    ∧ (∀ key, key ∈ ((λ name, "google.protobuf." +:+ name) <$> names) →
         m2p (namespace_of w') !! key = Some (PartialFail key)
         ∧ p2m (namespace_of w') !! key = Some (PartialFail key)).
Proof.
  revert w. induction names as [|name names IH]; intros w.
  { exists w. split_and!; [done | by repeat split | done | done |].
    by intros key ?%elem_of_nil. }
  set (w1 := update_namespace
               (assign_p2m ("google.protobuf." +:+ name)
                  (PartialFail ("google.protobuf." +:+ name)))
               (update_namespace
                  (assign_m2p ("google.protobuf." +:+ name)
                     (PartialFail ("google.protobuf." +:+ name))) w)).
  destruct (IH w1) as (w' & Hrun & Hsame & Hc & Hframe & Hvalues).
  exists w'. split_and!.
  - rewrite for_each_cons. exact Hrun.
  - apply (same_but_messages_trans w w1 w'); [by repeat split | done].
  - by rewrite Hc.
  - intros key [Hne Hkey]%not_elem_of_cons. destruct (Hframe key Hkey) as [-> ->].
    simpl. by rewrite !lookup_insert_ne.
  - intros key Hkey.
    destruct (decide (key ∈ (λ name, "google.protobuf." +:+ name) <$> names)) as [|Hout].
    { by apply Hvalues. }
    apply elem_of_cons in Hkey as [->|?]; [|done].
    destruct (Hframe _ Hout) as [-> ->]. simpl. by rewrite !lookup_insert_eq.
Qed.

(** A round of the loop over the wrapper types that returned. *)
Lemma wrapper_round_Ok (full_name : string) (wrapper : pyclass) w w1 :
  wrapper_round astcast (full_name, wrapper) w = Some (w1, Ok ()) →
  same_but_messages w w1
  ∧ ∃ f, namespace_of w1
         = assign_p2m full_name (Lambda f)
             (assign_m2p full_name (AttrGetter "value")
                (assign_c full_name wrapper (namespace_of w))).
Proof.
  unfold wrapper_round. unfold set_c, set_m2p. rewrite !bind_with_namespace.
  rewrite bind_get_namespace.
  destruct (wrapper2message_ast astcast full_name "arg" "c") as [return_ast|e]; [|done].
  rewrite bind_lift_Ok.
  destruct (create_lambda _ _ _ _ _) as [f|e]; [|done].
  rewrite bind_lift_Ok. intros [= <-]. split; [by repeat split|]. by exists f.
Qed.

Lemma wrapper_rounds (wrappers : list (string * pyclass)) w w' :
  for_each wrappers (wrapper_round astcast) w = Some (w', Ok ()) →
  same_but_messages w w'
  ∧ (∀ key, key ∉ wrappers.*1 →
       m2p (namespace_of w') !! key = m2p (namespace_of w) !! key
       ∧ p2m (namespace_of w') !! key = p2m (namespace_of w) !! key
       ∧ c (namespace_of w') !! key = c (namespace_of w) !! key)
  ∧ (∀ key, key ∈ wrappers.*1 →
       m2p (namespace_of w') !! key = Some (AttrGetter "value")
       ∧ (∃ f, p2m (namespace_of w') !! key = Some (Lambda f))
       ∧ ∃ wrapper, (key, wrapper) ∈ wrappers ∧ c (namespace_of w') !! key = Some wrapper).
Proof.
  revert w. induction wrappers as [|[full_name wrapper] wrappers IH]; intros w.
  { intros [= <-]. split_and!; [by repeat split | done |]. by intros key ?%elem_of_nil. }
  rewrite for_each_cons.
  intros [(e & _ & [=]) | ([] & w1 & Hround & Hrest)]%bind_Some.
  destruct (wrapper_round_Ok _ _ _ _ Hround) as (Hsame1 & f & Hns).
  destruct (IH _ Hrest) as (Hsame & Hframe & Hvalues).
  split_and!.
  - by apply (same_but_messages_trans w w1 w').
  - intros key [Hne Hkey]%not_elem_of_cons. simpl in Hne.
    destruct (Hframe key Hkey) as (-> & -> & ->). rewrite Hns. simpl.
    by rewrite !lookup_insert_ne.
  - intros key Hkey. destruct (decide (key ∈ wrappers.*1)) as [Hin|Hout].
    { destruct (Hvalues key Hin) as (? & ? & cls & ? & ?). split_and!; [done..|].
      exists cls. split; [by right | done]. }
    apply elem_of_cons in Hkey as [->|?]; [|done].
    destruct (Hframe _ Hout) as (-> & -> & ->). rewrite Hns. simpl.
    rewrite !lookup_insert_eq. split_and!; [done | by exists f |].
    exists wrapper. split; [by left | done].
Qed.

(** The world after construction, by the two loops. *)
Lemma init_Ok dict_cls w :
  __init__ astcast dict_cls = Some (w, Ok ()) →
  same_but_messages (blank_with_null_value dict_cls) w
  ∧ (∀ key, key ∈ google_complex_full_names →
       m2p (namespace_of w) !! key = Some (PartialFail key)
       ∧ p2m (namespace_of w) !! key = Some (PartialFail key))
  ∧ (∀ key, key ∉ google_complex_full_names →
       key ∈ (GOOGLE_PROTOBUF_WRAPPERS astcast).*1 →
       m2p (namespace_of w) !! key = Some (AttrGetter "value")
       ∧ ∃ f, p2m (namespace_of w) !! key = Some (Lambda f))
  ∧ (∀ key, key ∉ google_complex_full_names →
       key ∉ (GOOGLE_PROTOBUF_WRAPPERS astcast).*1 →
       m2p (namespace_of w) !! key = None ∧ p2m (namespace_of w) !! key = None)
  ∧ (∀ key, key ∈ (GOOGLE_PROTOBUF_WRAPPERS astcast).*1 →
       ∃ wrapper, (key, wrapper) ∈ GOOGLE_PROTOBUF_WRAPPERS astcast
                  ∧ c (namespace_of w) !! key = Some wrapper)
  ∧ (∀ key, key ∉ (GOOGLE_PROTOBUF_WRAPPERS astcast).*1 → c (namespace_of w) !! key = None).
Proof.
  rewrite init_parts.
  intros [(e & _ & [=]) | ([] & w3 & Hwrappers & Hcomplex)]%bind_Some.
  destruct (wrapper_rounds _ _ _ Hwrappers) as (Hsame1 & Hframe1 & Hvalues1).
  destruct (named_fail_rounds google_complex_types w3)
    as (w' & Hrun & Hsame2 & Hc & Hframe2 & Hvalues2).
  rewrite Hcomplex in Hrun. injection Hrun as <-.
  split_and!.
  - by apply (same_but_messages_trans _ w3 w).
  - exact Hvalues2.
  - intros key Hout Hin. destruct (Hframe2 key Hout) as [-> ->].
    destruct (Hvalues1 key Hin) as (? & ? & _). done.
  - intros key Hout Hout'. destruct (Hframe2 key Hout) as [-> ->].
    destruct (Hframe1 key Hout') as (-> & -> & _). done.
  - intros key Hin. rewrite Hc. by apply Hvalues1.
  - intros key Hout. rewrite Hc. destruct (Hframe1 key Hout) as (_ & _ & ->). done.
Qed.

(** The message slots of the names that have a message-to-container
    converter, through a list of calls. *)
Lemma register_all_message_slots fuel calls w w' :
  register_all astcast pool fuel calls w = Some w' →
  same_message_slots (dom (m2p (namespace_of w))) w w'.
Proof.
  revert w. induction calls as [|call calls IH]; intros w Hrun name Hname.
  { by injection Hrun as <-. }
  cbn [register_all] in Hrun.
  destruct (register astcast pool fuel call w) as [[w1 r]|] eqn:Hcall; [|done].
  destruct (register_grows astcast pool (dom (m2p (namespace_of w))) _ _ _ _ _ Hcall)
    as [Hdom Hslots _]; [done|].
  destruct (Hslots _ Hname) as (E1 & E2 & E3).
  destruct (IH _ Hrun name) as (F1 & F2 & F3); [by apply Hdom|].
  split_and!; congruence.
Qed.

(** X19. After construction the registry has the given dict class, no
    field converter, the enum [google.protobuf.NullValue] alone in each
    of the two enum registries, no message in progress and no warning;
    the names with a converter, in either direction, are those of the
    wrapper types and of the unsupported types, and the names with a
    constructor those of the wrapper types. *)
Theorem construction_state dict_cls w :
  __init__ astcast dict_cls = Some (w, Ok ()) →
  d (namespace_of w) = dict_cls
  ∧ f2p (namespace_of w) = ∅
  ∧ p2f (namespace_of w) = ∅
  ∧ i2s (namespace_of w) = {[ "google.protobuf.NullValue" := {[ PyInt 0 := PyNone ]} ]}
  ∧ s2i (namespace_of w) = {[ "google.protobuf.NullValue" := {[ PyNone := PyInt 0 ]} ]}
  ∧ registering_of w = ∅
  ∧ warned w = []
  ∧ compiled w = []
  ∧ (∀ name, name ∈ dom (m2p (namespace_of w))
       ↔ name ∈ (GOOGLE_PROTOBUF_WRAPPERS astcast).*1 ∨ name ∈ google_complex_full_names)
  ∧ dom (p2m (namespace_of w)) = dom (m2p (namespace_of w))
  ∧ (∀ name, name ∈ dom (c (namespace_of w))
       ↔ name ∈ (GOOGLE_PROTOBUF_WRAPPERS astcast).*1).
Proof.
  intros Hinit.
  destruct (init_Ok _ _ Hinit) as (Hsame & Hcomplex & Hwrappers & Hnone & Hc & Hcnone).
  destruct Hsame as (-> & -> & -> & -> & -> & -> & -> & ->).
  assert (Hcases : ∀ name,
    (is_Some (m2p (namespace_of w) !! name)
       ↔ name ∈ (GOOGLE_PROTOBUF_WRAPPERS astcast).*1 ∨ name ∈ google_complex_full_names)
    ∧ (is_Some (p2m (namespace_of w) !! name)
       ↔ name ∈ (GOOGLE_PROTOBUF_WRAPPERS astcast).*1 ∨ name ∈ google_complex_full_names)).
  { intros name.
    destruct (decide (name ∈ google_complex_full_names)) as [Hin|Hout].
    { destruct (Hcomplex _ Hin) as [-> ->]. split; (split; [by right | done]). }
    destruct (decide (name ∈ (GOOGLE_PROTOBUF_WRAPPERS astcast).*1)) as [Hin|Hout'].
    { destruct (Hwrappers _ Hout Hin) as [-> [f ->]]. split; (split; [by left | done]). }
    destruct (Hnone _ Hout Hout') as [-> ->].
    split; (split; [by intros [? ?] | by intros [?|?]]). }
  split_and!; try done.
  - intros name. rewrite elem_of_dom. apply Hcases.
  - apply set_eq. intros name. rewrite !elem_of_dom.
    destruct (Hcases name) as [-> ->]. done.
  - intros name. rewrite elem_of_dom.
    destruct (decide (name ∈ (GOOGLE_PROTOBUF_WRAPPERS astcast).*1)) as [Hin|Hout].
    + destruct (Hc _ Hin) as (cls & _ & ->). done.
    + rewrite (Hcnone _ Hout). split; [by intros [? ?] | done].
Qed.

(** X20. After construction and any sequence of registration calls, a
    wrapper type that is not one of the unsupported types has the
    attribute getter of [value] as message-to-container converter, a
    function object of [create_lambda] as converter back and (the keys of
    the table of wrappers being distinct) its wrapper class as
    constructor; [proto2py] of such a message reads its attribute
    [value]. *)
Theorem wrapper_types_converters dict_cls fuel calls w0 w name wrapper :
  __init__ astcast dict_cls = Some (w0, Ok ()) →
  register_all astcast pool fuel calls w0 = Some w →
  (name, wrapper) ∈ GOOGLE_PROTOBUF_WRAPPERS astcast →
  name ∉ google_complex_full_names →
  m2p (namespace_of w) !! name = Some (AttrGetter "value")
  ∧ (∃ f, p2m (namespace_of w) !! name = Some (Lambda f))
  ∧ (NoDup (GOOGLE_PROTOBUF_WRAPPERS astcast).*1 →
       c (namespace_of w) !! name = Some wrapper)
  ∧ ∀ (pyobj : Type) (getattr : pyobj → string → result pyobj)
      (run_lambda : lambda → Namespace pyclass lambda → pyobj → result pyobj)
      (message_full_name : pyobj → string) (message : pyobj),
      message_full_name message = name →
      proto2py getattr run_lambda message_full_name (registry w) message
      = getattr message "value".
Proof.
  intros Hinit Hcalls Hwrapper Hout.
  destruct (init_Ok _ _ Hinit) as (_ & _ & Hwrappers & _ & Hc & _).
  assert (Hin : name ∈ (GOOGLE_PROTOBUF_WRAPPERS astcast).*1).
  { apply list_elem_of_fmap. by exists (name, wrapper). }
  destruct (Hwrappers _ Hout Hin) as [Hm [f Hp]].
  destruct (register_all_message_slots _ _ _ _ Hcalls name) as (E1 & E2 & E3).
  { apply elem_of_dom. by rewrite Hm. }
  assert (Hm' : m2p (namespace_of w) !! name = Some (AttrGetter "value")) by congruence.
  split_and!.
  - done.
  - exists f. congruence.
  - intros Hnd. destruct (Hc _ Hin) as (wrapper' & Hin' & Hc').
    rewrite E3, Hc'. f_equal. by apply (same_key_same_value (GOOGLE_PROTOBUF_WRAPPERS astcast) name).
  - intros pyobj getattr run_lambda message_full_name message Hname. unfold proto2py.
    change (_namespace (registry w)) with (namespace_of w). by rewrite Hname, Hm'.
Qed.

(** X21. After construction and any sequence of registration calls,
    [proto2py] and [py2proto] raise [NotImplementedError] with the full
    name for each of the seven unsupported types: registering the
    descriptor of such a type changes nothing. *)
Theorem unsupported_types_stay dict_cls fuel calls w0 w name :
  __init__ astcast dict_cls = Some (w0, Ok ()) →
  register_all astcast pool fuel calls w0 = Some w →
  name ∈ google_complex_types →
  ∀ (pyobj : Type) (getattr : pyobj → string → result pyobj)
    (run_lambda : lambda → Namespace pyclass lambda → pyobj → result pyobj),
    (∀ (message_full_name : pyobj → string) (message : pyobj),
       message_full_name message = "google.protobuf." +:+ name →
       proto2py getattr run_lambda message_full_name (registry w) message
       = Raise (NotImplementedError ("google.protobuf." +:+ name)))
    ∧ (∀ (class_full_name : pyclass → string) (message_cls : pyclass) (data : pyobj),
         class_full_name message_cls = "google.protobuf." +:+ name →
         py2proto getattr run_lambda class_full_name (registry w) message_cls data
         = Raise (NotImplementedError ("google.protobuf." +:+ name))).
Proof.
  intros Hinit Hcalls Hname.
  destruct (init_Ok _ _ Hinit) as (_ & Hcomplex & _).
  destruct (Hcomplex ("google.protobuf." +:+ name)) as [Hm Hp].
  { apply list_elem_of_fmap. by exists name. }
  destruct (register_all_message_slots _ _ _ _ Hcalls ("google.protobuf." +:+ name))
    as (E1 & E2 & _).
  { apply elem_of_dom. by rewrite Hm. }
  rewrite Hm in E1. rewrite Hp in E2.
  intros pyobj getattr run_lambda. split.
  - intros message_full_name message Hmessage. unfold proto2py.
    change (_namespace (registry w)) with (namespace_of w). by rewrite Hmessage, E1.
  - intros class_full_name message_cls data Hcls. unfold py2proto.
    change (_namespace (registry w)) with (namespace_of w). by rewrite Hcls, E2.
Qed.

End Built.

(** ** Fields with a message type, and types without a converter *)

Section Nested.

Context {pyclass ast lambda : Type}.
Context (astcast : Astcast pyclass ast lambda) (pool : gmap ref (Descriptor pyclass)).
Implicit Types (w : World pyclass lambda).

(** X23. When [register_field_type] returns, the two converters of the
    field are there, the messages in progress are those of before the
    call, and the message type of the field has a message-to-container
    converter, unless it is a map entry or was in progress: the field
    registers its message type. *)
Theorem register_field_type_registers_nested fuel field w w' :
  register_field_type astcast pool fuel field w = Some (w', Ok ()) →
  field_full_name field ∈ dom (f2p (namespace_of w'))
  ∧ field_full_name field ∈ dom (p2f (namespace_of w'))
  ∧ registering_of w' = registering_of w
  ∧ ∀ mt desc, field_message_type field = Some mt → pool !! mt = Some desc →
      map_entry desc = false → mt ∉ registering_of w →
      full_name desc ∈ dom (m2p (namespace_of w')).
Proof.
  intros Hrun. unfold register_field_type in Hrun.
  destruct (register_field_type_with_Ok astcast pool _ _ _ _ Hrun) as (H1 & H2 & H3).
  split_and!; [done | done | | done].
  apply (register_field_type_with_registering astcast pool _ field
           (λ mt w0 w0' r0, register_message_type_registering astcast pool fuel mt w0 w0' r0)
           _ _ _ Hrun).
Qed.

(** X24. Right after construction, [proto2py] and [py2proto] raise
    [KeyError] with the full name for every type that is neither a
    wrapper type nor one of the unsupported types. *)
Theorem fresh_registry_key_error dict_cls w name :
  __init__ astcast dict_cls = Some (w, Ok ()) →
  name ∉ (GOOGLE_PROTOBUF_WRAPPERS astcast).*1 →
  name ∉ google_complex_full_names →
  ∀ (pyobj : Type) (getattr : pyobj → string → result pyobj)
    (run_lambda : lambda → Namespace pyclass lambda → pyobj → result pyobj),
    (∀ (message_full_name : pyobj → string) (message : pyobj),
       message_full_name message = name →
       proto2py getattr run_lambda message_full_name (registry w) message
       = Raise (KeyError (Repr.repr name)))
    ∧ (∀ (class_full_name : pyclass → string) (message_cls : pyclass) (data : pyobj),
         class_full_name message_cls = name →
         py2proto getattr run_lambda class_full_name (registry w) message_cls data
         = Raise (KeyError (Repr.repr name))).
Proof.
  intros Hinit Hwrapper Hcomplex.
  destruct (init_Ok _ _ _ Hinit) as (_ & _ & _ & Hnone & _).
  destruct (Hnone _ Hcomplex Hwrapper) as [Hm Hp].
  intros pyobj getattr run_lambda. split.
  - intros message_full_name message Hmessage. unfold proto2py.
    change (_namespace (registry w)) with (namespace_of w). by rewrite Hmessage, Hm.
  - intros class_full_name message_cls data Hcls. unfold py2proto.
    change (_namespace (registry w)) with (namespace_of w). by rewrite Hcls, Hp.
Qed.

End Nested.

(** ** The derived prefix *)

Lemma upper_lower_char (c : ascii) :
  Str.upper_char (Str.lower_char c) = Str.upper_char c.
Proof. each_ascii c; vm_compute; reflexivity. Qed.

Lemma upper_lower (s : string) : Str.upper (Str.lower s) = Str.upper s.
Proof.
  induction s as [|c s IH]; [done|]. cbn [Str.lower Str.upper].
  by rewrite upper_lower_char, IH.
Qed.

Lemma upper_append (a b : string) : Str.upper (a +:+ b) = Str.upper a +:+ Str.upper b.
Proof.
  induction a as [|x a IH]; [reflexivity|]. rewrite StrFacts.append_cons. cbn [Str.upper].
  rewrite StrFacts.append_cons. by f_equal.
Qed.

Lemma upper_join (sep : string) (parts : list string) :
  Str.upper (Str.join sep parts) = Str.join (Str.upper sep) (map Str.upper parts).
Proof.
  induction parts as [|p parts IH]; [done|].
  destruct parts as [|q parts]; [done|].
  change (Str.join sep (p :: q :: parts)) with (p +:+ sep +:+ Str.join sep (q :: parts)).
  rewrite !upper_append, IH. done.
Qed.

(** X25. For an enum whose name is made of PascalCase words, no two
    neighbouring ones being both a single character, the prefix that
    [create_enum_dict] derives is the upper-case words with an underscore
    after each. *)
Theorem derived_prefix_words (e : EnumDescriptor) (words : list string) :
  enum_name e = Str.join EmptyString words →
  forallb pascal_word words = true → no_adjacent_single words = true →
  derived_prefix e = Str.join "_" (map Str.upper words) +:+ "_".
Proof.
  intros Hname Hwords Hadj. unfold derived_prefix.
  rewrite Hname, pascal2snake_words by done.
  rewrite upper_join, map_map. f_equal. f_equal.
  apply map_ext. intros w. apply upper_lower.
Qed.

(** C7. Without an explicit prefix, the prefix is the upper-case
    snake_case form of the name of the enum with an underscore after it:
    the runs of [[A-Z][^A-Z]*] of the name, put together by the joining
    rule and upper-cased, which for a name made of PascalCase words (no
    two neighbouring ones being both a single character) is the
    upper-case words with an underscore after each. When every value name
    starts with it, [create_enum_dict] does what it does with that prefix
    given explicitly and returns without a warning: [int2str] sends each
    number to the name of its value without the prefix, and [str2int]
    each name without the prefix to the number of its value. *)
Theorem create_enum_dict_derived_prefix_strip (e : EnumDescriptor) :
  (∀ v, v ∈ enum_values e → Str.startswith (ev_name v) (derived_prefix e) = true) →
  derived_prefix e = Str.upper (join_runs (Str.findall_AZ_runs (enum_name e))) +:+ "_"
  ∧ (∀ words, enum_name e = Str.join EmptyString words →
       forallb pascal_word words = true → no_adjacent_single words = true →
       derived_prefix e = Str.join "_" (map Str.upper words) +:+ "_")
  ∧ (∀ mode, create_enum_dict e mode None
             = create_enum_dict e mode (Some (derived_prefix e)))
  ∧ ∃ int2str str2int : gmap pyval pyval,
      create_enum_dict e "int2str" None = ([], Ok int2str)
      ∧ create_enum_dict e "str2int" None = ([], Ok str2int)
      ∧ (∀ k x, int2str !! k = Some x ↔
           ∃ n v short, k = PyInt n ∧ x = PyStr short
             ∧ values_by_number e !! n = Some v
             ∧ ev_name v = derived_prefix e +:+ short)
      ∧ (∀ k x, str2int !! k = Some x ↔
           ∃ v short, k = PyStr short ∧ x = PyInt (ev_number v)
             ∧ values_by_name e !! (derived_prefix e +:+ short) = Some v)
      ∧ (alias_free e → ∀ v short, v ∈ enum_values e →
           ev_name v = derived_prefix e +:+ short →
           int2str !! PyInt (ev_number v) = Some (PyStr short)
           ∧ str2int !! PyStr short = Some (PyInt (ev_number v))).
Proof.
  intros Hall.
  assert (Hcheck : all (λ value, Str.startswith (ev_name value) (derived_prefix e))
                       (enum_values e) = true) by by apply all_true_iff.
  destruct (create_enum_dict_fits e None Hcheck) as (Hi & Hs & Hmode).
  split_and!.
  - unfold derived_prefix. by rewrite pascal2snake_lower_join_runs, upper_lower.
  - intros words Hname Hwords Hadj. unfold derived_prefix.
    rewrite Hname, pascal2snake_words by done.
    rewrite upper_join, map_map. f_equal. f_equal.
    apply map_ext. intros w. apply upper_lower.
  - intros mode.
    destruct (create_enum_dict_fits e (Some (derived_prefix e)) Hcheck) as (Hi' & Hs' & Hmode').
    destruct (decide (mode = "int2str")) as [->|H1]; [by rewrite Hi, Hi'|].
    destruct (decide (mode = "str2int")) as [->|H2]; [by rewrite Hs, Hs'|].
    by rewrite Hmode, Hmode'.
  - exists (int2str_dict e (Str.len (derived_prefix e))),
           (str2int_dict e (Str.len (derived_prefix e))).
    split_and!; [exact Hi | exact Hs | | |].
    + by apply int2str_dict_strip.
    + by apply str2int_dict_strip.
    + intros Hfree v short Hin Hname. split.
      * apply (int2str_dict_strip e (derived_prefix e) Hall).
        exists (ev_number v), v, short.
        split_and!; [done..| |done]. by apply values_by_number_alias_free.
      * apply (str2int_dict_strip e (derived_prefix e) Hall). exists v, short.
        split_and!; [done..|]. rewrite <- Hname. by apply values_by_name_alias_free.
Qed.

(** ** The concrete instance *)

(** A run with outcome [r] is the world that it leaves, with [r]. *)
Lemma run_eq {W A : Type} (run : option (W * A)) (d : W) (r : A) :
  snd <$> run = Some r → run = Some (world_of d run, r).
Proof. destruct run as [[w r']|]; [by intros [= ->] | done]. Qed.

Lemma some_default {W : Type} (run : option W) (d : W) :
  is_Some run → run = Some (default d run).
Proof. by intros [w ->]. Qed.

(** Runs of the model on the instance. *)

Example color_int2str :
  create_enum_dict Demo.Color "int2str" None
  = ([], Ok {[ PyInt 0 := PyStr "RED"; PyInt 1 := PyStr "BLUE" ]}).
Proof. vm_compute. reflexivity. Qed.

Example color_str2int :
  create_enum_dict Demo.Color "str2int" None
  = ([], Ok {[ PyStr "RED" := PyInt 0; PyStr "BLUE" := PyInt 1 ]}).
Proof. vm_compute. reflexivity. Qed.

Example plain_color_int2str :
  create_enum_dict Demo.PlainColor "int2str" None
  = ([Warn "Missing values prefix in enum demo.Color" "DynaGrpcWarning"],
     Ok {[ PyInt 0 := PyStr "RED"; PyInt 1 := PyStr "BLUE" ]}).
Proof. vm_compute. reflexivity. Qed.

Example color_unknown_mode :
  create_enum_dict Demo.Color "int2int" None
  = ([], Raise (ValueError "Unknown mode 'int2int'")).
Proof. vm_compute. reflexivity. Qed.

Lemma fresh_is_init : __init__ Demo.astcast "AttrDict" = Some (Demo.fresh, Ok ()).
Proof.
  apply (run_eq (__init__ Demo.astcast "AttrDict") (blank "AttrDict") (Ok ())).
  vm_compute. reflexivity.
Qed.

Lemma ping_registered :
  register_message_type Demo.astcast Demo.pool 5 Demo.Ping Demo.fresh
  = Some (Demo.with_ping, Ok ()).
Proof.
  apply (run_eq (register_message_type Demo.astcast Demo.pool 5 Demo.Ping Demo.fresh)
           Demo.fresh (Ok ())).
  vm_compute. reflexivity.
Qed.

(** The two messages that refer to each other are both registered by one
    call, each compiled once, and no message is left in progress. *)
Example ping_pong_registered :
  compiled Demo.with_ping = ["demo.Ping"; "demo.Pong"]
  ∧ m2p (namespace_of Demo.with_ping) !! "demo.Pong" = Some (Lambda "<m2p/demo.Pong>")
  ∧ c (namespace_of Demo.with_ping) !! "demo.Pong" = Some "Pong"
  ∧ registering_of Demo.with_ping = ∅.
Proof. split_and!; vm_compute; reflexivity. Qed.

(** A message that refers to itself. *)
Example node_registered :
  register_message_type Demo.astcast Demo.pool 5 Demo.Node Demo.fresh
  = Some (Demo.with_node, Ok ())
  ∧ compiled Demo.with_node = ["demo.Node"]
  ∧ registering_of Demo.with_node = ∅.
Proof.
  split; [|split; vm_compute; reflexivity].
  apply (run_eq (register_message_type Demo.astcast Demo.pool 5 Demo.Node Demo.fresh)
           Demo.fresh (Ok ())).
  vm_compute. reflexivity.
Qed.

(** A registration that raises half-way: the converters of the message
    are there, its constructor is not, and the message is not left in
    progress. A second attempt finds the message-to-container converter
    and returns at once: the guard on that converter does not tell a
    registration that raised from one that returned. *)
Example broken_raises :
  register_message_type Demo.astcast Demo.pool 5 Demo.Broken Demo.fresh
  = Some (Demo.with_broken, Raise (Exn "TypeError" "unsupported field"))
  ∧ m2p (namespace_of Demo.with_broken) !! "demo.Broken" = Some (Lambda "<m2p/demo.Broken>")
  ∧ c (namespace_of Demo.with_broken) !! "demo.Broken" = None
  ∧ registering_of Demo.with_broken = ∅
  ∧ snd <$> register_message_type Demo.astcast Demo.pool 5 Demo.Broken Demo.with_broken
    = Some (Ok ()).
Proof.
  split; [|split_and!; vm_compute; reflexivity].
  apply (run_eq (register_message_type Demo.astcast Demo.pool 5 Demo.Broken Demo.fresh)
           Demo.fresh (Raise (Exn "TypeError" "unsupported field"))).
  vm_compute. reflexivity.
Qed.

Lemma demo_pool_closed : pool_closed Demo.pool.
Proof. apply pool_closedb_spec. vm_compute. reflexivity. Qed.

(** C1, as stated, fails: [register_enum_type] assigns the enum slots
    whatever they hold. Registering the descriptor of
    [google.protobuf.NullValue] after construction replaces the built-in
    [{0: None}] by [{0: "NULL_VALUE"}]. *)
Lemma register_enum_type_overwrites_null_value :
  __init__ Demo.astcast "AttrDict" = Some (Demo.fresh, Ok ())
  ∧ register_all Demo.astcast Demo.pool 1 [RegisterEnum Demo.NullValue] Demo.fresh
    = Some Demo.with_null_value
  ∧ i2s (namespace_of Demo.fresh) !! "google.protobuf.NullValue"
    = Some {[ PyInt 0 := PyNone ]}
  ∧ i2s (namespace_of Demo.with_null_value) !! "google.protobuf.NullValue"
    = Some {[ PyInt 0 := PyStr "NULL_VALUE" ]}
  ∧ i2s (namespace_of Demo.with_null_value) !! "google.protobuf.NullValue"
    ≠ i2s (namespace_of Demo.fresh) !! "google.protobuf.NullValue".
Proof.
  assert (Hbefore : i2s (namespace_of Demo.fresh) !! "google.protobuf.NullValue"
                    = Some {[ PyInt 0 := PyNone ]}) by (vm_compute; reflexivity).
  assert (Hafter : i2s (namespace_of Demo.with_null_value) !! "google.protobuf.NullValue"
                   = Some {[ PyInt 0 := PyStr "NULL_VALUE" ]}) by (vm_compute; reflexivity).
  split; [exact fresh_is_init|]. split.
  { apply some_default.
    apply (bool_decide_eq_true_1
             (is_Some (register_all Demo.astcast Demo.pool 1
                         [RegisterEnum Demo.NullValue] Demo.fresh))).
    vm_compute. reflexivity. }
  split; [exact Hbefore|]. split; [exact Hafter|].
  rewrite Hbefore, Hafter. intros Heq%(inj Some).
  apply (f_equal (λ m : gmap pyval pyval, m !! PyInt 0)) in Heq.
  rewrite !lookup_singleton_eq in Heq. discriminate.
Qed.

(** C1, as amended, on the instance: after an enum, messages (one of them
    twice, one that raises) and a field have been registered, the slots of
    [google.protobuf.Timestamp] are those of construction. *)
Lemma registration_keeps_message_slots_witness :
  register_all Demo.astcast Demo.pool 5 Demo.calls Demo.fresh = Some Demo.after_calls
  ∧ "google.protobuf.Timestamp" ∈ dom (m2p (namespace_of Demo.fresh))
  ∧ m2p (namespace_of Demo.after_calls) !! "google.protobuf.Timestamp"
    = m2p (namespace_of Demo.fresh) !! "google.protobuf.Timestamp"
  ∧ p2m (namespace_of Demo.after_calls) !! "google.protobuf.Timestamp"
    = p2m (namespace_of Demo.fresh) !! "google.protobuf.Timestamp"
  ∧ c (namespace_of Demo.after_calls) !! "google.protobuf.Timestamp"
    = c (namespace_of Demo.fresh) !! "google.protobuf.Timestamp".
Proof.
  assert (H1 : register_all Demo.astcast Demo.pool 5 Demo.calls Demo.fresh
               = Some Demo.after_calls).
  { apply some_default.
    apply (bool_decide_eq_true_1
             (is_Some (register_all Demo.astcast Demo.pool 5 Demo.calls Demo.fresh))).
    vm_compute. reflexivity. }
  assert (H2 : "google.protobuf.Timestamp" ∈ dom (m2p (namespace_of Demo.fresh))).
  { apply (bool_decide_eq_true_1
             ("google.protobuf.Timestamp" ∈ dom (m2p (namespace_of Demo.fresh)))).
    vm_compute. reflexivity. }
  split; [exact H1|]. split; [exact H2|].
  exact (registration_keeps_message_slots Demo.astcast Demo.pool 5 Demo.calls Demo.fresh
           Demo.after_calls "google.protobuf.Timestamp" H1 H2).
Defined.

(** C3, as amended, on the instance, for the registration that raises. *)
Lemma register_message_type_clears_in_progress_witness :
  ∃ w' r,
    register_message_type Demo.astcast Demo.pool 5 Demo.Broken Demo.fresh = Some (w', r)
    ∧ registering_of w' = registering_of Demo.fresh
    ∧ (Demo.Broken ∉ registering_of w')
    ∧ (∀ desc, Demo.pool !! Demo.Broken = Some desc →
         full_name desc ∈ dom (m2p (namespace_of w')) →
         ∀ fuel', register_message_type Demo.astcast Demo.pool (S fuel') Demo.Broken w'
                  = Some (w', Ok ()))
    ∧ (r = Ok () → ∀ desc, Demo.pool !! Demo.Broken = Some desc →
         full_name desc ∈ dom (m2p (namespace_of w'))).
Proof.
  apply (register_message_type_clears_in_progress Demo.astcast Demo.pool 5 Demo.Broken
           Demo.fresh).
  - exact demo_pool_closed.
  - apply (bool_decide_eq_true_1 (is_Some (Demo.pool !! Demo.Broken))).
    vm_compute. reflexivity.
  - apply (bool_decide_eq_false_1 (Demo.Broken ∈ registering_of Demo.fresh)).
    vm_compute. reflexivity.
  - vm_compute. lia.
Defined.


(** C9 on the instance: the second registration of a message. *)
Lemma register_message_type_idempotent_witness :
  Demo.pool !! Demo.Ping = Some Demo.ping_descriptor
  ∧ register_message_type Demo.astcast Demo.pool 5 Demo.Ping Demo.fresh
    = Some (Demo.with_ping, Ok ())
  ∧ register_message_type Demo.astcast Demo.pool 1 Demo.Ping Demo.with_ping
    = Some (Demo.with_ping, Ok ()).
Proof.
  assert (H1 : Demo.pool !! Demo.Ping = Some Demo.ping_descriptor)
    by (vm_compute; reflexivity).
  split; [exact H1|]. split; [exact ping_registered|].
  exact (proj2 (register_message_type_idempotent Demo.astcast Demo.pool 0 Demo.Ping
                  Demo.ping_descriptor Demo.with_ping H1) 5%nat Demo.fresh
           ping_registered).
Defined.

(** C10 on the instance. *)
Lemma null_value_projection_witness :
  ∃ int2str str2int : gmap pyval pyval,
    i2s (namespace_of Demo.fresh) !! "google.protobuf.NullValue" = Some int2str
    ∧ s2i (namespace_of Demo.fresh) !! "google.protobuf.NullValue" = Some str2int
    ∧ int2str !! PyInt 0 = Some PyNone
    ∧ str2int !! PyNone = Some (PyInt 0)
    ∧ int2str = {[ PyInt 0 := PyNone ]}
    ∧ str2int = {[ PyNone := PyInt 0 ]}.
Proof.
  apply (null_value_projection Demo.astcast "AttrDict" Demo.fresh).
  exact fresh_is_init.
Defined.

(** C8 on the instance, for [google.protobuf.Timestamp]. *)
Lemma unsupported_types_fail_witness :
  ∃ to_python to_message : converter string,
    m2p (namespace_of Demo.fresh) !! "google.protobuf.Timestamp" = Some to_python
    ∧ p2m (namespace_of Demo.fresh) !! "google.protobuf.Timestamp" = Some to_message
    ∧ ∀ (pyobj : Type) (getattr : pyobj → string → result pyobj)
        (run_lambda : string → Namespace string string → pyobj → result pyobj),
        (∀ (ns : Namespace string string) (arg : pyobj),
           call getattr run_lambda ns to_python arg
           = Raise (NotImplementedError "google.protobuf.Timestamp")
           ∧ call getattr run_lambda ns to_message arg
             = Raise (NotImplementedError "google.protobuf.Timestamp"))
        ∧ (∀ (message_full_name : pyobj → string) (message : pyobj),
             message_full_name message = "google.protobuf.Timestamp" →
             proto2py getattr run_lambda message_full_name (registry Demo.fresh) message
             = Raise (NotImplementedError "google.protobuf.Timestamp"))
        ∧ (∀ (class_full_name : string → string) (message_cls : string) (data : pyobj),
             class_full_name message_cls = "google.protobuf.Timestamp" →
             py2proto getattr run_lambda class_full_name (registry Demo.fresh)
               message_cls data
             = Raise (NotImplementedError "google.protobuf.Timestamp")).
Proof.
  apply (unsupported_types_fail Demo.astcast "AttrDict" Demo.fresh "Timestamp").
  - exact fresh_is_init.
  - apply (bool_decide_eq_true_1 ("Timestamp" ∈ google_complex_types)).
    vm_compute. reflexivity.
Defined.

(** C5 on the instance: the values [RED] and [BLUE] with the explicit
    prefix ["X_"], in both modes. *)
Lemma create_enum_dict_explicit_prefix_mismatch_witness :
  create_enum_dict Demo.PlainColor "int2str" (Some "X_")
  = ([], Raise (ValueError "The 'X_' prefix is not common for all values"))
  ∧ create_enum_dict Demo.PlainColor "str2int" (Some "X_")
    = ([], Raise (ValueError "The 'X_' prefix is not common for all values")).
Proof.
  split.
  - apply (create_enum_dict_explicit_prefix_mismatch Demo.PlainColor "int2str" "X_").
    exists (EnumValue "RED" 0). split; [left | reflexivity].
  - apply (create_enum_dict_explicit_prefix_mismatch Demo.PlainColor "str2int" "X_").
    exists (EnumValue "RED" 0). split; [left | reflexivity].
Defined.

(** C6 on the instance: the enum [Color] with the values [RED] and [BLUE]. *)
Lemma create_enum_dict_derived_prefix_mismatch_witness :
  ∃ int2str str2int : gmap pyval pyval,
    create_enum_dict Demo.PlainColor "int2str" None
    = ([missing_prefix_warning Demo.PlainColor], Ok int2str)
    ∧ create_enum_dict Demo.PlainColor "str2int" None
      = ([missing_prefix_warning Demo.PlainColor], Ok str2int)
    ∧ int2str = kmap PyInt ((λ v, PyStr (ev_name v)) <$> values_by_number Demo.PlainColor)
    ∧ str2int = kmap PyStr ((λ v, PyInt (ev_number v)) <$> values_by_name Demo.PlainColor)
    ∧ (alias_free Demo.PlainColor → ∀ v, v ∈ enum_values Demo.PlainColor →
         int2str !! PyInt (ev_number v) = Some (PyStr (ev_name v))
         ∧ str2int !! PyStr (ev_name v) = Some (PyInt (ev_number v))).
Proof.
  apply (create_enum_dict_derived_prefix_mismatch Demo.PlainColor).
  exists (EnumValue "RED" 0). split; [left | reflexivity].
Defined.

(** C7 on the instance: the enum [LogLevel], whose name has two words,
    with the values [LOG_LEVEL_INFO] and [LOG_LEVEL_WARN]. *)
Lemma create_enum_dict_derived_prefix_strip_witness :
  derived_prefix Demo.LogLevel = "LOG_LEVEL_"
  ∧ create_enum_dict Demo.LogLevel "int2str" None
    = ([], Ok {[ PyInt 0 := PyStr "INFO"; PyInt 1 := PyStr "WARN" ]})
  ∧ derived_prefix Demo.LogLevel
    = Str.upper (join_runs (Str.findall_AZ_runs (enum_name Demo.LogLevel))) +:+ "_"
  ∧ (∀ words, enum_name Demo.LogLevel = Str.join EmptyString words →
       forallb pascal_word words = true → no_adjacent_single words = true →
       derived_prefix Demo.LogLevel = Str.join "_" (map Str.upper words) +:+ "_")
  ∧ (∀ mode, create_enum_dict Demo.LogLevel mode None
             = create_enum_dict Demo.LogLevel mode (Some (derived_prefix Demo.LogLevel)))
  ∧ ∃ int2str str2int : gmap pyval pyval,
      create_enum_dict Demo.LogLevel "int2str" None = ([], Ok int2str)
      ∧ create_enum_dict Demo.LogLevel "str2int" None = ([], Ok str2int)
      ∧ (∀ k x, int2str !! k = Some x ↔
           ∃ n v short, k = PyInt n ∧ x = PyStr short
             ∧ values_by_number Demo.LogLevel !! n = Some v
             ∧ ev_name v = derived_prefix Demo.LogLevel +:+ short)
      ∧ (∀ k x, str2int !! k = Some x ↔
           ∃ v short, k = PyStr short ∧ x = PyInt (ev_number v)
             ∧ values_by_name Demo.LogLevel !! (derived_prefix Demo.LogLevel +:+ short)
               = Some v)
      ∧ (alias_free Demo.LogLevel → ∀ v short, v ∈ enum_values Demo.LogLevel →
           ev_name v = derived_prefix Demo.LogLevel +:+ short →
           int2str !! PyInt (ev_number v) = Some (PyStr short)
           ∧ str2int !! PyStr short = Some (PyInt (ev_number v))).
Proof.
  split; [vm_compute; reflexivity|].
  split; [vm_compute; reflexivity|].
  apply (create_enum_dict_derived_prefix_strip Demo.LogLevel).
  apply (proj1 (all_true_iff
           (λ value, Str.startswith (ev_name value) (derived_prefix Demo.LogLevel))
           (enum_values Demo.LogLevel))).
  vm_compute. reflexivity.
Defined.

(** *** The further properties on the instance *)

Lemma demo_calls_run :
  register_all Demo.astcast Demo.pool 5 Demo.calls Demo.fresh = Some Demo.after_calls.
Proof.
  apply some_default.
  apply (bool_decide_eq_true_1
           (is_Some (register_all Demo.astcast Demo.pool 5 Demo.calls Demo.fresh))).
  vm_compute. reflexivity.
Qed.

Lemma demo_color_alias_free : alias_free Demo.Color.
Proof.
  split.
  - apply (bool_decide_eq_true_1 (NoDup (ev_number <$> enum_values Demo.Color))).
    vm_compute. reflexivity.
  - apply (bool_decide_eq_true_1 (NoDup (ev_name <$> enum_values Demo.Color))).
    vm_compute. reflexivity.
Qed.

(** X1 on a name. *)
Lemma snake2pascal_underscores_witness :
  Repr.contains "_" "status" = false ∧ snake2pascal "status" = Str.title "status".
Proof.
  split; [reflexivity|].
  apply (proj1 (proj2 (proj2 snake2pascal_underscores)) "status"). reflexivity.
Defined.

(** X7 on the instance: the enum [Color] with the explicit prefix
    ["COLOR_"]. *)
Lemma create_enum_dict_explicit_prefix_strip_witness :
  ∃ int2str str2int : gmap pyval pyval,
    create_enum_dict Demo.Color "int2str" (Some "COLOR_") = ([], Ok int2str)
    ∧ create_enum_dict Demo.Color "str2int" (Some "COLOR_") = ([], Ok str2int)
    ∧ (∀ k x, int2str !! k = Some x ↔
         ∃ n v short, k = PyInt n ∧ x = PyStr short
           ∧ values_by_number Demo.Color !! n = Some v
           ∧ ev_name v = "COLOR_" +:+ short)
    ∧ (∀ k x, str2int !! k = Some x ↔
         ∃ v short, k = PyStr short ∧ x = PyInt (ev_number v)
           ∧ values_by_name Demo.Color !! ("COLOR_" +:+ short) = Some v)
    ∧ (alias_free Demo.Color → ∀ v short, v ∈ enum_values Demo.Color →
         ev_name v = "COLOR_" +:+ short →
         int2str !! PyInt (ev_number v) = Some (PyStr short)
         ∧ str2int !! PyStr short = Some (PyInt (ev_number v))).
Proof.
  apply (create_enum_dict_explicit_prefix_strip Demo.Color "COLOR_").
  apply (proj1 (all_true_iff
           (λ value, Str.startswith (ev_name value) "COLOR_")
           (enum_values Demo.Color))).
  vm_compute. reflexivity.
Defined.

(** X8 on the instance: an unknown mode for the enum whose values lack
    the prefix. *)
Lemma create_enum_dict_unknown_mode_witness :
  create_enum_dict Demo.PlainColor "int2int" None
  = ([missing_prefix_warning Demo.PlainColor],
     Raise (ValueError "Unknown mode 'int2int'")).
Proof.
  apply (create_enum_dict_unknown_mode Demo.PlainColor "int2int" None).
  - discriminate.
  - discriminate.
  - left. reflexivity.
Defined.

(** X9 on the instance: the two dictionaries of the enum [Color]. *)
Lemma create_enum_dict_inverse_witness :
  alias_free Demo.Color
  ∧ create_enum_dict Demo.Color "int2str" None
    = ([], Ok {[ PyInt 0 := PyStr "RED"; PyInt 1 := PyStr "BLUE" ]})
  ∧ create_enum_dict Demo.Color "str2int" None
    = ([], Ok {[ PyStr "RED" := PyInt 0; PyStr "BLUE" := PyInt 1 ]})
  ∧ (@nil warning) = []
  ∧ ∀ k x,
      ({[ PyInt 0 := PyStr "RED"; PyInt 1 := PyStr "BLUE" ]} : gmap pyval pyval) !! k
      = Some x
      ↔ ({[ PyStr "RED" := PyInt 0; PyStr "BLUE" := PyInt 1 ]} : gmap pyval pyval) !! x
        = Some k.
Proof.
  split; [exact demo_color_alias_free|]. split; [exact color_int2str|].
  split; [exact color_str2int|].
  exact (create_enum_dict_inverse Demo.Color None [] [] _ _
           demo_color_alias_free color_int2str color_str2int).
Defined.

(** X10 on the instance: an enum without values and a prefix. *)
Lemma create_enum_dict_no_values_witness :
  create_enum_dict Demo.NoValues "int2str" (Some "X_") = ([], Ok ∅)
  ∧ create_enum_dict Demo.NoValues "str2int" (Some "X_") = ([], Ok ∅).
Proof. apply (create_enum_dict_no_values Demo.NoValues (Some "X_")). reflexivity. Defined.

(** X12 on the instance. *)
Lemma registration_keeps_keys_witness :
  d (namespace_of Demo.after_calls) = d (namespace_of Demo.fresh)
  ∧ dom (m2p (namespace_of Demo.fresh)) ⊆ dom (m2p (namespace_of Demo.after_calls))
  ∧ dom (p2m (namespace_of Demo.fresh)) ⊆ dom (p2m (namespace_of Demo.after_calls))
  ∧ dom (f2p (namespace_of Demo.fresh)) ⊆ dom (f2p (namespace_of Demo.after_calls))
  ∧ dom (p2f (namespace_of Demo.fresh)) ⊆ dom (p2f (namespace_of Demo.after_calls))
  ∧ dom (i2s (namespace_of Demo.fresh)) ⊆ dom (i2s (namespace_of Demo.after_calls))
  ∧ dom (s2i (namespace_of Demo.fresh)) ⊆ dom (s2i (namespace_of Demo.after_calls))
  ∧ dom (c (namespace_of Demo.fresh)) ⊆ dom (c (namespace_of Demo.after_calls)).
Proof.
  exact (registration_keeps_keys Demo.astcast Demo.pool 5 Demo.calls Demo.fresh
           Demo.after_calls demo_calls_run).
Defined.

(** X13 on the instance: the registration of the two messages that refer
    to each other. *)
Lemma message_registration_leaves_enum_side_witness :
  d (namespace_of Demo.with_ping) = d (namespace_of Demo.fresh)
  ∧ i2s (namespace_of Demo.with_ping) = i2s (namespace_of Demo.fresh)
  ∧ s2i (namespace_of Demo.with_ping) = s2i (namespace_of Demo.fresh)
  ∧ warned Demo.with_ping = warned Demo.fresh.
Proof.
  exact (proj1 (message_registration_leaves_enum_side Demo.astcast Demo.pool 5
                  Demo.fresh Demo.with_ping (Ok ())) Demo.Ping ping_registered).
Defined.

(** X17 on the instance. *)
Lemma register_all_none_in_progress_witness :
  registering_of Demo.fresh = ∅ ∧ registering_of Demo.after_calls = ∅.
Proof.
  assert (H : registering_of Demo.fresh = ∅) by (vm_compute; reflexivity).
  split; [exact H|].
  exact (register_all_none_in_progress Demo.astcast Demo.pool 5 Demo.calls Demo.fresh
           Demo.after_calls H demo_calls_run).
Defined.

(** X18 on the instance. *)
Lemma register_all_terminates_witness :
  ∃ w', ∀ fuel, (unregistered Demo.pool Demo.fresh < fuel)%nat →
    register_all Demo.astcast Demo.pool fuel Demo.calls Demo.fresh = Some w'.
Proof.
  apply (register_all_terminates Demo.astcast Demo.pool Demo.calls Demo.fresh).
  - exact demo_pool_closed.
  - repeat constructor.
    + apply (bool_decide_eq_true_1 (is_Some (Demo.pool !! Demo.Ping))).
      vm_compute. reflexivity.
    + apply (bool_decide_eq_true_1 (is_Some (Demo.pool !! Demo.Broken))).
      vm_compute. reflexivity.
    + intros mt [= <-].
      apply (bool_decide_eq_true_1 (is_Some (Demo.pool !! Demo.Node))).
      vm_compute. reflexivity.
    + apply (bool_decide_eq_true_1 (is_Some (Demo.pool !! Demo.Ping))).
      vm_compute. reflexivity.
Defined.

Lemma demo_ping_in_pool : Demo.pool !! Demo.Ping = Some Demo.ping_descriptor.
Proof. vm_compute. reflexivity. Qed.

(** X14 on the instance: the registration of [Ping], which registers
    [Pong] on the way. *)
Lemma register_message_type_complete_witness :
  ∃ (to_python to_message : string) (cls : string),
    (∃ input_ast return_ast,
        message2dict_ast Demo.astcast Demo.Ping "msg" (i2s (namespace_of Demo.fresh)) "f2p"
        = Ok input_ast
        ∧ wrap_call_ast Demo.astcast "d" input_ast = Ok return_ast
        ∧ create_lambda Demo.astcast return_ast "msg"
            ("<m2p/" +:+ full_name Demo.ping_descriptor +:+ ">")
            (namespace_of Demo.fresh) = Ok to_python)
    ∧ (∃ return_ast,
          dict2message_ast Demo.astcast Demo.Ping "data" "c" "p2f" = Ok return_ast
          ∧ create_lambda Demo.astcast return_ast "data"
              ("<p2m/" +:+ full_name Demo.ping_descriptor +:+ ">")
              (assign_m2p (full_name Demo.ping_descriptor) (Lambda to_python)
                 (namespace_of Demo.fresh))
            = Ok to_message)
    ∧ _concrete_class Demo.ping_descriptor = Ok cls
    ∧ m2p (namespace_of Demo.with_ping) !! full_name Demo.ping_descriptor
      = Some (Lambda to_python)
    ∧ p2m (namespace_of Demo.with_ping) !! full_name Demo.ping_descriptor
      = Some (Lambda to_message)
    ∧ c (namespace_of Demo.with_ping) !! full_name Demo.ping_descriptor = Some cls
    ∧ (∀ field, field ∈ fields Demo.ping_descriptor →
         field_full_name field ∈ dom (f2p (namespace_of Demo.with_ping))
         ∧ field_full_name field ∈ dom (p2f (namespace_of Demo.with_ping)))
    ∧ (∀ field mt' desc', field ∈ fields Demo.ping_descriptor →
         field_message_type field = Some mt' → Demo.pool !! mt' = Some desc' →
         map_entry desc' = false → mt' ∉ registering_of Demo.fresh →
         full_name desc' ∈ dom (m2p (namespace_of Demo.with_ping)))
    ∧ (∀ (pyobj : Type) (getattr : pyobj → string → result pyobj)
         (run_lambda : string → Namespace string string → pyobj → result pyobj)
         (message_full_name : pyobj → string) (class_full_name : string → string)
         (message data : pyobj) (message_cls : string),
         (message_full_name message = full_name Demo.ping_descriptor →
            proto2py getattr run_lambda message_full_name (registry Demo.with_ping) message
            = run_lambda to_python (namespace_of Demo.with_ping) message)
         ∧ (class_full_name message_cls = full_name Demo.ping_descriptor →
              py2proto getattr run_lambda class_full_name (registry Demo.with_ping)
                message_cls data
              = run_lambda to_message (namespace_of Demo.with_ping) data)).
Proof.
  apply (register_message_type_complete Demo.astcast Demo.pool 5 Demo.Ping
           Demo.ping_descriptor Demo.fresh Demo.with_ping).
  - exact demo_ping_in_pool.
  - apply (bool_decide_eq_false_1
             (full_name Demo.ping_descriptor ∈ dom (m2p (namespace_of Demo.fresh)))).
    vm_compute. reflexivity.
  - exact ping_registered.
Defined.

Lemma demo_broken_raises :
  register_message_type Demo.astcast Demo.pool 5 Demo.Broken Demo.fresh
  = Some (Demo.with_broken, Raise (Exn "TypeError" "unsupported field")).
Proof.
  apply (run_eq (register_message_type Demo.astcast Demo.pool 5 Demo.Broken Demo.fresh)
           Demo.fresh (Raise (Exn "TypeError" "unsupported field"))).
  vm_compute. reflexivity.
Qed.

(** C3, as stated, fails: that the message is no longer in progress does
    not mean that a later attempt is not blocked. The registration of
    [Broken] raises for its field, after the two converters of the message
    were stored; the message is not in progress afterwards, and yet a
    second call returns at once and leaves the world as it is, without the
    constructor and the converters of the field. *)
Lemma register_message_type_retry_blocked :
  (Demo.Broken ∉ registering_of Demo.fresh)
  ∧ register_message_type Demo.astcast Demo.pool 5 Demo.Broken Demo.fresh
    = Some (Demo.with_broken, Raise (Exn "TypeError" "unsupported field"))
  ∧ (Demo.Broken ∉ registering_of Demo.with_broken)
  ∧ register_message_type Demo.astcast Demo.pool 5 Demo.Broken Demo.with_broken
    = Some (Demo.with_broken, Ok ())
  ∧ m2p (namespace_of Demo.with_broken) !! "demo.Broken"
    = Some (Lambda "<m2p/demo.Broken>")
  ∧ c (namespace_of Demo.with_broken) !! "demo.Broken" = None
  ∧ f2p (namespace_of Demo.with_broken) !! "demo.Broken.payload" = None
  ∧ p2f (namespace_of Demo.with_broken) !! "demo.Broken.payload" = None.
Proof.
  split_and!.
  - apply (bool_decide_eq_false_1 (Demo.Broken ∈ registering_of Demo.fresh)).
    vm_compute. reflexivity.
  - exact demo_broken_raises.
  - apply (bool_decide_eq_false_1 (Demo.Broken ∈ registering_of Demo.with_broken)).
    vm_compute. reflexivity.
  - apply (register_message_type_guard Demo.astcast Demo.pool 4 Demo.Broken
             Demo.broken_descriptor).
    + vm_compute. reflexivity.
    + apply (bool_decide_eq_true_1
               (full_name Demo.broken_descriptor ∈ dom (m2p (namespace_of Demo.with_broken)))).
      vm_compute. reflexivity.
  - vm_compute. reflexivity.
  - vm_compute. reflexivity.
  - vm_compute. reflexivity.
  - vm_compute. reflexivity.
Qed.

(** X15 on the instance: the registration that raises for a field. *)
Lemma register_message_type_no_rollback_witness :
  (registry Demo.with_broken = registry Demo.fresh
   ∧ warned Demo.with_broken = warned Demo.fresh)
  ∨ (full_name Demo.broken_descriptor ∈ dom (m2p (namespace_of Demo.with_broken))
     ∧ c (namespace_of Demo.with_broken) !! full_name Demo.broken_descriptor
       = c (namespace_of Demo.fresh) !! full_name Demo.broken_descriptor
     ∧ ∀ fuel', register_message_type Demo.astcast Demo.pool (S fuel') Demo.Broken
                  Demo.with_broken
                = Some (Demo.with_broken, Ok ())).
Proof.
  apply (register_message_type_no_rollback Demo.astcast Demo.pool 5 Demo.Broken
           Demo.broken_descriptor Demo.fresh Demo.with_broken
           (Exn "TypeError" "unsupported field")).
  - vm_compute. reflexivity.
  - apply (bool_decide_eq_false_1
             (full_name Demo.broken_descriptor ∈ dom (m2p (namespace_of Demo.fresh)))).
    vm_compute. reflexivity.
  - apply (bool_decide_eq_false_1 (Demo.Broken ∈ registering_of Demo.fresh)).
    vm_compute. reflexivity.
  - exact demo_broken_raises.
Defined.

(** X16 on the instance: a map field, with no recursion budget. *)
Lemma register_field_type_without_nested_witness :
  ∃ w' r,
    register_field_type Demo.astcast Demo.table_pool 0 Demo.entries_field Demo.fresh
    = Some (w', r)
    ∧ same_enum_side Demo.fresh w'
    ∧ m2p (namespace_of w') = m2p (namespace_of Demo.fresh)
    ∧ p2m (namespace_of w') = p2m (namespace_of Demo.fresh)
    ∧ c (namespace_of w') = c (namespace_of Demo.fresh)
    ∧ registering_of w' = registering_of Demo.fresh
    ∧ compiled w' = compiled Demo.fresh
    ∧ (∀ key, key ≠ field_full_name Demo.entries_field →
         f2p (namespace_of w') !! key = f2p (namespace_of Demo.fresh) !! key
         ∧ p2f (namespace_of w') !! key = p2f (namespace_of Demo.fresh) !! key)
    ∧ (r = Ok () →
         ∃ f g, f2p (namespace_of w') !! field_full_name Demo.entries_field
                = Some (Lambda f)
                ∧ p2f (namespace_of w') !! field_full_name Demo.entries_field
                  = Some (Lambda g))
    ∧ (∀ e, r = Raise e → p2f (namespace_of w') = p2f (namespace_of Demo.fresh)).
Proof.
  apply (register_field_type_without_nested Demo.astcast Demo.table_pool 0
           Demo.entries_field Demo.fresh).
  intros mt [= <-]. eexists. split.
  - vm_compute. reflexivity.
  - left. reflexivity.
Defined.

(** X19 on the instance. *)
Lemma construction_state_witness :
  d (namespace_of Demo.fresh) = "AttrDict"
  ∧ f2p (namespace_of Demo.fresh) = ∅
  ∧ p2f (namespace_of Demo.fresh) = ∅
  ∧ i2s (namespace_of Demo.fresh)
    = {[ "google.protobuf.NullValue" := {[ PyInt 0 := PyNone ]} ]}
  ∧ s2i (namespace_of Demo.fresh)
    = {[ "google.protobuf.NullValue" := {[ PyNone := PyInt 0 ]} ]}
  ∧ registering_of Demo.fresh = ∅
  ∧ warned Demo.fresh = []
  ∧ compiled Demo.fresh = []
  ∧ (∀ name, name ∈ dom (m2p (namespace_of Demo.fresh))
       ↔ name ∈ (GOOGLE_PROTOBUF_WRAPPERS Demo.astcast).*1
         ∨ name ∈ google_complex_full_names)
  ∧ dom (p2m (namespace_of Demo.fresh)) = dom (m2p (namespace_of Demo.fresh))
  ∧ (∀ name, name ∈ dom (c (namespace_of Demo.fresh))
       ↔ name ∈ (GOOGLE_PROTOBUF_WRAPPERS Demo.astcast).*1).
Proof.
  exact (construction_state Demo.astcast "AttrDict" Demo.fresh fresh_is_init).
Defined.

(** X20 on the instance: the wrapper of [bool] after the calls. *)
Lemma wrapper_types_converters_witness :
  m2p (namespace_of Demo.after_calls) !! "google.protobuf.BoolValue"
  = Some (AttrGetter "value")
  ∧ (∃ f, p2m (namespace_of Demo.after_calls) !! "google.protobuf.BoolValue"
          = Some (Lambda f))
  ∧ (NoDup (GOOGLE_PROTOBUF_WRAPPERS Demo.astcast).*1 →
       c (namespace_of Demo.after_calls) !! "google.protobuf.BoolValue" = Some "BoolValue")
  ∧ ∀ (pyobj : Type) (getattr : pyobj → string → result pyobj)
      (run_lambda : string → Namespace string string → pyobj → result pyobj)
      (message_full_name : pyobj → string) (message : pyobj),
      message_full_name message = "google.protobuf.BoolValue" →
      proto2py getattr run_lambda message_full_name (registry Demo.after_calls) message
      = getattr message "value".
Proof.
  apply (wrapper_types_converters Demo.astcast Demo.pool "AttrDict" 5 Demo.calls
           Demo.fresh Demo.after_calls "google.protobuf.BoolValue" "BoolValue").
  - exact fresh_is_init.
  - exact demo_calls_run.
  - left.
  - apply (bool_decide_eq_false_1
             ("google.protobuf.BoolValue" ∈ google_complex_full_names)).
    vm_compute. reflexivity.
Defined.

(** X21 on the instance: [google.protobuf.Timestamp] after the calls. *)
Lemma unsupported_types_stay_witness :
  "Timestamp" ∈ google_complex_types
  ∧ ∀ (pyobj : Type) (getattr : pyobj → string → result pyobj)
    (run_lambda : string → Namespace string string → pyobj → result pyobj),
    (∀ (message_full_name : pyobj → string) (message : pyobj),
       message_full_name message = "google.protobuf.Timestamp" →
       proto2py getattr run_lambda message_full_name (registry Demo.after_calls) message
       = Raise (NotImplementedError "google.protobuf.Timestamp"))
    ∧ (∀ (class_full_name : string → string) (message_cls : string) (data : pyobj),
         class_full_name message_cls = "google.protobuf.Timestamp" →
         py2proto getattr run_lambda class_full_name (registry Demo.after_calls)
           message_cls data
         = Raise (NotImplementedError "google.protobuf.Timestamp")).
Proof.
  assert (H : "Timestamp" ∈ google_complex_types).
  { apply (bool_decide_eq_true_1 ("Timestamp" ∈ google_complex_types)).
    vm_compute. reflexivity. }
  split; [exact H|].
  exact (unsupported_types_stay Demo.astcast Demo.pool "AttrDict" 5 Demo.calls
           Demo.fresh Demo.after_calls "Timestamp" fresh_is_init demo_calls_run H).
Defined.

Lemma demo_next_field_run :
  register_field_type Demo.astcast Demo.pool 5 Demo.next_field Demo.fresh
  = Some (Demo.with_next_field, Ok ()).
Proof.
  apply (run_eq (register_field_type Demo.astcast Demo.pool 5 Demo.next_field Demo.fresh)
           Demo.fresh (Ok ())).
  vm_compute. reflexivity.
Qed.

(** X23 on the instance: the field [next] of [Node] registers [Node]. *)
Lemma register_field_type_registers_nested_witness :
  Demo.pool !! Demo.Node = Some Demo.node_descriptor
  ∧ (full_name Demo.node_descriptor ∉ dom (m2p (namespace_of Demo.fresh)))
  ∧ full_name Demo.node_descriptor ∈ dom (m2p (namespace_of Demo.with_next_field))
  ∧ field_full_name Demo.next_field ∈ dom (f2p (namespace_of Demo.with_next_field)).
Proof.
  assert (Hpool : Demo.pool !! Demo.Node = Some Demo.node_descriptor)
    by (vm_compute; reflexivity).
  assert (Hfresh : full_name Demo.node_descriptor ∉ dom (m2p (namespace_of Demo.fresh))).
  { apply (bool_decide_eq_false_1
             (full_name Demo.node_descriptor ∈ dom (m2p (namespace_of Demo.fresh)))).
    vm_compute. reflexivity. }
  assert (Hfree : Demo.Node ∉ registering_of Demo.fresh).
  { apply (bool_decide_eq_false_1 (Demo.Node ∈ registering_of Demo.fresh)).
    vm_compute. reflexivity. }
  destruct (register_field_type_registers_nested Demo.astcast Demo.pool 5 Demo.next_field
              Demo.fresh Demo.with_next_field demo_next_field_run)
    as (Hf2p & _ & _ & Hnested).
  split; [exact Hpool|]. split; [exact Hfresh|]. split; [|exact Hf2p].
  exact (Hnested Demo.Node Demo.node_descriptor eq_refl Hpool eq_refl Hfree).
Defined.

(** X24 on the instance: a message type that was not registered. *)
Lemma fresh_registry_key_error_witness :
  ("demo.Ping" ∉ (GOOGLE_PROTOBUF_WRAPPERS Demo.astcast).*1)
  ∧ ∀ (pyobj : Type) (getattr : pyobj → string → result pyobj)
      (run_lambda : string → Namespace string string → pyobj → result pyobj),
      (∀ (message_full_name : pyobj → string) (message : pyobj),
         message_full_name message = "demo.Ping" →
         proto2py getattr run_lambda message_full_name (registry Demo.fresh) message
         = Raise (KeyError "'demo.Ping'"))
      ∧ (∀ (class_full_name : string → string) (message_cls : string) (data : pyobj),
           class_full_name message_cls = "demo.Ping" →
           py2proto getattr run_lambda class_full_name (registry Demo.fresh)
             message_cls data
           = Raise (KeyError "'demo.Ping'")).
Proof.
  assert (H : "demo.Ping" ∉ (GOOGLE_PROTOBUF_WRAPPERS Demo.astcast).*1).
  { apply (bool_decide_eq_false_1
             ("demo.Ping" ∈ (GOOGLE_PROTOBUF_WRAPPERS Demo.astcast).*1)).
    vm_compute. reflexivity. }
  split; [exact H|].
  apply (fresh_registry_key_error Demo.astcast "AttrDict" Demo.fresh "demo.Ping"
           fresh_is_init H).
  apply (bool_decide_eq_false_1 ("demo.Ping" ∈ google_complex_full_names)).
  vm_compute. reflexivity.
Defined.

(** X25 on the instance: the derived prefix of [NullValue], which the
    name of its one value does not start with. *)
Lemma derived_prefix_words_witness :
  derived_prefix Demo.NullValue = "NULL_VALUE_"
  ∧ Str.startswith "NULL_VALUE" (derived_prefix Demo.NullValue) = false.
Proof.
  assert (H : derived_prefix Demo.NullValue = "NULL_VALUE_").
  { apply (derived_prefix_words Demo.NullValue ["Null"; "Value"]); reflexivity. }
  split; [exact H|]. rewrite H. reflexivity.
Defined.
